(** * cyber_ids: artifact loading, sanitizing and scoring

    A shallow embedding of [cyber_ids/artifacts_config.py],
    [cyber_ids/services.py], [cyber_ids/schemas.py] and [cyber_ids/api.py],
    and the properties of the service layer proved over it.

    - numeric cells are IEEE-754 binary floating point data, modelled with
      the [spec_float] type of the standard library; the two numpy casts
      [astype("float64")] and [astype("float32")] are the round-to-nearest-even
      conversions [binary_round 53 1024] and [binary_round 24 128];
    - a pandas frame is a row index, a list of column labels and a
      row-major array of cells;
    - the process (file system, the module-level cache, standard output, the
      trace of disk accesses) is an explicit [World] threaded through a
      state-and-exception monad. *)

From Stdlib Require Import ZArith String Ascii List Lia.
From Stdlib Require Import Floats.SpecFloat.
From Stdlib Require Import QArith Qpower.
From stdpp Require Import base option list strings gmap sorting pretty.

Set Default Proof Using "Type".
Set Warnings "-register-all".
Set Warnings "-notation-overridden".
Set Warnings "-notation-incompatible-prefix".
Open Scope Z_scope.

(** ** Floating point data *)

Module np.

(** [arr.astype("float64")] on one cell. *)
Definition astype_float64 (x : spec_float) : spec_float :=
  match x with
  | S754_finite s m e => binary_round 53 1024 s m e
  | _ => x
  end.

(** [arr.astype("float32")] on one cell. *)
Definition astype_float32 (x : spec_float) : spec_float :=
  match x with
  | S754_finite s m e => binary_round 24 128 s m e
  | _ => x
  end.

Definition nan : spec_float := S754_nan.

Definition isnan (x : spec_float) : bool :=
  match x with S754_nan => true | _ => false end.

Definition isinf (x : spec_float) : bool :=
  match x with S754_infinity _ => true | _ => false end.

Definition isfinite (x : spec_float) : bool :=
  match x with
  | S754_nan | S754_infinity _ => false
  | _ => true
  end.

(** The mantissa with its sign, and the exponent, of a datum that is zero
    or finite: the datum is [signed_mantissa * 2 ^ exponent]. *)
Definition signed_mantissa (x : spec_float) : Z :=
  match x with
  | S754_finite s m _ => if s then Z.neg m else Z.pos m
  | _ => 0
  end.

Definition exponent (x : spec_float) : Z :=
  match x with
  | S754_finite _ _ e => e
  | _ => 0
  end.

(** [a >= b], the comparison of IEEE 754: it compares the two values,
    whatever format each operand is written in.  It is false as soon as one
    side is NaN; [+inf] is above and [-inf] below every other datum; [-0]
    and [+0] are equal; two data that are zero or finite are compared as
    integers, once both are written with the smaller of their exponents.
    numpy brings the operands to one format before it compares: that
    conversion is taken to be exact, as it is between binary64 operands and
    for the scalar 0.5 in every binary format. *)
Definition ge (a b : spec_float) : bool :=
  match a, b with
  | S754_nan, _ | _, S754_nan => false
  | S754_infinity false, _ | _, S754_infinity true => true
  | S754_infinity true, _ | _, S754_infinity false => false
  | _, _ =>
      let e := Z.min (exponent a) (exponent b) in
      signed_mantissa b * 2 ^ (exponent b - e)
      <=? signed_mantissa a * 2 ^ (exponent a - e)
  end.

(** Two-dimensional arrays, row-major. *)
Abbreviation ndarray := (list (list spec_float)).
Abbreviation mask := (list (list bool)).

Definition map2d {A B} (f : A → B) (a : list (list A)) : list (list B) :=
  fmap (M := list) (fmap (M := list) f) a.

(** [mask.any()] and [mask.sum()]. *)
Definition any (m : mask) : bool := existsb (existsb id) m.
Definition sum (m : mask) : nat :=
  foldr (λ row acc, (length (filter (λ b, b = true) row) + acc)%nat) 0%nat m.

(** [arr[mask] = v] for a scalar [v]. *)
Definition setmask (arr : ndarray) (m : mask) (v : spec_float) : ndarray :=
  zip_with (zip_with (λ x (b : bool), if b then v else x)) arr m.

(** [np.where(mask)]: the positions of the true entries, row by row. *)
Definition where_row (i : nat) (row : list bool) : list (nat * nat) :=
  omap id (imap (λ j (b : bool), if b then Some (i, j) else None) row).
Definition where_ (m : mask) : list (nat * nat) :=
  mjoin (imap where_row m).

(** [arr[i, j] = v] *)
Definition set2d (arr : ndarray) (ij : nat * nat) (v : spec_float) : ndarray :=
  alter (λ row, <[ij.2 := v]> row) ij.1 arr.

(** [arr[inds] = vals] for index pairs [inds] and as many values. *)
Definition setitems (arr : ndarray) (inds : list (nat * nat))
    (vals : list spec_float) : ndarray :=
  foldl (λ a '(ij, v), set2d a ij v) arr (zip inds vals).

End np.

(** ** Exceptions and results *)

Inductive exn :=
| FileNotFoundError (msg : string)
| ValueError (msg : string)
| IndexError (msg : string)
| TypeError (msg : string)
| AttributeError (msg : string)
| LoadError (path : string).

Inductive result (A : Type) :=
| Ok (a : A)
| Raise (e : exn).
Arguments Ok {A} a.
Arguments Raise {A} e.

Global Instance result_ret : MRet result := λ A a, Ok a.
Global Instance result_bind : MBind result := λ A B f r,
  match r with
  | Ok a => f a
  | Raise e => Raise e
  end.

(** [a[js]] on a one-dimensional array: raises when an index is out of
    bounds. *)
Definition fancy_index (a : list spec_float) (js : list nat)
    : result (list spec_float) :=
  match mapM (λ j, a !! j) js with
  | Some vals => Ok vals
  | None => Raise (IndexError "index is out of bounds for axis 0")
  end.

(** ** Frames *)

Record DataFrame := {
  df_index : list Z;
  df_columns : list string;
  df_values : np.ndarray
}.

(** Position of the label [c] among [labels]. *)
Definition get_loc (labels : list string) (c : string) : option nat :=
  fst <$> list_find (λ l, l = c) labels.

(** One row taken along an indexer; [None] and positions outside the row
    give the missing-value marker. *)
Definition take_row (indexer : list (option nat)) (row : list spec_float)
    : list spec_float :=
  (λ k, default np.nan (k ≫= λ k, row !! k)) <$> indexer.

(** [X.reindex(columns=columns)].  pandas returns the frame as it is when
    the labels already agree, and refuses to reindex an axis that carries
    duplicate labels. *)
Definition reindex (X : DataFrame) (columns : list string) : result DataFrame :=
  if decide (df_columns X = columns) then Ok X
  else if decide (NoDup (df_columns X)) then
    let indexer := get_loc (df_columns X) <$> columns in
    Ok {| df_index := df_index X;
          df_columns := columns;
          df_values := take_row indexer <$> df_values X |}
  else Raise (ValueError "cannot reindex on an axis with duplicate labels").

(** The value of frame [X] at row position [i] and column label [c], when
    the frame has that row and that column. *)
Definition at_ (X : DataFrame) (i : nat) (c : string) : option spec_float :=
  row ← df_values X !! i;
  k ← get_loc (df_columns X) c;
  row !! k.

(** ** Artifacts *)

(** The objects [json.load] returns. *)
Inductive json :=
| JNull
| JBool (b : bool)
| JNumber (z : Z)
| JString (s : string)
| JArray (l : list json)
| JObject (items : list (string * json)).

(** [payload.get(key, default)] *)
Definition json_get (payload : json) (key : string) (default_ : json)
    : result json :=
  match payload with
  | JObject items =>
      Ok (default default_ (snd <$> (list_find (λ kv, kv.1 = key) items ≫= λ r, Some r.2)))
  | _ => Raise (AttributeError "object has no attribute 'get'")
  end.

(** The annotation [List[str]] of [feature_names]: the payload is read as a
    list of strings, anything else is refused. *)
Definition as_str_list (j : json) : result (list string) :=
  match j with
  | JArray l =>
      match mapM (λ x, match x with JString s => Some s | _ => None end) l with
      | Some names => Ok names
      | None => Raise (TypeError "features: expected a list of str")
      end
  | _ => Raise (TypeError "features: expected a list of str")
  end.

(** The scoring object: opaque, with the one capability the service uses. *)
Record Model := {
  predict_proba : DataFrame → np.ndarray
}.

(** The sanitizer dictionary, with its two keys. *)
Record Sanitizer := {
  columns : list string;
  medians : list spec_float
}.

Record ArtifactBundle := {
  version : string;
  model : Model;
  feature_names : list string;
  metadata : json;
  sanitizer : Sanitizer
}.

(** A Python object with its identity: two loads of the same files give
    equal bundles with different identities. *)
Record object (A : Type) := {
  obj_id : nat;
  obj_val : A
}.
Arguments obj_id {A} o.
Arguments obj_val {A} o.

(** ** Paths and the file system *)

Record Path := {
  path_parent : string;
  path_name : string
}.

(** [dir / name] and [str(p)] *)
Definition joinpath (dir : string) (n : string) : Path :=
  {| path_parent := dir; path_name := n |}.
Declare Scope path_scope.
Delimit Scope path_scope with path.
Infix "/" := joinpath : path_scope.
Definition str (p : Path) : string := path_parent p +:+ "/" +:+ path_name p.

(** Paths compare part by part. *)
Definition Path_le (p q : Path) : Prop :=
  if decide (path_parent p = path_parent q)
  then (path_name p ≤ path_name q)%string
  else (path_parent p ≤ path_parent q)%string.

Global Instance Path_le_dec : RelDecision Path_le.
Proof. intros p q. unfold Path_le. destruct (decide _); apply _. Defined.

(** What a path holds: a joblib file with an estimator, a joblib file with
    the sanitizer dictionary, a JSON text file, or something neither loader
    reads (a directory, a damaged file). *)
Inductive entry :=
| ModelBlob (m : Model)
| SanitizerBlob (s : Sanitizer)
| JsonFile (j : json)
| Unreadable.

(** Disk accesses, in the order they happen. *)
Inductive io_event :=
| IOGlob (dir pattern : string)
| IOExists (path : string)
| IORead (path : string).

Record World := {
  fs : gmap string entry;
  _ARTIFACT_CACHE : option (object ArtifactBundle);
  next_id : nat;
  disk_log : list io_event;
  stdout : list string
}.

(** ** The monad of the service: state and exceptions *)

Definition M (A : Type) : Type := World → result A * World.

Global Instance M_ret : MRet M := λ A a w, (Ok a, w).
Global Instance M_bind : MBind M := λ A B f m w,
  match m w with
  | (Ok a, w') => f a w'
  | (Raise e, w') => (Raise e, w')
  end.

Definition raise {A} (e : exn) : M A := λ w, (Raise e, w).
Definition lift {A} (r : result A) : M A := λ w, (r, w).

Definition log_io (ev : io_event) (w : World) : World :=
  {| fs := fs w; _ARTIFACT_CACHE := _ARTIFACT_CACHE w; next_id := next_id w;
     disk_log := disk_log w ++ [ev]; stdout := stdout w |}.

Definition print (line : string) : M unit := λ w,
  (Ok (),
   {| fs := fs w; _ARTIFACT_CACHE := _ARTIFACT_CACHE w; next_id := next_id w;
      disk_log := disk_log w; stdout := stdout w ++ [line] |}).

Definition read_cache : M (option (object ArtifactBundle)) := λ w,
  (Ok (_ARTIFACT_CACHE w), w).

Definition write_cache (b : object ArtifactBundle) : M unit := λ w,
  (Ok (),
   {| fs := fs w; _ARTIFACT_CACHE := Some b; next_id := next_id w;
      disk_log := disk_log w; stdout := stdout w |}).

(** Construction of a new object: a fresh identity. *)
Definition new {A} (a : A) : M (object A) := λ w,
  (Ok {| obj_id := next_id w; obj_val := a |},
   {| fs := fs w; _ARTIFACT_CACHE := _ARTIFACT_CACHE w; next_id := S (next_id w);
      disk_log := disk_log w; stdout := stdout w |}).

(** [p.exists()] *)
Definition exists_ (p : Path) : M bool := λ w,
  (Ok (bool_decide (is_Some (fs w !! str p))), log_io (IOExists (str p)) w).

(** [joblib.load(p)] for the estimator and for the sanitizer, and
    [json.load(open(p))]. *)
Definition joblib_load_model (p : Path) : M Model := λ w,
  (match fs w !! str p with
   | Some (ModelBlob m) => Ok m
   | Some _ => Raise (LoadError (str p))
   | None => Raise (FileNotFoundError (str p))
   end, log_io (IORead (str p)) w).

Definition joblib_load_sanitizer (p : Path) : M Sanitizer := λ w,
  (match fs w !! str p with
   | Some (SanitizerBlob s) => Ok s
   | Some _ => Raise (LoadError (str p))
   | None => Raise (FileNotFoundError (str p))
   end, log_io (IORead (str p)) w).

Definition json_load (p : Path) : M json := λ w,
  (match fs w !! str p with
   | Some (JsonFile j) => Ok j
   | Some _ => Raise (LoadError (str p))
   | None => Raise (FileNotFoundError (str p))
   end, log_io (IORead (str p)) w).

(** ** Strings: the operations of [str] and [pathlib] the service uses *)

(** [s.rfind(c)] *)
Fixpoint rfind (c : ascii) (s : string) : option nat :=
  match s with
  | EmptyString => None
  | String d s' =>
      match rfind c s' with
      | Some i => Some (S i)
      | None => if decide (d = c) then Some 0%nat else None
      end
  end.

(** [s[:i]] and [s[i:]] *)
Definition slice_to (i : nat) (s : string) : string := String.substring 0 i s.
Definition slice_from (i : nat) (s : string) : string :=
  String.substring i (String.length s - i) s.

(** [s.startswith(prefix)] *)
Definition startswith (s prefix : string) : bool := String.prefix prefix s.

(** [repr(s)] of a string of plain characters. *)
Definition repr (s : string) : string := "'" +:+ s +:+ "'".

(** [PurePath.stem]: the final component without its last suffix. *)
Definition stem (p : Path) : string :=
  let n := path_name p in
  match rfind "." n with
  | Some i =>
      if decide (0 < i ∧ i < String.length n - 1)%nat then slice_to i n else n
  | None => n
  end.

(** [fnmatch] for patterns whose only metacharacter is [*]: a star matches
    any run of characters, every other character matches itself
    (POSIX: case matters). *)
Fixpoint fnmatch (pat : string) (s : string) : bool :=
  match pat with
  | EmptyString => bool_decide (s = EmptyString)
  | String "*" pat' =>
      (fix any_tail (s : string) : bool :=
         fnmatch pat' s ||
         match s with
         | EmptyString => false
         | String _ s' => any_tail s'
         end) s
  | String c pat' =>
      match s with
      | String d s' => bool_decide (c = d) && fnmatch pat' s'
      | EmptyString => false
      end
  end.

(** The name of the entry [p] of directory [dir], when [p] is one. *)
Definition child_name (dir : string) (p : string) : option string :=
  if String.prefix (dir +:+ "/") p then
    let n := slice_from (String.length dir + 1) p in
    if bool_decide (n ≠ EmptyString) && bool_decide (rfind "/" n = None)
    then Some n else None
  else None.

(** The names of the entries of directory [dir]. *)
Definition listdir (dir : string) (files : gmap string entry) : list string :=
  omap (child_name dir) (fst <$> map_to_list files).

(** [dir.glob(pattern)] for a pattern of one component: the entries of
    [dir] whose name matches. *)
Definition glob (dir : string) (pattern : string) : M (list Path) := λ w,
  (Ok (joinpath dir <$> filter (λ n, fnmatch pattern n = true)
                               (listdir dir (fs w))),
   log_io (IOGlob dir pattern) w).

(** [sorted(paths)] *)
Definition sorted (l : list Path) : list Path := merge_sort Path_le l.

(** ** [artifacts_config.py] *)

Section services.

(** The directory of the module, [Path(__file__).resolve().parent]. *)
Context (APP_DIR : string).

Definition ARTIFACTS_ROOT : string := str (APP_DIR / "artifacts")%path.
Definition MODELS_DIR : string := str (ARTIFACTS_ROOT / "models")%path.
Definition META_DIR : string := str (ARTIFACTS_ROOT / "meta")%path.

Definition MODEL_BASENAME : string := "cyber_ids_champion".
Definition FEATURES_BASENAME : string := "cyber_ids_features".
Definition METADATA_BASENAME : string := "cyber_ids_metadata".
Definition SANITIZER_BASENAME : string := "cyber_ids_sanitizer".

Definition MODEL_SUFFIX : string := ".joblib".
Definition META_SUFFIX : string := ".json".
Definition SANITIZER_SUFFIX : string := ".joblib".

(** 0.5 as a binary64 datum: 2^52 * 2^-53. *)
Definition DEFAULT_DECISION_THRESHOLD : spec_float :=
  S754_finite false 4503599627370496 (-53).

(** ** [services.py] *)

Definition _discover_latest_version (meta_dir : string) : M string :=
  let pattern := METADATA_BASENAME +:+ "_*" +:+ META_SUFFIX in
  paths ← glob meta_dir pattern;
  let candidates := sorted paths in
  match last candidates with
  | None =>
      raise (FileNotFoundError
               ("No metadata files found in " +:+ meta_dir +:+
                " with pattern " +:+ repr pattern +:+ "."))
  | Some latest =>
      let name := stem latest in
      let prefix := METADATA_BASENAME +:+ "_" in
      if negb (startswith name prefix) then
        raise (ValueError
                 ("Unexpected metadata filename " +:+ repr (path_name latest) +:+
                  "; expected it to start with " +:+ repr prefix +:+ "."))
      else mret (slice_from (String.length prefix) name)
  end.

(** The loop over the four paths: the first one that is missing raises. *)
Fixpoint check_exist (ps : list Path) : M unit :=
  match ps with
  | [] => mret ()
  | p :: ps =>
      found ← exists_ p;
      if negb found then
        raise (FileNotFoundError ("Expected artifact not found: " +:+ str p))
      else check_exist ps
  end.

Definition is_None {A} (o : option A) : bool :=
  match o with Some _ => false | None => true end.

(** The part of [load_artifacts] after the fast path (lines 68 to 102). *)
Definition load_from_disk (version : option string) (use_cache : bool)
    : M (object ArtifactBundle) :=
  version ← match version with
            | None => _discover_latest_version META_DIR
            | Some v => mret v
            end;
  let model_path :=
    (MODELS_DIR / (MODEL_BASENAME +:+ "_" +:+ version +:+ MODEL_SUFFIX))%path in
  let feature_list_path :=
    (META_DIR / (FEATURES_BASENAME +:+ "_" +:+ version +:+ META_SUFFIX))%path in
  let metadata_path :=
    (META_DIR / (METADATA_BASENAME +:+ "_" +:+ version +:+ META_SUFFIX))%path in
  let sanitizer_path :=
    (META_DIR / (SANITIZER_BASENAME +:+ "_" +:+ version +:+ SANITIZER_SUFFIX))%path in
  check_exist [model_path; feature_list_path; metadata_path; sanitizer_path];;
  model ← joblib_load_model model_path;
  feature_payload ← json_load feature_list_path;
  feature_names ← lift (json_get feature_payload "features" (JArray [])
                        ≫= as_str_list);
  metadata ← json_load metadata_path;
  sanitizer ← joblib_load_sanitizer sanitizer_path;
  bundle ← new {| version := version; model := model;
                  feature_names := feature_names; metadata := metadata;
                  sanitizer := sanitizer |};
  (* [version] was rebound to the resolved string above: the test
     [version is not None] of line 99 sees that string *)
  (if use_cache && negb (is_None (Some version))
   then write_cache bundle else mret ());;
  mret bundle.

Definition load_artifacts (version : option string) (use_cache : bool)
    : M (object ArtifactBundle) :=
  cached ← read_cache;
  match cached with
  | Some bundle =>
      if use_cache && is_None version then mret bundle
      else load_from_disk version use_cache
  | None => load_from_disk version use_cache
  end.

Definition apply_sanitizer (X : DataFrame) (sanitizer : Sanitizer)
    (name : string) : M DataFrame :=
  let columns := columns sanitizer in
  let medians := np.astype_float64 <$> medians sanitizer in
  X_num ← lift (reindex X columns);
  let arr := np.map2d np.astype_float64 (df_values X_num) in
  let non_finite_mask := np.map2d (λ x, negb (np.isfinite x)) arr in
  arr ← (if np.any non_finite_mask then
           print ("[WARN] " +:+ name +:+ ": found " +:+
                  pretty (np.sum non_finite_mask) +:+
                  " non-finite values; converting to NaN.");;
           mret (np.setmask arr non_finite_mask np.nan)
         else mret arr);
  let nan_mask := np.map2d np.isnan arr in
  arr ← (if np.any nan_mask then
           print ("[INFO] " +:+ name +:+ ": imputing " +:+
                  pretty (np.sum nan_mask) +:+
                  " NaNs with training medians.");;
           let inds := np.where_ nan_mask in
           vals ← lift (fancy_index medians (snd <$> inds));
           mret (np.setitems arr inds vals)
         else mret arr);
  let arr := np.map2d np.astype_float32 arr in
  mret {| df_index := df_index X; df_columns := columns; df_values := arr |}.

(** [a[:, 1]] *)
Definition column_1 (a : np.ndarray) : result (list spec_float) :=
  match mapM (λ row : list spec_float, row !! 1%nat) a with
  | Some col => Ok col
  | None => Raise (IndexError "index 1 is out of bounds for axis 1")
  end.

Definition predict_from_dataframe (df : DataFrame)
    (threshold : option spec_float)
    (artifacts : option (object ArtifactBundle))
    (name : option string)
    : M (list spec_float * list Z * object ArtifactBundle) :=
  let threshold := default DEFAULT_DECISION_THRESHOLD threshold in
  let name := default "X_request" name in
  artifacts ← match artifacts with
              | None => load_artifacts None true
              | Some a => mret a
              end;
  let feature_names := feature_names (obj_val artifacts) in
  let sanitizer := sanitizer (obj_val artifacts) in
  let model := model (obj_val artifacts) in
  df ← lift (reindex df feature_names);
  X_clean ← apply_sanitizer df sanitizer name;
  proba ← lift (column_1 (predict_proba model X_clean));
  let labels := (λ p, if np.ge p threshold then 1 else 0) <$> proba in
  mret (proba, labels, artifacts).

End services.

(** ** [schemas.py] *)

Module schemas.

(** A flow record: two integer ports and seven float64 measures. *)
Record FlowRecord := {
  src_port : Z;
  dst_port : Z;
  flow_duration : spec_float;
  tot_fwd_pkts : spec_float;
  tot_bwd_pkts : spec_float;
  tot_fwd_bytes : spec_float;
  tot_bwd_bytes : spec_float;
  flow_pkts_per_sec : spec_float;
  flow_bytes_per_sec : spec_float
}.

Record PredictRequest := {
  records : list FlowRecord
}.

Record PredictResponse := {
  probabilities : list spec_float;
  labels : list Z;
  model_version : string
}.

(** The four descriptive fields are held as the endpoint passes them to the
    response model; the validation pydantic runs on them is not modelled. *)
Record ModelInfoResponse := {
  version : string;
  target_column : json;
  benign_labels : json;
  feature_count : nat;
  train_days : json;
  test_days : json
}.

(** An integer as a datum of a frame: mantissa and exponent 0. *)
Definition of_int (z : Z) : spec_float :=
  match z with
  | Z0 => S754_zero false
  | Zpos p => S754_finite false p 0
  | Zneg p => S754_finite true p 0
  end.

(** [r.dict()]: the fields in the order of their declaration. *)
Definition dict (r : FlowRecord) : list (string * spec_float) :=
  [ ("src_port", of_int (src_port r));
    ("dst_port", of_int (dst_port r));
    ("flow_duration", flow_duration r);
    ("tot_fwd_pkts", tot_fwd_pkts r);
    ("tot_bwd_pkts", tot_bwd_pkts r);
    ("tot_fwd_bytes", tot_fwd_bytes r);
    ("tot_bwd_bytes", tot_bwd_bytes r);
    ("flow_pkts_per_sec", flow_pkts_per_sec r);
    ("flow_bytes_per_sec", flow_bytes_per_sec r) ].

End schemas.

(** ** [api.py] *)

(** [d.get(k)] on a record's dictionary. *)
Definition dict_get (d : list (string * spec_float)) (k : string)
    : option spec_float :=
  snd <$> (list_find (λ kv, kv.1 = k) d ≫= λ r, Some r.2).

(** The keys of the dictionaries, each once, in the order in which they
    first appear. *)
Definition keys_union (records : list (list (string * spec_float)))
    : list string :=
  foldl (λ cols d, cols ++ filter (λ k, k ∉ cols) (d.*1)) [] records.

(** [pd.DataFrame.from_records(records)] on a list of dictionaries: one row
    per dictionary under a range index, one column per key, the
    missing-value marker where a dictionary lacks a key. *)
Definition DataFrame_from_records (records : list (list (string * spec_float)))
    : DataFrame :=
  let cols := keys_union records in
  {| df_index := Z.of_nat <$> seq 0 (length records);
     df_columns := cols;
     df_values := (λ d, (λ c, default np.nan (dict_get d c)) <$> cols)
                    <$> records |}.

Section api.
Context (APP_DIR : string).

Definition predict (payload : schemas.PredictRequest)
    : M schemas.PredictResponse :=
  let records := schemas.dict <$> schemas.records payload in
  let df := DataFrame_from_records records in
  '(proba, labels, artifacts) ←
    predict_from_dataframe APP_DIR df None None (Some "X_api_request");
  mret {| schemas.probabilities := proba;
          schemas.labels := labels;
          schemas.model_version := version (obj_val artifacts) |}.

Definition model_info : M schemas.ModelInfoResponse :=
  artifacts ← load_artifacts APP_DIR None true;
  let meta := metadata (obj_val artifacts) in
  target_column ← lift (json_get meta "target_column" (JString "Label"));
  benign_labels ← lift (json_get meta "benign_labels" (JArray [JString "Benign"]));
  train_days ← lift (json_get meta "train_days" (JArray []));
  test_days ← lift (json_get meta "test_days" (JArray []));
  mret {| schemas.version := version (obj_val artifacts);
          schemas.target_column := target_column;
          schemas.benign_labels := benign_labels;
          schemas.feature_count := length (feature_names (obj_val artifacts));
          schemas.train_days := train_days;
          schemas.test_days := test_days |}.

End api.

(** ** Vocabulary of the statements *)

(** The cell at row [i], column [j]. *)
Definition cell {A} (a : list (list A)) (i j : nat) : option A :=
  a !! i ≫= λ row, row !! j.

(** What lines 117 to 120 leave in a cell: a datum that is not finite
    becomes the missing-value marker. *)
Definition to_nan (x : spec_float) : spec_float :=
  if negb (np.isfinite x) then np.nan else x.

(** A frame as pandas builds it: distinct column labels, one row per index
    entry, one cell per column in every row. *)
Record wf_frame (X : DataFrame) : Prop := {
  wf_labels : NoDup (df_columns X);
  wf_rows : length (df_values X) = length (df_index X);
  wf_width : Forall (λ row, length row = length (df_columns X)) (df_values X)
}.

(** The cell the sanitizer produces for the datum [x] found in column
    position [j]: the datum as float64 when that is finite, else the median
    of the column, and the float32 of it. *)
Definition sanitized_cell (s : Sanitizer) (j : nat) (x : spec_float)
    : spec_float :=
  let y := np.astype_float64 x in
  np.astype_float32
    (if np.isfinite y then y
     else default np.nan (np.astype_float64 <$> medians s !! j)).

(** A clean frame for a sanitizer: exactly the sanitizer's columns in their
    order, and no cell that is a NaN or an infinity as float64. *)
Definition clean (s : Sanitizer) (X : DataFrame) : Prop :=
  df_columns X = columns s ∧
  ∀ i j x, cell (df_values X) i j = Some x →
           np.isfinite (np.astype_float64 x) = true.

(** No cell leaves the range of float32 when cast. *)
Definition within_float32 (X : DataFrame) : Prop :=
  ∀ i j x, cell (df_values X) i j = Some x →
           np.isfinite (np.astype_float32 (np.astype_float64 x)) = true.

(** The sanitizer applied to its own output. *)
Definition sanitize_twice (X : DataFrame) (s : Sanitizer) (name : string)
    : M DataFrame :=
  T ← apply_sanitizer X s name;
  apply_sanitizer T s name.

(** Two worlds that differ by what was printed at most. *)
Definition printed_only (w w' : World) : Prop :=
  fs w' = fs w ∧ _ARTIFACT_CACHE w' = _ARTIFACT_CACHE w ∧
  next_id w' = next_id w ∧ disk_log w' = disk_log w.

(** The name of the metadata file of version [v]. *)
Definition metadata_name (v : string) : string :=
  METADATA_BASENAME +:+ "_" +:+ v +:+ META_SUFFIX.

(** The names of a directory that the discovery pattern matches. *)
Definition metadata_names (dir : string) (w : World) : list string :=
  filter (λ n, fnmatch (METADATA_BASENAME +:+ "_*" +:+ META_SUFFIX) n = true)
         (listdir dir (fs w)).

(** The four artifact files of version [v] (lines 71 to 74), in the order
    in which their existence is checked. *)
Definition artifact_paths (APP_DIR : string) (v : string) : list Path :=
  [ (MODELS_DIR APP_DIR / (MODEL_BASENAME +:+ "_" +:+ v +:+ MODEL_SUFFIX))%path;
    (META_DIR APP_DIR / (FEATURES_BASENAME +:+ "_" +:+ v +:+ META_SUFFIX))%path;
    (META_DIR APP_DIR / (METADATA_BASENAME +:+ "_" +:+ v +:+ META_SUFFIX))%path;
    (META_DIR APP_DIR / (SANITIZER_BASENAME +:+ "_" +:+ v +:+ SANITIZER_SUFFIX))%path ].

(** The version a call of [load_artifacts] resolves (lines 68 and 69). *)
Definition resolve_version (APP_DIR : string) (version : option string)
    : M string :=
  match version with
  | None => _discover_latest_version (META_DIR APP_DIR)
  | Some v => mret v
  end.

(** A call of [load_artifacts] is served from the cache (line 65). *)
Definition served_from_cache (version : option string) (use_cache : bool)
    (w : World) : bool :=
  use_cache && bool_decide (is_Some (_ARTIFACT_CACHE w)) && is_None version.

(** Two worlds that differ by the trace of disk accesses at most. *)
Definition disk_log_only (w w' : World) : Prop :=
  fs w' = fs w ∧ _ARTIFACT_CACHE w' = _ARTIFACT_CACHE w ∧
  next_id w' = next_id w ∧ stdout w' = stdout w.

(** Two worlds with the same files and the same cache. *)
Definition same_cache (w w' : World) : Prop :=
  fs w' = fs w ∧ _ARTIFACT_CACHE w' = _ARTIFACT_CACHE w.

(** The rational number a datum stands for, when it is zero or finite. *)
Definition Qvalue (x : spec_float) : option Q :=
  match x with
  | S754_zero _ => Some 0%Q
  | S754_finite s m e =>
      Some (inject_Z (if s then Z.neg m else Z.pos m) * 2 ^ e)%Q
  | _ => None
  end.

(** [a] is greater than or equal to [b] as numbers: never with a NaN; by
    the order of the rationals between data that are zero or finite;
    [+inf] is above and [-inf] below everything that is not a NaN. *)
Definition num_ge (a b : spec_float) : Prop :=
  match a, b with
  | S754_nan, _ | _, S754_nan => False
  | S754_infinity false, _ | _, S754_infinity true => True
  | S754_infinity true, _ | _, S754_infinity false => False
  | _, _ =>
      match Qvalue a, Qvalue b with
      | Some x, Some y => (y <= x)%Q
      | _, _ => False
      end
  end.

(** The datum [p] is a number that is at least the rational [q]. *)
Definition at_least (q : Q) (p : spec_float) : Prop :=
  p = S754_infinity false ∨ ∃ x, Qvalue p = Some x ∧ (q <= x)%Q.

(** The events [evs] appended to the trace of disk accesses. *)
Definition log_all (evs : list io_event) (w : World) : World :=
  foldl (λ w ev, log_io ev w) w evs.

(** The number of cells of an array that are not finite as float64. *)
Definition count_non_finite (a : np.ndarray) : nat :=
  np.sum (np.map2d (λ x, negb (np.isfinite (np.astype_float64 x))) a).

(** The two lines [apply_sanitizer] prints when [n] cells need a repair. *)
Definition diagnostics (name : string) (n : nat) : list string :=
  if decide (n = 0%nat) then []
  else [ "[WARN] " +:+ name +:+ ": found " +:+ pretty n +:+
         " non-finite values; converting to NaN.";
         "[INFO] " +:+ name +:+ ": imputing " +:+ pretty n +:+
         " NaNs with training medians." ].

(** Every cell that needs a repair sits in a column that has a median. *)
Definition repairs_in_range (s : Sanitizer) (a : np.ndarray) : Prop :=
  ∀ i j x, cell a i j = Some x →
           np.isfinite (np.astype_float64 x) = false →
           (j < length (medians s))%nat.

(** The four artifact paths of version [v], one by one. *)
Definition model_path (APP_DIR v : string) : Path :=
  (MODELS_DIR APP_DIR / (MODEL_BASENAME +:+ "_" +:+ v +:+ MODEL_SUFFIX))%path.
Definition feature_list_path (APP_DIR v : string) : Path :=
  (META_DIR APP_DIR / (FEATURES_BASENAME +:+ "_" +:+ v +:+ META_SUFFIX))%path.
Definition metadata_path (APP_DIR v : string) : Path :=
  (META_DIR APP_DIR / (METADATA_BASENAME +:+ "_" +:+ v +:+ META_SUFFIX))%path.
Definition sanitizer_path (APP_DIR v : string) : Path :=
  (META_DIR APP_DIR / (SANITIZER_BASENAME +:+ "_" +:+ v +:+ SANITIZER_SUFFIX))%path.

(** The process after a load of version [v] from disk that returned the
    bundle [b]: the four existence checks and then the four reads are on
    the trace, an identity is used up, and the cache holds [b] when
    [use_cache] is set. *)
Definition after_load (APP_DIR v : string) (use_cache : bool)
    (b : object ArtifactBundle) (w : World) : World :=
  {| fs := fs w;
     _ARTIFACT_CACHE := if use_cache then Some b else _ARTIFACT_CACHE w;
     next_id := S (next_id w);
     disk_log := disk_log w ++
                 (IOExists ∘ str <$> artifact_paths APP_DIR v) ++
                 (IORead ∘ str <$> artifact_paths APP_DIR v);
     stdout := stdout w |}.

(** The feature names a feature payload gives (line 84). *)
Definition features_of (payload : json) : result (list string) :=
  json_get payload "features" (JArray []) ≫= as_str_list.

(** The names of the nine fields of a flow record. *)
Definition FlowRecord_fields : list string :=
  [ "src_port"; "dst_port"; "flow_duration"; "tot_fwd_pkts"; "tot_bwd_pkts";
    "tot_fwd_bytes"; "tot_bwd_bytes"; "flow_pkts_per_sec"; "flow_bytes_per_sec" ].

(** ** Concrete data *)

Module example.

Definition APP_DIR : string := "/srv/app/cyber_ids".

(** The integer [z] as a float64. *)
Definition int (z : Z) : spec_float := binary_normalize 53 1024 z 0 false.

(** The sanitizer and the row of the specification: columns [a] and [b]
    with medians 1.0 and 2.0, and the row [a = NaN, b = 5.0]. *)
Definition ab_spec : Sanitizer :=
  {| columns := ["a"; "b"]; medians := [int 1; int 2] |}.
Definition ab_frame : DataFrame :=
  {| df_index := [0]; df_columns := ["a"; "b"];
     df_values := [[S754_nan; int 5]] |}.

(** A clean frame of two port columns. *)
Definition clean_frame : DataFrame :=
  {| df_index := [0]; df_columns := ["src_port"; "dst_port"];
     df_values := [[int 80; int 443]] |}.

(** A one-column sanitizer with median 0, and a clean frame holding 2^128:
    a finite float64 above the range of float32. *)
Definition a_spec : Sanitizer := {| columns := ["a"]; medians := [int 0] |}.
Definition huge_frame : DataFrame :=
  {| df_index := [0]; df_columns := ["a"];
     df_values := [[S754_finite false 4503599627370496 76]] |}.

(** A scorer that looks at the second feature only: its probability of
    class 1 is 0 for a zero, 0.5 for a positive datum below 1, and 1
    otherwise. *)
Definition scorer : Model :=
  {| predict_proba := λ X,
       (λ row : list spec_float,
          match row !! 1%nat with
          | Some (S754_zero _) => [int 1; int 0]
          | Some (S754_finite false _ e) =>
              if e <=? -24
              then [DEFAULT_DECISION_THRESHOLD; DEFAULT_DECISION_THRESHOLD]
              else [int 0; int 1]
          | _ => [int 0; int 1]
          end) <$> df_values X |}.

Definition ports_spec : Sanitizer :=
  {| columns := ["src_port"; "dst_port"];
     medians := [int 0; DEFAULT_DECISION_THRESHOLD] |}.

Definition bundle (v : string) : ArtifactBundle :=
  {| version := v; model := scorer;
     feature_names := ["src_port"; "dst_port"];
     metadata := JObject [("target_column", JString "Label")];
     sanitizer := ports_spec |}.

(** A bundle whose feature list lacks a column of its sanitizer. *)
Definition narrow_bundle : object ArtifactBundle :=
  {| obj_id := 7;
     obj_val := {| version := "20240601-1200"; model := scorer;
                   feature_names := ["src_port"];
                   metadata := JNull;
                   sanitizer := ports_spec |} |}.

(** The four files of version [v]. *)
Definition artifact_files (v : string) : list (string * entry) :=
  zip (str <$> artifact_paths APP_DIR v)
    [ ModelBlob scorer;
      JsonFile (JObject [("features",
                          JArray [JString "src_port"; JString "dst_port"])]);
      JsonFile (JObject [("target_column", JString "Label")]);
      SanitizerBlob ports_spec ].

Definition files : gmap string entry :=
  list_to_map (artifact_files "20240101-0000" ++ artifact_files "20240601-1200").

(** A process with no file at all. *)
Definition idle : World :=
  {| fs := ∅; _ARTIFACT_CACHE := None; next_id := 0;
     disk_log := []; stdout := [] |}.

(** A fresh process over these files, and the process after its first
    [load_artifacts()]. *)
Definition world0 : World :=
  {| fs := files; _ARTIFACT_CACHE := None; next_id := 0;
     disk_log := []; stdout := [] |}.

Definition latest : object ArtifactBundle :=
  {| obj_id := 0; obj_val := bundle "20240601-1200" |}.

Definition world1 : World :=
  {| fs := files; _ARTIFACT_CACHE := Some latest; next_id := 1;
     disk_log :=
       IOGlob (META_DIR APP_DIR) "cyber_ids_metadata_*.json"
       :: (IOExists <$> (str <$> artifact_paths APP_DIR "20240601-1200"))
       ++ (IORead <$> (str <$> artifact_paths APP_DIR "20240601-1200"));
     stdout := [] |}.

(** The same files without the sanitizer of the older version. *)
Definition world_incomplete : World :=
  {| fs := delete (META_DIR APP_DIR +:+ "/cyber_ids_sanitizer_20240101-0000.joblib")
                  files;
     _ARTIFACT_CACHE := Some latest; next_id := 1;
     disk_log := []; stdout := [] |}.

(** Three flow records: the first lacks its destination port. *)
Definition request : DataFrame :=
  {| df_index := [0; 1; 2]; df_columns := ["src_port"; "dst_port"];
     df_values := [[int 80; S754_nan]; [int 443; int 1]; [int 22; int 0]] |}.

(** What scoring the request prints. *)
Definition printed (w : World) : World :=
  {| fs := fs w; _ARTIFACT_CACHE := _ARTIFACT_CACHE w; next_id := next_id w;
     disk_log := disk_log w;
     stdout := stdout w ++
       ["[WARN] X_request: found 1 non-finite values; converting to NaN.";
        "[INFO] X_request: imputing 1 NaNs with training medians."] |}.

(** A process without files whose cache holds the latest bundle, and one
    whose cache holds the bundle with metadata that is not an object. *)
Definition warm : World :=
  {| fs := ∅; _ARTIFACT_CACHE := Some latest; next_id := 1;
     disk_log := []; stdout := [] |}.
Definition warm_narrow : World :=
  {| fs := ∅; _ARTIFACT_CACHE := Some narrow_bundle; next_id := 8;
     disk_log := []; stdout := [] |}.

(** One flow record, and the request that carries it. *)
Definition flow : schemas.FlowRecord :=
  {| schemas.src_port := 51000; schemas.dst_port := 443;
     schemas.flow_duration := int 2;
     schemas.tot_fwd_pkts := int 10; schemas.tot_bwd_pkts := int 8;
     schemas.tot_fwd_bytes := int 1200; schemas.tot_bwd_bytes := int 900;
     schemas.flow_pkts_per_sec := int 9;
     schemas.flow_bytes_per_sec := S754_infinity false |}.
Definition api_request : schemas.PredictRequest :=
  {| schemas.records := [flow] |}.

(** The files with a feature file that lacks the key [features], and with
    a feature file that holds a list. *)
Definition world_no_key : World :=
  {| fs := <[str (feature_list_path APP_DIR "20240601-1200")
             := JsonFile (JObject [("n_features", JNumber 2)])]> files;
     _ARTIFACT_CACHE := None; next_id := 0; disk_log := []; stdout := [] |}.
Definition world_list_payload : World :=
  {| fs := <[str (feature_list_path APP_DIR "20240601-1200")
             := JsonFile (JArray [JString "src_port"; JString "dst_port"])]>
           files;
     _ARTIFACT_CACHE := None; next_id := 0; disk_log := []; stdout := [] |}.

(** A sanitizer with a column more than it has medians. *)
Definition short_spec : Sanitizer :=
  {| columns := ["a"; "b"]; medians := [int 1] |}.

(** A frame without rows. *)
Definition no_rows : DataFrame :=
  {| df_index := []; df_columns := []; df_values := [] |}.


End example.

(** * Properties *)

(** ** Arrays *)

Lemma cell_map2d {A B} (f : A → B) (a : list (list A)) i j :
  cell (np.map2d f a) i j = f <$> cell a i j.
Proof.
  unfold cell, np.map2d. rewrite list_lookup_fmap. destruct (a !! i) as [row|]; simpl; [|done].
  apply list_lookup_fmap.
Qed.

Lemma length_map2d {A B} (f : A → B) (a : list (list A)) :
  length (np.map2d f a) = length a.
Proof. unfold np.map2d. apply length_fmap. Qed.

Lemma length_setitems (a : np.ndarray) inds vals :
  length (np.setitems a inds vals) = length a.
Proof.
  unfold np.setitems. generalize (zip inds vals). intros l. revert a.
  induction l as [|[ij v] l IH]; intros a; simpl; [done|].
  rewrite IH. unfold np.set2d. apply length_alter.
Qed.

Lemma ndarray_eq {A} (a b : list (list A)) :
  length a = length b →
  (∀ i j, cell a i j = cell b i j) →
  a = b.
Proof.
  intros Hlen Hcell. apply list_eq. intros i.
  destruct (a !! i) as [ra|] eqn:Ha, (b !! i) as [rb|] eqn:Hb.
  - f_equal. apply list_eq. intros j. specialize (Hcell i j).
    unfold cell in Hcell. by rewrite Ha, Hb in Hcell.
  - apply lookup_lt_Some in Ha. apply lookup_ge_None in Hb. lia.
  - apply lookup_lt_Some in Hb. apply lookup_ge_None in Ha. lia.
  - done.
Qed.

Lemma map2d_ext_in {A B} (f g : A → B) (a : list (list A)) :
  (∀ i j x, cell a i j = Some x → f x = g x) →
  np.map2d f a = np.map2d g a.
Proof.
  intros H. apply ndarray_eq.
  - unfold np.map2d. by rewrite !length_fmap.
  - intros i j. rewrite !cell_map2d.
    destruct (cell a i j) as [x|] eqn:Hx; simpl; [|done].
    f_equal. eauto.
Qed.

Lemma map2d_id_in {A} (f : A → A) (a : list (list A)) :
  (∀ i j x, cell a i j = Some x → f x = x) →
  np.map2d f a = a.
Proof.
  intros H. apply ndarray_eq.
  - unfold np.map2d. by rewrite length_fmap.
  - intros i j. rewrite cell_map2d.
    destruct (cell a i j) as [x|] eqn:Hx; simpl; [|done].
    f_equal. eauto.
Qed.

Lemma map2d_map2d {A B C} (f : A → B) (g : B → C) (a : list (list A)) :
  np.map2d g (np.map2d f a) = np.map2d (λ x, g (f x)) a.
Proof.
  unfold np.map2d. rewrite <- list_fmap_compose. apply list_fmap_ext.
  intros _ row _. simpl. by rewrite <- list_fmap_compose.
Qed.

Lemma any_false {A} (p : A → bool) (a : list (list A)) :
  np.any (np.map2d p a) = false ↔ ∀ i j x, cell a i j = Some x → p x = false.
Proof.
  unfold np.any, np.map2d. split.
  - intros Hany i j x Hx. unfold cell in Hx.
    destruct (a !! i) as [row|] eqn:Hrow; simplify_eq/=.
    destruct (p x) eqn:Hp; [|done].
    rewrite <- Hany. symmetry. apply existsb_exists.
    exists (p <$> row). split.
    + apply list_elem_of_In, list_elem_of_fmap_2.
      eauto using list_elem_of_lookup_2.
    + apply existsb_exists. exists true. split; [|done].
      rewrite <- Hp. apply list_elem_of_In, list_elem_of_fmap_2.
      eauto using list_elem_of_lookup_2.
  - intros H. apply not_true_is_false. intros Hany.
    apply existsb_exists in Hany as (brow & Hin & Hex).
    apply list_elem_of_In, list_elem_of_fmap in Hin as (row & -> & Hin).
    apply existsb_exists in Hex as (b & Hb & Hid).
    apply list_elem_of_In, list_elem_of_fmap in Hb as (x & -> & Hx).
    apply list_elem_of_lookup_1 in Hin as [i Hi].
    apply list_elem_of_lookup_1 in Hx as [j Hj].
    specialize (H i j x). unfold cell in H. rewrite Hi in H. simpl in H.
    specialize (H Hj). unfold id in Hid. congruence.
Qed.

Lemma setmask_map2d (p : spec_float → bool) (a : np.ndarray) v :
  np.setmask a (np.map2d p a) v = np.map2d (λ x, if p x then v else x) a.
Proof.
  unfold np.setmask, np.map2d. induction a as [|row a IH]; simpl; [done|].
  f_equal; [|exact IH]. clear. induction row as [|x row IH]; simpl; [done|].
  by f_equal.
Qed.

Lemma elem_of_where_row i (row : list bool) ij :
  ij ∈ np.where_row i row ↔ ij.1 = i ∧ row !! ij.2 = Some true.
Proof.
  unfold np.where_row. rewrite list_elem_of_omap. split.
  - intros (o & Ho & Hid). unfold id in Hid. subst o.
    apply elem_of_lookup_imap_1 in Ho as (j & b & Hb & Hj).
    destruct b; simplify_eq/=. done.
  - intros [<- Hj]. exists (Some ij). split; [|done].
    destruct ij as [i j]. simpl in *.
    apply (elem_of_lookup_imap_2 (λ j (b : bool), if b then Some (i, j) else None)
             row true j Hj).
Qed.

Lemma elem_of_where (m : np.mask) i j :
  (i, j) ∈ np.where_ m ↔ cell m i j = Some true.
Proof.
  unfold np.where_, cell. rewrite list_elem_of_join. split.
  - intros (l & Hij & Hl).
    apply elem_of_lookup_imap_1 in Hl as (i' & row & -> & Hrow).
    apply elem_of_where_row in Hij as [<- Hj]. simpl in *.
    by rewrite Hrow.
  - intros H. destruct (m !! i) as [row|] eqn:Hrow; simplify_eq/=.
    exists (np.where_row i row). split.
    + apply elem_of_where_row. by split.
    + by apply (elem_of_lookup_imap_2 np.where_row m row i).
Qed.

Lemma cell_set2d (a : np.ndarray) ij v i j :
  cell (np.set2d a ij v) i j =
  if decide (ij = (i, j)) then (λ _, v) <$> cell a i j else cell a i j.
Proof.
  destruct ij as [i0 j0]. unfold np.set2d, cell. simpl.
  destruct (decide (i0 = i)) as [->|Hi].
  - rewrite list_lookup_alter_eq. destruct (a !! i) as [row|]; simpl.
    + destruct (decide (j0 = j)) as [->|Hj].
      * rewrite decide_True by done.
        destruct (row !! j) eqn:Hj; simpl.
        -- apply list_lookup_insert_eq. by eapply lookup_lt_Some.
        -- rewrite list_insert_ge; [done|]. by apply lookup_ge_None.
      * rewrite decide_False by congruence.
        by apply list_lookup_insert_ne.
    + by destruct (decide _).
  - rewrite list_lookup_alter_ne by done.
    rewrite decide_False by congruence. done.
Qed.

Lemma cell_setitems (meds : list spec_float) (inds : list (nat * nat)) vals (a : np.ndarray) i j :
  Forall2 (λ (ij : nat * nat) v, meds !! ij.2 = Some v) inds vals →
  cell (np.setitems a inds vals) i j =
  (λ x, if decide ((i, j) ∈ inds) then default np.nan (meds !! j) else x)
    <$> cell a i j.
Proof.
  unfold np.setitems. intros H. revert a.
  induction H as [|ij v inds vals Hv _ IH]; intros a; simpl.
  - by destruct (cell a i j).
  - rewrite IH, cell_set2d. destruct (decide (ij = (i, j))) as [->|Hne].
    + simpl in Hv. rewrite Hv. simpl.
      destruct (cell a i j); simpl; [|done]. f_equal.
      rewrite (decide_True (P := (i, j) ∈ (i, j) :: inds)) by apply list_elem_of_here.
      by destruct (decide _).
    + destruct (cell a i j); simpl; [|done]. f_equal.
      destruct (decide ((i, j) ∈ inds)).
      * rewrite decide_True; [done|]. by apply list_elem_of_further.
      * rewrite decide_False; [done|].
        intros [?|?]%elem_of_cons; congruence.
Qed.

Lemma fancy_index_Ok (meds : list spec_float) (inds : list (nat * nat)) vals :
  fancy_index meds (inds.*2) = Ok vals →
  Forall2 (λ (ij : nat * nat) v, meds !! ij.2 = Some v) inds vals.
Proof.
  unfold fancy_index. destruct (mapM _ _) as [vals'|] eqn:HM; [|done].
  intros [= <-]. apply mapM_Some_1 in HM.
  by apply Forall2_fmap_l in HM.
Qed.

Lemma fancy_index_total (meds : list spec_float) (js : list nat) :
  Forall (λ j, j < length meds)%nat js → ∃ vals, fancy_index meds js = Ok vals.
Proof.
  intros H. unfold fancy_index.
  assert (is_Some (mapM (λ j, meds !! j) js)) as [vals ->]; [|eauto].
  apply mapM_is_Some. eapply Forall_impl; [exact H|].
  intros j Hj. by apply lookup_lt_is_Some_2.
Qed.

(** The imputation of lines 122 to 126, cell by cell. *)
Lemma cell_impute (meds : list spec_float) (a : np.ndarray) vals i j :
  fancy_index meds ((np.where_ (np.map2d np.isnan a)).*2) = Ok vals →
  cell (np.setitems a (np.where_ (np.map2d np.isnan a)) vals) i j =
  (λ x, if np.isnan x then default np.nan (meds !! j) else x) <$> cell a i j.
Proof.
  intros H%fancy_index_Ok. rewrite (cell_setitems meds) by done.
  destruct (cell a i j) as [x|] eqn:Hx; simpl; [|done]. f_equal.
  destruct (decide _) as [Hin|Hin]; rewrite elem_of_where, cell_map2d, Hx in Hin;
    simpl in Hin.
  - by simplify_eq/=; rewrite Hin.
  - destruct (np.isnan x); [done|done].
Qed.

Lemma impute_in_range (meds : list spec_float) (a : np.ndarray) vals i j x :
  fancy_index meds ((np.where_ (np.map2d np.isnan a)).*2) = Ok vals →
  cell a i j = Some x → np.isnan x = true → is_Some (meds !! j).
Proof.
  intros H%fancy_index_Ok Hx Hnan.
  assert ((i, j) ∈ np.where_ (np.map2d np.isnan a)) as Hin.
  { rewrite elem_of_where, cell_map2d, Hx. simpl. by rewrite Hnan. }
  apply list_elem_of_lookup_1 in Hin as [k Hk].
  destruct (Forall2_lookup_l _ _ _ _ _ H Hk) as (v & _ & Hv). eauto.
Qed.

(** ** Casts never create a NaN *)

Section rounding.
Context (prec emax : Z).

Lemma iter_pos_ind {A} (P : A → Prop) (f : A → A) :
  (∀ x, P x → P (f x)) → ∀ n x, P x → P (SpecFloat.iter_pos f n x).
Proof.
  intros Hf n. induction n as [n IH|n IH|]; intros x Hx; simpl; auto.
Qed.

Lemma shr_1_nonneg mrs : 0 ≤ shr_m mrs → 0 ≤ shr_m (shr_1 mrs).
Proof.
  destruct mrs as [m r s]. simpl.
  destruct m as [|[p|p|]|[p|p|]]; simpl; lia.
Qed.

Lemma shr_nonneg mrs e n : 0 ≤ shr_m mrs → 0 ≤ shr_m (shr mrs e n).1.
Proof.
  intros H. unfold shr. destruct n; simpl; [done| |done].
  by apply iter_pos_ind; [apply shr_1_nonneg|].
Qed.

Lemma shr_fexp_nonneg m e l : 0 ≤ m → 0 ≤ shr_m (shr_fexp prec emax m e l).1.
Proof.
  intros H. unfold shr_fexp. apply shr_nonneg.
  by destruct l as [|[]].
Qed.

Lemma round_nearest_even_nonneg m l : 0 ≤ m → 0 ≤ round_nearest_even m l.
Proof.
  intros H. unfold round_nearest_even.
  destruct l as [|[]]; [done| |done|lia]. destruct (Z.even m); lia.
Qed.

Lemma binary_round_aux_not_nan s m e l :
  0 ≤ m → binary_round_aux prec emax s m e l ≠ S754_nan.
Proof.
  intros H. unfold binary_round_aux.
  pose proof (shr_fexp_nonneg m e l H) as H1.
  destruct (shr_fexp prec emax m e l) as [mrs' e']. simpl in H1.
  pose proof (shr_fexp_nonneg _ e' loc_Exact
                (round_nearest_even_nonneg _ (loc_of_shr_record mrs') H1)) as H2.
  destruct (shr_fexp prec emax _ e' loc_Exact) as [mrs'' e'']. simpl in H2.
  destruct (shr_m mrs''); [done| |lia].
  by destruct (e'' <=? emax - prec).
Qed.

Lemma binary_round_not_nan s m e : binary_round prec emax s m e ≠ S754_nan.
Proof.
  unfold binary_round. destruct (shl_align _ _ _) as [mz ez].
  by apply binary_round_aux_not_nan.
Qed.

End rounding.

Lemma isnan_astype_float32 x : np.isnan (np.astype_float32 x) = np.isnan x.
Proof.
  destruct x as [| | |s m e]; simpl; try done.
  pose proof (binary_round_not_nan 24 128 s m e).
  by destruct (binary_round 24 128 s m e).
Qed.

Lemma isnan_astype_float64 x : np.isnan (np.astype_float64 x) = np.isnan x.
Proof.
  destruct x as [| | |s m e]; simpl; try done.
  pose proof (binary_round_not_nan 53 1024 s m e).
  by destruct (binary_round 53 1024 s m e).
Qed.

Lemma isnan_not_finite x : np.isnan x = true → np.isfinite x = false.
Proof. by destruct x. Qed.

Lemma isnan_to_nan x : np.isnan (to_nan x) = negb (np.isfinite x).
Proof. by destruct x. Qed.

(** ** Digits and shifts *)

Lemma digits2_pos_bounds p :
  2 ^ (Zpos (digits2_pos p) - 1) ≤ Zpos p < 2 ^ Zpos (digits2_pos p).
Proof.
  induction p as [p IH|p IH|]; simpl digits2_pos; [| |by compute].
  - rewrite Pos2Z.inj_succ, Pos2Z.inj_xI.
    replace (Z.succ (Zpos (digits2_pos p)) - 1)
      with (Z.succ (Zpos (digits2_pos p) - 1)) by lia.
    rewrite !Z.pow_succ_r by lia.
    revert IH. generalize (2 ^ (Zpos (digits2_pos p) - 1)),
      (2 ^ Zpos (digits2_pos p)). lia.
  - rewrite Pos2Z.inj_succ. change (Z.pos p~0) with (2 * Z.pos p).
    replace (Z.succ (Zpos (digits2_pos p)) - 1)
      with (Z.succ (Zpos (digits2_pos p) - 1)) by lia.
    rewrite !Z.pow_succ_r by lia.
    revert IH. generalize (2 ^ (Zpos (digits2_pos p) - 1)),
      (2 ^ Zpos (digits2_pos p)). lia.
Qed.

Lemma Zdigits2_bounds m :
  0 < m → 0 < Zdigits2 m ∧ 2 ^ (Zdigits2 m - 1) ≤ m < 2 ^ Zdigits2 m.
Proof.
  destruct m as [|p|p]; [lia| |lia]. intros _. simpl.
  split; [lia|apply digits2_pos_bounds].
Qed.

Lemma Zdigits2_unique m d :
  0 < m → 2 ^ (d - 1) ≤ m < 2 ^ d → Zdigits2 m = d.
Proof.
  intros Hm [Hlo Hhi].
  destruct (Zdigits2_bounds m Hm) as (Hd & Hlo' & Hhi').
  assert (0 < d) as Hd0.
  { destruct (Z.lt_trichotomy d 0) as [H|[->|H]]; [|simpl in Hhi; lia|done].
    rewrite Z.pow_neg_r in Hhi by done. lia. }
  destruct (Z.lt_trichotomy (Zdigits2 m) d) as [H|[H|H]]; [|done|].
  - assert (2 ^ Zdigits2 m ≤ 2 ^ (d - 1)) by (apply Z.pow_le_mono_r; lia). lia.
  - assert (2 ^ d ≤ 2 ^ (Zdigits2 m - 1)) by (apply Z.pow_le_mono_r; lia). lia.
Qed.

Lemma Zdigits2_div m n :
  0 < m → 0 ≤ n < Zdigits2 m → Zdigits2 (m / 2 ^ n) = Zdigits2 m - n.
Proof.
  intros Hm Hn. destruct (Zdigits2_bounds m Hm) as (Hd & Hlo & Hhi).
  assert (0 < 2 ^ n) as Hpow by (apply Z.pow_pos_nonneg; lia).
  assert (2 ^ (Zdigits2 m - n - 1) ≤ m / 2 ^ n) as Hlo'.
  { apply Z.div_le_lower_bound; [done|].
    rewrite <- Z.pow_add_r by lia.
    by replace (n + (Zdigits2 m - n - 1)) with (Zdigits2 m - 1) by lia. }
  assert (m / 2 ^ n < 2 ^ (Zdigits2 m - n)) as Hhi'.
  { apply Z.div_lt_upper_bound; [done|].
    rewrite <- Z.pow_add_r by lia.
    by replace (n + (Zdigits2 m - n)) with (Zdigits2 m) by lia. }
  apply Zdigits2_unique; [|done].
  assert (0 < 2 ^ (Zdigits2 m - n - 1)) by (apply Z.pow_pos_nonneg; lia). lia.
Qed.

Lemma Zdigits2_div_small m n : 0 ≤ m → Zdigits2 m ≤ n → m / 2 ^ n = 0.
Proof.
  intros Hm Hn. destruct (decide (m = 0)) as [->|Hne].
  - apply Z.div_0_l. apply Z.pow_nonzero; [lia|]. simpl in Hn. lia.
  - destruct (Zdigits2_bounds m) as (Hd & _ & Hhi); [lia|].
    apply Z.div_small. split; [done|].
    assert (2 ^ Zdigits2 m ≤ 2 ^ n) by (apply Z.pow_le_mono_r; lia). lia.
Qed.

Lemma Zdigits2_succ m :
  0 ≤ m → Zdigits2 m ≤ Zdigits2 (m + 1) ≤ Zdigits2 m + 1.
Proof.
  intros Hm. destruct (decide (m = 0)) as [->|Hne]; [by compute|].
  destruct (Zdigits2_bounds m) as (Hd & Hlo & Hhi); [lia|].
  destruct (decide (m + 1 < 2 ^ Zdigits2 m)) as [Hlt|Hge].
  - rewrite (Zdigits2_unique (m + 1) (Zdigits2 m)); lia.
  - rewrite (Zdigits2_unique (m + 1) (Zdigits2 m + 1)); [lia..|].
    replace (Zdigits2 m + 1 - 1) with (Zdigits2 m) by lia.
    rewrite Z.pow_add_r by lia. lia.
Qed.

Lemma Zdigits2_mul_pow2 m k :
  0 < m → 0 ≤ k → Zdigits2 (m * 2 ^ k) = Zdigits2 m + k.
Proof.
  intros Hm Hk. destruct (Zdigits2_bounds m Hm) as (Hd & Hlo & Hhi).
  assert (0 < 2 ^ k) as Hpow by (apply Z.pow_pos_nonneg; lia).
  apply Zdigits2_unique; [lia|].
  replace (Zdigits2 m + k - 1) with (Zdigits2 m - 1 + k) by lia.
  rewrite !Z.pow_add_r by lia. nia.
Qed.

(** [iter_pos] and [Pos.iter] as iteration over [nat]. *)
Lemma iter_pos_nat {A} (f : A → A) p x :
  SpecFloat.iter_pos f p x = Nat.iter (Pos.to_nat p) f x.
Proof.
  revert x. induction p as [p IH|p IH|]; intros x; simpl SpecFloat.iter_pos.
  - rewrite !IH, Pos2Nat.inj_xI, <- Nat.iter_add.
    replace (S (2 * Pos.to_nat p)) with (Pos.to_nat p + Pos.to_nat p + 1)%nat by lia.
    by rewrite (Nat.iter_add (Pos.to_nat p + Pos.to_nat p) 1).
  - rewrite !IH, Pos2Nat.inj_xO, <- Nat.iter_add. f_equal. lia.
  - done.
Qed.

Lemma Pos_iter_nat {A} (f : A → A) p x :
  Pos.iter f x p = Nat.iter (Pos.to_nat p) f x.
Proof. rewrite Pos2Nat.inj_iter. unfold Nat.iter. done. Qed.

Lemma shr_1_m mrs : 0 ≤ shr_m mrs → shr_m (shr_1 mrs) = shr_m mrs / 2.
Proof.
  destruct mrs as [m r s]. simpl. intros Hm.
  rewrite <- Z.div2_div. by destruct m as [|[p|p|]|[p|p|]].
Qed.

Lemma shr_m_iter n mrs :
  0 ≤ shr_m mrs →
  shr_m (Nat.iter n shr_1 mrs) = shr_m mrs / 2 ^ Z.of_nat n.
Proof.
  intros Hm. induction n as [|n IH].
  - simpl. by rewrite Z.div_1_r.
  - rewrite Nat2Z.inj_succ, Z.pow_succ_r by lia. simpl Nat.iter.
    rewrite shr_1_m, IH.
    + rewrite Z.div_div by (try apply Z.pow_pos_nonneg; lia).
      f_equal. lia.
    + rewrite IH. apply Z.div_pos; [done|]. apply Z.pow_pos_nonneg; lia.
Qed.

Lemma shr_spec mrs e n :
  0 ≤ shr_m mrs →
  shr_m (shr mrs e n).1 = shr_m mrs / 2 ^ Z.max n 0 ∧
  (shr mrs e n).2 = e + Z.max n 0.
Proof.
  intros Hm. unfold shr. destruct n as [|p|p]; simpl.
  - rewrite Z.div_1_r. lia.
  - rewrite iter_pos_nat, shr_m_iter by done.
    by rewrite positive_nat_Z.
  - rewrite Z.div_1_r. lia.
Qed.

Lemma round_nearest_even_bounds m l :
  round_nearest_even m l = m ∨ round_nearest_even m l = m + 1.
Proof.
  unfold round_nearest_even. destruct l as [|[]]; auto.
  destruct (Z.even m); auto.
Qed.

Lemma Pos_iter_xO m k : Zpos (Pos.iter xO m k) = Zpos m * 2 ^ Zpos k.
Proof.
  rewrite Pos_iter_nat, <- (positive_nat_Z k).
  induction (Pos.to_nat k) as [|n IH]; [simpl; lia|].
  rewrite Nat2Z.inj_succ, Z.pow_succ_r by lia. simpl Nat.iter.
  rewrite Pos2Z.inj_xO, IH. lia.
Qed.

Lemma digits2_pos_iter_xO m k :
  Zpos (digits2_pos (Pos.iter xO m k)) = Zpos (digits2_pos m) + Zpos k.
Proof.
  change (Zdigits2 (Zpos (Pos.iter xO m k)) = Zdigits2 (Zpos m) + Zpos k).
  rewrite Pos_iter_xO. apply Zdigits2_mul_pow2; lia.
Qed.

(** Shifting right what was shifted left loses nothing. *)
Lemma iter_shr_1_exact m k :
  SpecFloat.iter_pos shr_1 k
    {| shr_m := Zpos (Pos.iter xO m k); shr_r := false; shr_s := false |} =
  {| shr_m := Zpos m; shr_r := false; shr_s := false |}.
Proof.
  rewrite iter_pos_nat, Pos_iter_nat.
  induction (Pos.to_nat k) as [|n IH]; [done|].
  rewrite Nat.iter_succ_r. simpl. exact IH.
Qed.

(** ** Rounding to a format *)

Section format.
Context (prec emax : Z).

(** A positive mantissa below its canonical exponent is rounded to a valid
    datum of the format. *)
Lemma binary_round_aux_valid s m e l :
  0 < prec → 0 < m → e ≤ fexp prec emax (Zdigits2 m + e) →
  valid_binary prec emax (binary_round_aux prec emax s m e l) = true.
Proof.
  intros Hprec Hm He. unfold binary_round_aux, shr_fexp.
  pose proof (shr_spec (shr_record_of_loc m l) e
                (fexp prec emax (Zdigits2 m + e) - e)) as [Hm1 He1].
  { destruct l as [|[]]; simpl; lia. }
  destruct (shr (shr_record_of_loc m l) e _) as [mrs' e']. simpl in Hm1, He1.
  assert (shr_m (shr_record_of_loc m l) = m) as Hloc by (by destruct l as [|[]]).
  rewrite Hloc in Hm1. clear Hloc.
  set (n1 := Z.max (fexp prec emax (Zdigits2 m + e) - e) 0) in *.
  set (m2 := round_nearest_even (shr_m mrs') (loc_of_shr_record mrs')).
  assert (0 < 2 ^ n1) as Hpow1 by (apply Z.pow_pos_nonneg; lia).
  assert (0 ≤ shr_m mrs') as Hm1pos.
  { rewrite Hm1. apply Z.div_pos; lia. }
  assert (0 ≤ m2 ∧ Zdigits2 (shr_m mrs') ≤ Zdigits2 m2 ≤ Zdigits2 (shr_m mrs') + 1)
    as [Hm2pos Hd2].
  { subst m2. destruct (round_nearest_even_bounds (shr_m mrs')
                          (loc_of_shr_record mrs')) as [-> | ->].
    - lia.
    - split; [lia|]. by apply Zdigits2_succ. }
  pose proof (shr_spec (shr_record_of_loc m2 loc_Exact) e'
                (fexp prec emax (Zdigits2 m2 + e') - e') Hm2pos) as [Hm3 He3].
  destruct (shr (shr_record_of_loc m2 loc_Exact) e' _) as [mrs'' e''].
  simpl in Hm3, He3.
  set (n2 := Z.max (fexp prec emax (Zdigits2 m2 + e') - e') 0) in *.
  destruct (shr_m mrs'') as [|m3|m3] eqn:Hm3'; [done| |done].
  destruct (e'' <=? emax - prec) eqn:Hbound; [|done].
  simpl. unfold bounded. rewrite Hbound, andb_true_r.
  unfold canonical_mantissa. apply Z.eqb_eq.
  change (Z.pos (digits2_pos m3)) with (Zdigits2 (Z.pos m3)). rewrite Hm3.
  destruct (Zdigits2_bounds m Hm) as (HD & _).
  assert (0 ≤ Zdigits2 m2) as Hd2pos.
  { destruct m2 as [|q|q]; simpl; lia. }
  assert (n2 < Zdigits2 m2) as Hn2.
  { destruct (decide (n2 < Zdigits2 m2)) as [|Hge]; [done|].
    rewrite (Zdigits2_div_small m2 n2) in Hm3 by lia. done. }
  assert (0 < m2) as Hm2 by (destruct m2; simpl in *; lia).
  rewrite Zdigits2_div by lia.
  assert (Zdigits2 (shr_m mrs') = Z.max (Zdigits2 m - n1) 0) as Hd1.
  { rewrite Hm1. destruct (decide (n1 < Zdigits2 m)).
    - rewrite Zdigits2_div by lia. lia.
    - rewrite Zdigits2_div_small by lia. simpl. lia. }
  unfold fexp, emin in *. lia.
Qed.

(** A canonical mantissa is left as it is. *)
Lemma binary_round_aux_canonical s m e :
  canonical_mantissa prec emax m e = true →
  binary_round_aux prec emax s (Zpos m) e loc_Exact =
  if e <=? emax - prec then S754_finite s m e else S754_infinity s.
Proof.
  unfold canonical_mantissa. intros Hcan%Z.eqb_eq.
  unfold binary_round_aux, shr_fexp. simpl Zdigits2.
  rewrite Hcan, Z.sub_diag. simpl. rewrite Hcan, Z.sub_diag. done.
Qed.

Lemma shl_align_spec mx ex ex' :
  Zpos (shl_align mx ex ex').1 = Zpos mx * 2 ^ (ex - Z.min ex ex') ∧
  (shl_align mx ex ex').2 = Z.min ex ex'.
Proof.
  unfold shl_align. destruct (ex' - ex) as [|d|d] eqn:Hd; simpl.
  - replace (Z.min ex ex') with ex by lia. rewrite Z.sub_diag. simpl. lia.
  - replace (Z.min ex ex') with ex by lia. rewrite Z.sub_diag. simpl. lia.
  - replace (Z.min ex ex') with ex' by lia. split; [|done].
    replace (ex - ex') with (Zpos d) by lia. apply Pos_iter_xO.
Qed.

(** The cast produces data of the format. *)
Lemma binary_round_valid s m e :
  0 < prec → valid_binary prec emax (binary_round prec emax s m e) = true.
Proof.
  intros Hprec. unfold binary_round.
  pose proof (shl_align_spec m e (fexp prec emax (Zpos (digits2_pos m) + e)))
    as [Hmz Hez].
  destruct (shl_align m e _) as [mz ez]. simpl in Hmz, Hez.
  apply binary_round_aux_valid; [done|done|].
  rewrite Hmz, Zdigits2_mul_pow2 by lia. simpl Zdigits2.
  replace (Z.pos (digits2_pos m) + (e - Z.min e (fexp prec emax (Z.pos (digits2_pos m) + e))) + ez)
    with (Z.pos (digits2_pos m) + e) by lia.
  lia.
Qed.

(** A datum of the format is cast to itself. *)
Lemma binary_round_bounded s m e :
  bounded prec emax m e = true →
  binary_round prec emax s m e = S754_finite s m e.
Proof.
  unfold bounded. intros [Hcan Hle]%andb_prop.
  unfold binary_round.
  pose proof Hcan as Hcan'. unfold canonical_mantissa in Hcan'.
  apply Z.eqb_eq in Hcan'. rewrite Hcan'.
  unfold shl_align. rewrite Z.sub_diag.
  by rewrite binary_round_aux_canonical, Hle.
Qed.

End format.

(** ** float32 and float64 *)

(** A float64 datum is read as it is. *)
Lemma astype_float64_valid x :
  valid_binary 53 1024 x = true → np.astype_float64 x = x.
Proof.
  destruct x as [| | |s m e]; try done. apply binary_round_bounded.
Qed.

(** A float32 datum widens to a finite float64 and narrows back to
    itself. *)
Lemma float32_float64_float32 s m e :
  bounded 24 128 m e = true →
  np.isfinite (np.astype_float64 (S754_finite s m e)) = true ∧
  np.astype_float32 (np.astype_float64 (S754_finite s m e)) = S754_finite s m e.
Proof.
  intros Hb. pose proof Hb as [Hcan Hle]%andb_prop.
  apply Z.eqb_eq in Hcan. apply Z.leb_le in Hle.
  set (d := Zpos (digits2_pos m)) in *.
  assert (0 < d) as Hd by (unfold d; lia).
  assert (fexp 53 1024 (d + e) = d + e - 53) as Hwide
    by (unfold fexp, emin in *; lia).
  unfold np.astype_float64, binary_round. fold d. rewrite Hwide.
  unfold shl_align.
  destruct (d + e - 53 - e) as [|k|k] eqn:Hk;
    [unfold fexp, emin in *; lia..|].
  assert (Zpos (digits2_pos (Pos.iter xO m k)) = 53) as Hdig.
  { rewrite digits2_pos_iter_xO. fold d. lia. }
  rewrite (binary_round_aux_canonical 53 1024).
  2:{ unfold canonical_mantissa. apply Z.eqb_eq. rewrite Hdig.
      unfold fexp, emin in *. lia. }
  assert ((d + e - 53 <=? 1024 - 53) = true) as -> by (apply Z.leb_le; lia).
  split; [done|].
  unfold np.astype_float32, binary_round. rewrite Hdig.
  assert (fexp 24 128 (53 + (d + e - 53)) = e) as Hnarrow
    by (unfold fexp, emin in *; lia).
  rewrite Hnarrow. unfold shl_align.
  destruct (e - (d + e - 53)) as [|k'|k'] eqn:Hk'; [lia| |lia].
  unfold binary_round_aux, shr_fexp. simpl Zdigits2.
  rewrite Hdig, Hnarrow, Hk'.
  assert (k' = k) as -> by lia.
  unfold shr at 1. simpl shr_record_of_loc. rewrite iter_shr_1_exact.
  simpl loc_of_shr_record. simpl round_nearest_even. simpl shr_record_of_loc.
  simpl Zdigits2. fold d.
  replace (d + e - 53 + Z.pos k) with e by lia.
  rewrite Hcan, Z.sub_diag. simpl.
  by rewrite (proj2 (Z.leb_le _ _) Hle).
Qed.

Lemma valid_f32 x : valid_binary 24 128 (np.astype_float32 x) = true.
Proof.
  destruct x as [| | |s m e]; try done. by apply binary_round_valid.
Qed.

Lemma f32_f64_valid y :
  valid_binary 24 128 y = true →
  np.astype_float32 (np.astype_float64 y) = y ∧ (np.isfinite y = true → np.isfinite (np.astype_float64 y) = true).
Proof.
  destruct y as [| | |s m e]; try done.
  intros Hb. destruct (float32_float64_float32 s m e Hb). done.
Qed.

(** Casting to float32 through float64 twice is casting once. *)
Lemma f32_f64_f32 x : np.astype_float32 (np.astype_float64 (np.astype_float32 x)) = np.astype_float32 x.
Proof. apply f32_f64_valid, valid_f32. Qed.

Lemma isfinite_f64_f32 x : np.isfinite (np.astype_float32 x) = true → np.isfinite (np.astype_float64 (np.astype_float32 x)) = true.
Proof. apply f32_f64_valid, valid_f32. Qed.

(** ** The sanitizer *)

(** The run of [apply_sanitizer], with the two repairs of lines 117 to 126
    written as maps over the array. *)
Lemma apply_sanitizer_unfold X s nm w :
  apply_sanitizer X s nm w =
  match reindex X (columns s) with
  | Raise e => (Raise e, w)
  | Ok X_num =>
      let medians := np.astype_float64 <$> medians s in
      let arr0 := np.map2d np.astype_float64 (df_values X_num) in
      let non_finite_mask := np.map2d (λ x, negb (np.isfinite x)) arr0 in
      let w1 :=
        if np.any non_finite_mask then
          (print ("[WARN] " +:+ nm +:+ ": found " +:+
                  pretty (np.sum non_finite_mask) +:+
                  " non-finite values; converting to NaN.") w).2
        else w in
      let arr1 := np.map2d to_nan arr0 in
      let nan_mask := np.map2d np.isnan arr1 in
      if np.any nan_mask then
        let w2 := (print ("[INFO] " +:+ nm +:+ ": imputing " +:+
                          pretty (np.sum nan_mask) +:+
                          " NaNs with training medians.") w1).2 in
        match fancy_index medians ((np.where_ nan_mask).*2) with
        | Ok vals =>
            (Ok {| df_index := df_index X; df_columns := columns s;
                   df_values := np.map2d np.astype_float32
                                  (np.setitems arr1 (np.where_ nan_mask) vals) |},
             w2)
        | Raise e => (Raise e, w2)
        end
      else
        (Ok {| df_index := df_index X; df_columns := columns s;
               df_values := np.map2d np.astype_float32 arr1 |}, w1)
  end.
Proof.
  unfold apply_sanitizer, mbind, M_bind, lift, mret, M_ret.
  destruct (reindex X (columns s)) as [X_num|e]; [|done]. simpl.
  set (arr0 := np.map2d np.astype_float64 (df_values X_num)).
  assert (∀ v, (if np.any (np.map2d (λ x, negb (np.isfinite x)) arr0)
                then np.setmask arr0 (np.map2d (λ x, negb (np.isfinite x)) arr0) v
                else arr0) =
               np.map2d (λ x, if negb (np.isfinite x) then v else x) arr0) as Harr1.
  { intros v. destruct (np.any _) eqn:Hany.
    - apply setmask_map2d.
    - symmetry. apply map2d_id_in. intros i j x Hx.
      by rewrite (proj1 (any_false _ _) Hany i j x Hx). }
  specialize (Harr1 np.nan). fold to_nan in Harr1.
  destruct (np.any (np.map2d (λ x, negb (np.isfinite x)) arr0)) eqn:Hany;
    simpl; [rewrite Harr1|rewrite <- Harr1];
    (destruct (np.any (np.map2d np.isnan _)); simpl;
     try done; by destruct (fancy_index _ _)).
Qed.

Lemma printed_only_refl w : printed_only w w.
Proof. by repeat split. Qed.

Lemma printed_only_print line w : printed_only w (print line w).2.
Proof. by repeat split. Qed.

Lemma printed_only_trans w1 w2 w3 :
  printed_only w1 w2 → printed_only w2 w3 → printed_only w1 w3.
Proof.
  unfold printed_only. intros (?&?&?&?) (?&?&?&?). repeat split; congruence.
Qed.

(** What a returned frame holds, in terms of the reindexed input. *)
Lemma apply_sanitizer_cells X s nm w T w' :
  apply_sanitizer X s nm w = (Ok T, w') →
  ∃ X_num, reindex X (columns s) = Ok X_num ∧
    df_index T = df_index X ∧ df_columns T = columns s ∧
    length (df_values T) = length (df_values X_num) ∧
    (∀ i j, cell (df_values T) i j =
            sanitized_cell s j <$> cell (df_values X_num) i j) ∧
    (∀ i j x, cell (df_values X_num) i j = Some x →
              np.isfinite (np.astype_float64 x) = false →
              is_Some (medians s !! j)) ∧
    printed_only w w'.
Proof.
  rewrite apply_sanitizer_unfold.
  destruct (reindex X (columns s)) as [X_num|e]; [|done]. cbv zeta.
  set (arr0 := np.map2d np.astype_float64 (df_values X_num)).
  set (w1 := if np.any _ then _ else w).
  assert (printed_only w w1) as Hw1.
  { subst w1. destruct (np.any _);
      [apply printed_only_print|apply printed_only_refl]. }
  destruct (np.any (np.map2d np.isnan (np.map2d to_nan arr0))) eqn:Hany.
  - destruct (fancy_index _ _) as [vals|] eqn:Hvals; [|done].
    intros [= <- <-]. exists X_num. simpl. split_and!; try done.
    + rewrite length_map2d, length_setitems. subst arr0.
      by rewrite !length_map2d.
    + intros i j. rewrite cell_map2d, (cell_impute _ _ _ _ _ Hvals).
      subst arr0. rewrite !cell_map2d.
      destruct (cell (df_values X_num) i j) as [x|]; simpl; [|done].
      f_equal. unfold sanitized_cell. rewrite isnan_to_nan, list_lookup_fmap.
      unfold to_nan. by destruct (np.isfinite (np.astype_float64 x)).
    + intros i j x Hx Hfin.
      assert (is_Some ((np.astype_float64 <$> medians s) !! j)) as [m Hm].
      { eapply (impute_in_range _ _ _ i j _ Hvals).
        - subst arr0. by rewrite !cell_map2d, Hx.
        - by rewrite isnan_to_nan, Hfin. }
      rewrite list_lookup_fmap in Hm. by destruct (medians s !! j).
  - intros [= <- <-]. exists X_num. simpl. split_and!; try done.
    + subst arr0. by rewrite !length_map2d.
    + intros i j. subst arr0. rewrite !cell_map2d.
      destruct (cell (df_values X_num) i j) as [x|] eqn:Hx; simpl; [|done].
      f_equal. unfold sanitized_cell.
      pose proof (proj1 (any_false _ _) Hany i j (to_nan (np.astype_float64 x))) as Hn.
      rewrite !cell_map2d, Hx in Hn. specialize (Hn eq_refl).
      rewrite isnan_to_nan in Hn. apply negb_false_iff in Hn.
      unfold to_nan. by rewrite Hn.
    + intros i j x Hx Hfin. exfalso.
      pose proof (proj1 (any_false _ _) Hany i j (to_nan (np.astype_float64 x))) as Hn.
      unfold arr0 in Hn. rewrite !cell_map2d, Hx in Hn. specialize (Hn eq_refl).
      rewrite isnan_to_nan, Hfin in Hn. done.
Qed.

(** The sanitizer returns as soon as the reindexed rows are no wider than
    the list of medians. *)
Lemma apply_sanitizer_returns X s nm w X_num :
  reindex X (columns s) = Ok X_num →
  (∀ i j x, cell (df_values X_num) i j = Some x → (j < length (medians s))%nat) →
  ∃ T w', apply_sanitizer X s nm w = (Ok T, w').
Proof.
  intros HX Hwidth. rewrite apply_sanitizer_unfold, HX. cbv zeta.
  destruct (np.any (np.map2d np.isnan _)); [|eauto].
  destruct (fancy_index_total (np.astype_float64 <$> medians s)
    ((np.where_ (np.map2d np.isnan (np.map2d to_nan
       (np.map2d np.astype_float64 (df_values X_num))))).*2)) as [vals ->];
    [|eauto].
  apply Forall_forall. intros j Hj.
  apply list_elem_of_fmap in Hj as ([i j'] & -> & Hij). simpl.
  apply elem_of_where in Hij. rewrite !cell_map2d in Hij.
  destruct (cell (df_values X_num) i j') as [x|] eqn:Hx; [|done].
  rewrite length_fmap. eauto.
Qed.

(** ** Reindexing *)

Lemma get_loc_lookup (labels : list string) j c :
  NoDup labels → labels !! j = Some c → get_loc labels c = Some j.
Proof.
  intros Hnd Hj. unfold get_loc.
  destruct (list_find (λ l, l = c) labels) as [[k x]|] eqn:Hfind; simpl.
  - apply list_find_Some in Hfind as (Hk & -> & _).
    f_equal. by eapply NoDup_lookup.
  - apply list_find_None in Hfind. rewrite Forall_forall in Hfind.
    destruct (Hfind c); by eauto using list_elem_of_lookup_2.
Qed.

Lemma get_loc_None (labels : list string) c :
  get_loc labels c = None ↔ c ∉ labels.
Proof.
  unfold get_loc. rewrite fmap_None, list_find_None, Forall_forall.
  split; [intros H Hin; by apply (H c)|intros H x Hx ->; done].
Qed.

Lemma get_loc_Some (labels : list string) c k :
  get_loc labels c = Some k → labels !! k = Some c.
Proof.
  unfold get_loc. intros ([k' x] & Hfind & ->)%fmap_Some.
  by apply list_find_Some in Hfind as (Hk & -> & _).
Qed.

(** Reindexing a well-formed frame: the cell under label [c] is the input's
    cell under [c], or the missing-value marker when the input has no column
    [c]. *)
Lemma reindex_wf X cols :
  wf_frame X →
  ∃ X_num, reindex X cols = Ok X_num ∧
    df_index X_num = df_index X ∧ df_columns X_num = cols ∧
    length (df_values X_num) = length (df_values X) ∧
    (∀ i j c, (i < length (df_values X))%nat → cols !! j = Some c →
       cell (df_values X_num) i j = Some (default np.nan (at_ X i c))) ∧
    (∀ i j x, cell (df_values X_num) i j = Some x → (j < length cols)%nat).
Proof.
  intros [Hnd Hrows Hwidth]. unfold reindex.
  destruct (decide (df_columns X = cols)) as [<-|Hne].
  - exists X. split_and!; try done.
    + intros i j c Hi Hj. unfold cell, at_.
      apply lookup_lt_is_Some_2 in Hi as [row Hrow]. rewrite Hrow. simpl.
      rewrite (get_loc_lookup _ j c) by done. simpl.
      rewrite Forall_forall in Hwidth.
      assert (j < length row)%nat as [x Hx]%lookup_lt_is_Some_2.
      { rewrite (Hwidth row) by eauto using list_elem_of_lookup_2.
        by eapply lookup_lt_Some. }
      by rewrite Hx.
    + intros i j x Hx. unfold cell in Hx.
      destruct (df_values X !! i) as [row|] eqn:Hrow; simplify_eq/=.
      rewrite Forall_forall in Hwidth.
      rewrite <- (Hwidth row) by eauto using list_elem_of_lookup_2.
      by eapply lookup_lt_Some.
  - rewrite decide_True by done. eexists. split; [done|]. simpl.
    split_and!; try done.
    + by rewrite length_fmap.
    + intros i j c Hi Hj. unfold cell, at_.
      apply lookup_lt_is_Some_2 in Hi as [row Hrow].
      rewrite list_lookup_fmap, Hrow. simpl.
      unfold take_row. rewrite !list_lookup_fmap, Hj. simpl.
      by destruct (get_loc (df_columns X) c).
    + intros i j x Hx. unfold cell in Hx.
      rewrite list_lookup_fmap in Hx.
      destruct (df_values X !! i) as [row|]; simplify_eq/=.
      unfold take_row in Hx. apply lookup_lt_Some in Hx.
      by rewrite !length_fmap in Hx.
Qed.

Lemma isfinite_nan_inf x : np.isfinite x = negb (np.isnan x || np.isinf x).
Proof. by destruct x. Qed.

(** C1.  On a well-formed frame and a sanitizer with as many medians as
    columns, [apply_sanitizer] returns a frame with the sanitizer's columns
    in their order and the row index of the input.  The cell at row [i] and
    column [c_j] is the float32 of the median [m_j] when the input has no
    column [c_j] or holds there, as float64, a NaN or an infinity (the two
    are not told apart); it is the float32 of the input's float64 datum
    otherwise.  Columns of the input that the sanitizer does not list do not
    appear. *)
Theorem apply_sanitizer_spec X s nm w :
  wf_frame X →
  length (medians s) = length (columns s) →
  ∃ T w', apply_sanitizer X s nm w = (Ok T, w') ∧
    df_columns T = columns s ∧
    df_index T = df_index X ∧
    length (df_values T) = length (df_values X) ∧
    ∀ i j c m,
      (i < length (df_values X))%nat →
      columns s !! j = Some c →
      medians s !! j = Some m →
      cell (df_values T) i j =
      Some match at_ X i c with
           | Some x =>
               if np.isnan (np.astype_float64 x) || np.isinf (np.astype_float64 x)
               then np.astype_float32 (np.astype_float64 m)
               else np.astype_float32 (np.astype_float64 x)
           | None => np.astype_float32 (np.astype_float64 m)
           end.
Proof.
  intros Hwf Hlen.
  destruct (reindex_wf X (columns s) Hwf)
    as (X_num & HX & Hidx & Hcols & Hrows & Hcell & Hwidth).
  destruct (apply_sanitizer_returns X s nm w X_num HX) as (T & w' & Hrun).
  { intros i j x Hx. rewrite Hlen. eauto. }
  exists T, w'. split; [done|].
  apply apply_sanitizer_cells in Hrun
    as (X_num' & HX' & HTidx & HTcols & HTrows & HTcell & _ & _).
  assert (X_num' = X_num) as -> by congruence.
  split_and!; try congruence.
  intros i j c m Hi Hj Hm. rewrite HTcell, (Hcell i j c Hi Hj). simpl. f_equal.
  unfold sanitized_cell. rewrite Hm. simpl.
  destruct (at_ X i c) as [x|]; simpl; [|done].
  rewrite isfinite_nan_inf.
  by destruct (np.isnan (np.astype_float64 x) || np.isinf (np.astype_float64 x)).
Qed.

(** C9.  With finite medians, at least as many as the columns, no cell of a
    frame returned by [apply_sanitizer] is a NaN; and on a well-formed frame
    the sanitizer does return. *)
Theorem apply_sanitizer_no_nan X s nm w :
  Forall (λ m, np.isfinite m = true) (medians s) →
  (length (columns s) ≤ length (medians s))%nat →
  (wf_frame X → ∃ T w', apply_sanitizer X s nm w = (Ok T, w')) ∧
  (∀ T w' i j y,
     apply_sanitizer X s nm w = (Ok T, w') →
     cell (df_values T) i j = Some y →
     np.isnan y = false).
Proof.
  intros Hfin Hlen. split.
  - intros Hwf.
    destruct (reindex_wf X (columns s) Hwf)
      as (X_num & HX & _ & _ & _ & _ & Hwidth).
    apply (apply_sanitizer_returns X s nm w X_num HX).
    intros i j x Hx. specialize (Hwidth i j x Hx). lia.
  - intros T w' i j y Hrun Hy.
    apply apply_sanitizer_cells in Hrun
      as (X_num & _ & _ & _ & _ & HTcell & Hmed & _).
    rewrite HTcell in Hy.
    destruct (cell (df_values X_num) i j) as [x|] eqn:Hx; simplify_eq/=.
    unfold sanitized_cell. rewrite isnan_astype_float32.
    destruct (np.isfinite (np.astype_float64 x)) eqn:Hfx.
    + by destruct (np.astype_float64 x).
    + destruct (Hmed i j x Hx Hfx) as [m Hm]. rewrite Hm. simpl.
      rewrite isnan_astype_float64. rewrite Forall_forall in Hfin.
      specialize (Hfin m (list_elem_of_lookup_2 _ _ _ Hm)). by destruct m.
Qed.

Lemma reindex_shape X cols X' :
  reindex X cols = Ok X' →
  df_columns X' = cols ∧ df_index X' = df_index X ∧
  length (df_values X') = length (df_values X).
Proof.
  unfold reindex. destruct (decide (df_columns X = cols)) as [<-|Hne].
  - by intros [= <-].
  - destruct (decide (NoDup (df_columns X))); [|done].
    intros [= <-]. simpl. by rewrite length_fmap.
Qed.

(** A label the input frame does not carry gives a column of missing-value
    markers. *)
Lemma reindex_absent X cols X' i j c :
  reindex X cols = Ok X' →
  cols !! j = Some c → c ∉ df_columns X →
  (i < length (df_values X))%nat →
  cell (df_values X') i j = Some np.nan.
Proof.
  unfold reindex. intros HX Hj Hc Hi.
  destruct (decide (df_columns X = cols)) as [<-|Hne].
  - destruct Hc. eauto using list_elem_of_lookup_2.
  - destruct (decide (NoDup (df_columns X))); [|done].
    injection HX as <-. simpl. unfold cell.
    apply lookup_lt_is_Some_2 in Hi as [row Hrow].
    rewrite list_lookup_fmap, Hrow. simpl.
    unfold take_row. rewrite !list_lookup_fmap, Hj. simpl.
    by rewrite (proj2 (get_loc_None _ _) Hc).
Qed.

(** ** Scoring *)

(** ** The comparison *)

Lemma two_pow_pos e : (0 < 2 ^ e)%Q.
Proof. by apply Qpower_0_lt. Qed.

(** A number [S * 2 ^ ex] written with a smaller exponent [e]. *)
Lemma aligned_value (S ex e : Z) :
  e ≤ ex → (inject_Z S * 2 ^ ex == inject_Z (S * 2 ^ (ex - e)) * 2 ^ e)%Q.
Proof.
  intros He. rewrite inject_Z_mult, Zpower_Qpower by lia.
  rewrite <- Qmult_assoc, <- Qpower_plus by done.
  by replace (ex - e + e) with ex by lia.
Qed.

Lemma Qvalue_aligned x e q :
  e ≤ np.exponent x → Qvalue x = Some q →
  (q == inject_Z (np.signed_mantissa x * 2 ^ (np.exponent x - e)) * 2 ^ e)%Q.
Proof.
  intros He Hq. destruct x as [s|s| |s m ex]; try done.
  - injection Hq as <-. unfold np.signed_mantissa. rewrite Z.mul_0_l.
    symmetry. apply Qmult_0_l.
  - injection Hq as <-. by apply aligned_value.
Qed.

(** The comparison of the aligned mantissas is the order of the values. *)
Lemma ge_aligned a b x y :
  Qvalue a = Some x → Qvalue b = Some y →
  (let e := Z.min (np.exponent a) (np.exponent b) in
   np.signed_mantissa b * 2 ^ (np.exponent b - e)
   <=? np.signed_mantissa a * 2 ^ (np.exponent a - e)) = true
  ↔ (y <= x)%Q.
Proof.
  intros Ha Hb. cbv zeta. set (e := Z.min (np.exponent a) (np.exponent b)).
  rewrite (Qvalue_aligned a e x), (Qvalue_aligned b e y) by (done || lia).
  rewrite Qmult_le_r by apply two_pow_pos.
  rewrite <- Zle_Qle. apply Z.leb_le.
Qed.

(** [>=] holds exactly when the left value is at least the right one. *)
Lemma ge_num_ge a b : np.ge a b = true ↔ num_ge a b.
Proof.
  destruct a as [sa|[]| |sa ma ea], b as [sb|[]| |sb mb eb];
    try (simpl; by intuition);
    match goal with
    | |- np.ge ?a ?b = true ↔ _ => exact (ge_aligned a b _ _ eq_refl eq_refl)
    end.
Qed.


Lemma ge_nan_l p t : np.isnan p = true → np.ge p t = false.
Proof. by destruct p. Qed.

Lemma ge_nan_r p t : np.isnan t = true → np.ge p t = false.
Proof. destruct t; try done. intros _. by destruct p as [?|[]| |]. Qed.

(** Against a threshold that is the number [q]: [>=] is being at least
    [q]. *)
Lemma num_ge_at_least p t q' q :
  Qvalue t = Some q' → (q' == q)%Q → num_ge p t ↔ at_least q p.
Proof.
  intros Ht Hq. unfold at_least.
  assert (∀ x, Qvalue p = Some x →
            (q' <= x)%Q ↔
            p = S754_infinity false ∨ ∃ x, Qvalue p = Some x ∧ (q <= x)%Q)
    as Hnum.
  { intros x Hx. rewrite Hq. split.
    - intros Hle. right. eauto.
    - intros [->|(x' & Hx' & Hle)]; [done|]. congruence. }
  destruct t as [st| | |st mt et]; try done;
    (destruct p as [sp|[]| |sp mp ep]; unfold num_ge;
     [ rewrite Ht; by apply Hnum
     | split; [done|by intros [[=]|(x & [=] & _)]]
     | split; [by left|done]
     | split; [done|by intros [[=]|(x & [=] & _)]]
     | rewrite Ht; by apply Hnum ]).
Qed.

Lemma DEFAULT_DECISION_THRESHOLD_value :
  ∃ q, Qvalue DEFAULT_DECISION_THRESHOLD = Some q ∧ (q == 1 # 2)%Q.
Proof. eexists. split; reflexivity. Qed.

Section scoring.
Context (APP_DIR : string).

(** A returning run of [predict_from_dataframe], step by step. *)
Lemma predict_from_dataframe_inv df threshold artifacts nm w proba labels b w' :
  predict_from_dataframe APP_DIR df threshold artifacts nm w
    = (Ok (proba, labels, b), w') →
  ∃ w0 df' X_clean,
    match artifacts with
    | None => load_artifacts APP_DIR None true w
    | Some a => (Ok a, w)
    end = (Ok b, w0) ∧
    reindex df (feature_names (obj_val b)) = Ok df' ∧
    apply_sanitizer df' (sanitizer (obj_val b)) (default "X_request" nm) w0
      = (Ok X_clean, w') ∧
    column_1 (predict_proba (model (obj_val b)) X_clean) = Ok proba ∧
    labels = (λ p, if np.ge p (default DEFAULT_DECISION_THRESHOLD threshold)
                   then 1 else 0) <$> proba.
Proof.
  unfold predict_from_dataframe, mbind, M_bind, lift, mret, M_ret.
  destruct artifacts as [a|];
    [pose (w0 := w)
    |destruct (load_artifacts APP_DIR None true w) as [[a|e] w0]; [|done]];
  (destruct (reindex df (feature_names (obj_val a))) as [df'|e] eqn:Hdf;
     [|done]);
  (destruct (apply_sanitizer df' _ _ _) as [[X_clean|e] w1] eqn:Hsan; [|done]);
  (destruct (column_1 _) as [proba'|e] eqn:Hcol; [|done]);
  intros [= <- <- <- <-]; by exists w0, df', X_clean.
Qed.


(** C8.  In a returning run the model scores the output of the sanitizer
    run on the input reindexed to [feature_names]: a frame with the columns
    of the sanitizer in their order, in which every column whose label is
    not among [feature_names] holds the float32 of that column's median in
    every row, whatever the input held under that label. *)
Theorem predict_from_dataframe_scores df threshold artifacts nm w
    proba labels b w' :
  predict_from_dataframe APP_DIR df threshold artifacts nm w
    = (Ok (proba, labels, b), w') →
  ∃ df' X_clean w0,
    reindex df (feature_names (obj_val b)) = Ok df' ∧
    apply_sanitizer df' (sanitizer (obj_val b)) (default "X_request" nm) w0
      = (Ok X_clean, w') ∧
    column_1 (predict_proba (model (obj_val b)) X_clean) = Ok proba ∧
    df_columns X_clean = columns (sanitizer (obj_val b)) ∧
    length (df_values X_clean) = length (df_values df) ∧
    ∀ i j c,
      (i < length (df_values df))%nat →
      columns (sanitizer (obj_val b)) !! j = Some c →
      c ∉ feature_names (obj_val b) →
      ∃ m, medians (sanitizer (obj_val b)) !! j = Some m ∧
           cell (df_values X_clean) i j
             = Some (np.astype_float32 (np.astype_float64 m)).
Proof.
  intros (w0 & df' & X_clean & _ & Hdf' & Hsan & Hcol & _)%predict_from_dataframe_inv.
  exists df', X_clean, w0. split_and!; try done.
  - by apply apply_sanitizer_cells in Hsan as (? & _ & _ & ? & _).
  - apply apply_sanitizer_cells in Hsan as (X_num & HX & _ & _ & Hlen & _).
    apply reindex_shape in HX as (_ & _ & HX).
    apply reindex_shape in Hdf' as (_ & _ & Hdf'). congruence.
  - intros i j c Hi Hj Hc.
    apply apply_sanitizer_cells in Hsan
      as (X_num & HX & _ & _ & _ & Hcell & Hmed & _).
    pose proof (reindex_shape _ _ _ Hdf') as (Hcols & _ & Hrows).
    assert (cell (df_values X_num) i j = Some np.nan) as Hnan.
    { eapply reindex_absent; [exact HX|exact Hj| |]; congruence. }
    destruct (Hmed i j np.nan Hnan eq_refl) as [m Hm].
    exists m. split; [done|].
    rewrite Hcell, Hnan. simpl. unfold sanitized_cell. by rewrite Hm.
Qed.

End scoring.

(** ** Strings *)

Lemma append_cons c (a b : string) : String c a +:+ b = String c (a +:+ b).
Proof. reflexivity. Qed.

Lemma append_nil_l (b : string) : "" +:+ b = b.
Proof. reflexivity. Qed.


Lemma length_append (a b : string) :
  String.length (a +:+ b) = (String.length a + String.length b)%nat.
Proof. induction a as [|x a IH]; [done|]. rewrite ?append_cons; simpl. lia. Qed.

Lemma substring_0_length (a : string) : String.substring 0 (String.length a) a = a.
Proof. induction a as [|x a IH]; [done|]. simpl. by rewrite IH. Qed.

Lemma slice_to_append (a b : string) : slice_to (String.length a) (a +:+ b) = a.
Proof.
  unfold slice_to. induction a as [|x a IH]; simpl.
  - by destruct b.
  - rewrite ?append_cons; simpl. by rewrite IH.
Qed.

Lemma slice_from_append (a b : string) :
  slice_from (String.length a) (a +:+ b) = b.
Proof.
  unfold slice_from. rewrite length_append.
  replace (String.length a + String.length b - String.length a)%nat
    with (String.length b) by lia.
  induction a as [|x a IH]; simpl.
  - apply substring_0_length.
  - by rewrite ?append_cons.
Qed.

Lemma startswith_append (a b : string) : startswith (a +:+ b) a = true.
Proof.
  unfold startswith. induction a as [|x a IH]; simpl.
  - by destruct b.
  - rewrite ?append_cons; simpl. by destruct (ascii_dec x x).
Qed.



Lemma rfind_dot_json (a : string) :
  rfind "." (a +:+ ".json") = Some (String.length a).
Proof.
  induction a as [|x a IH]; [done|].
  rewrite ?append_cons; simpl. by rewrite IH.
Qed.

(** The stem of [a.json] is [a], for a non-empty [a]. *)
Lemma stem_json dir (a : string) :
  a ≠ "" → stem (dir / (a +:+ ".json"))%path = a.
Proof.
  intros Ha. unfold stem. simpl. rewrite rfind_dot_json.
  rewrite decide_True.
  - apply slice_to_append.
  - rewrite length_append. simpl. destruct a; [done|]. simpl. lia.
Qed.

(** A star matches any prefix of the text. *)
Lemma fnmatch_star (pat s : string) :
  fnmatch (String "*" pat) s = true ↔ ∃ a b, s = a +:+ b ∧ fnmatch pat b = true.
Proof.
  simpl. induction s as [|c s IH].
  - split.
    + intros H%orb_prop. destruct H as [H|H]; [|done]. by exists "", "".
    + intros (a & b & Hs & Hb). destruct a; [|done].
      rewrite append_nil_l in Hs. subst b. by rewrite Hb.
  - split.
    + intros [H|H]%orb_prop.
      * by exists "", (String c s).
      * apply IH in H as (a & b & -> & Hb). by exists (String c a), b.
    + intros (a & b & Hs & Hb). apply orb_true_intro.
      destruct a as [|x a].
      * left. rewrite append_nil_l in Hs. by subst b.
      * right. rewrite append_cons in Hs. injection Hs as -> ->.
        apply IH. eauto.
Qed.

Lemma fnmatch_json (s : string) : fnmatch ".json" s = true ↔ s = ".json".
Proof.
  split; [|by intros ->].
  intros H.
  repeat (destruct s as [|? s]; simpl in H; [done|];
          apply andb_prop in H as [<-%bool_decide_eq_true H]).
  apply bool_decide_eq_true in H. by subst s.
Qed.

(** The discovery pattern matches the names [cyber_ids_metadata_<v>.json]
    and no other. *)
Lemma fnmatch_metadata (n : string) :
  fnmatch (METADATA_BASENAME +:+ "_*" +:+ META_SUFFIX) n = true ↔
  ∃ v, n = metadata_name v.
Proof.
  change (METADATA_BASENAME +:+ "_*" +:+ META_SUFFIX)
    with "cyber_ids_metadata_*.json".
  split.
  - intros H.
    repeat (destruct n as [|? n]; simpl in H; [done|];
            apply andb_prop in H as [<-%bool_decide_eq_true H]).
    apply (fnmatch_star ".json" n) in H as (a & b & -> & ->%fnmatch_json).
    by exists a.
  - intros [v ->]. unfold metadata_name.
    change (METADATA_BASENAME +:+ "_" +:+ v +:+ META_SUFFIX)
      with ("cyber_ids_metadata_" +:+ v +:+ ".json").
    rewrite !append_cons, append_nil_l. simpl.
    change (fnmatch "*.json" (v +:+ ".json") = true).
    apply (fnmatch_star ".json"). exists v, ".json". done.
Qed.

(** ** Sorting paths *)

Global Instance Path_le_refl : Reflexive Path_le.
Proof. intros p. unfold Path_le. by rewrite decide_True. Qed.

Global Instance Path_le_trans : Transitive Path_le.
Proof.
  intros p q r. unfold Path_le.
  destruct (decide (path_parent p = path_parent q)) as [Hpq|Hpq],
           (decide (path_parent q = path_parent r)) as [Hqr|Hqr].
  - rewrite decide_True by congruence. apply transitivity.
  - rewrite decide_False by congruence. by rewrite Hpq.
  - rewrite decide_False by congruence. by rewrite <- Hqr.
  - intros H1 H2. destruct (decide (path_parent p = path_parent r)) as [Hpr|Hpr].
    + destruct Hpq. apply (anti_symm String.le); [done|]. by rewrite Hpr.
    + by etrans.
Qed.

Global Instance Path_le_total : Total Path_le.
Proof.
  intros p q. unfold Path_le.
  destruct (decide (path_parent p = path_parent q)) as [Hpq|Hpq].
  - rewrite decide_True by done. apply (total String.le).
  - rewrite decide_False by congruence. apply (total String.le).
Qed.

Lemma sorted_last_max (l : list Path) x :
  last (sorted l) = Some x → x ∈ l ∧ ∀ y, y ∈ l → Path_le y x.
Proof.
  unfold sorted. intros Hlast.
  pose proof (StronglySorted_merge_sort Path_le l) as Hsorted.
  pose proof (merge_sort_Permutation Path_le l) as Hperm.
  apply last_Some in Hlast as [l' Hl']. rewrite Hl' in Hsorted, Hperm.
  split.
  - rewrite <- Hperm. apply elem_of_app. right. apply list_elem_of_here.
  - intros y Hy. rewrite <- Hperm in Hy.
    apply elem_of_app in Hy as [Hy|Hy].
    + eapply StronglySorted_app_1_elem_of; [exact Hsorted|exact Hy|].
      apply list_elem_of_here.
    + apply list_elem_of_singleton in Hy as ->. reflexivity.
Qed.

Lemma sorted_nil (l : list Path) : last (sorted l) = None ↔ l = [].
Proof.
  unfold sorted. rewrite last_None.
  pose proof (merge_sort_Permutation Path_le l) as Hperm. split.
  - intros H. rewrite H in Hperm. by apply Permutation_nil_l in Hperm.
  - intros ->. by apply Permutation_nil_r in Hperm.
Qed.

(** ** Version discovery *)

Lemma stem_metadata dir v :
  stem (dir / metadata_name v)%path = METADATA_BASENAME +:+ "_" +:+ v.
Proof.
  unfold metadata_name.
  change (METADATA_BASENAME +:+ "_" +:+ v +:+ META_SUFFIX)
    with (("cyber_ids_metadata_" +:+ v) +:+ ".json").
  by rewrite stem_json.
Qed.

(** The run of the discovery on a directory: the glob is logged, and the
    outcome is read off the sorted matches. *)
Lemma discover_latest_version_run meta_dir w :
  _discover_latest_version meta_dir w =
  (match last (sorted (joinpath meta_dir <$> metadata_names meta_dir w)) with
   | None =>
       Raise (FileNotFoundError
                ("No metadata files found in " +:+ meta_dir +:+
                 " with pattern " +:+
                 repr (METADATA_BASENAME +:+ "_*" +:+ META_SUFFIX) +:+ "."))
   | Some latest =>
       Ok (slice_from (String.length (METADATA_BASENAME +:+ "_")) (stem latest))
   end,
   log_io (IOGlob meta_dir (METADATA_BASENAME +:+ "_*" +:+ META_SUFFIX)) w).
Proof.
  unfold _discover_latest_version, mbind, M_bind, glob. cbv zeta.
  fold (metadata_names meta_dir w).
  destruct (last _) as [latest|] eqn:Hlast; [|done].
  apply sorted_last_max in Hlast as [Hin _].
  apply list_elem_of_fmap in Hin as (n & -> & Hn).
  apply list_elem_of_filter in Hn as [[v ->]%fnmatch_metadata _].
  rewrite stem_metadata.
  change (METADATA_BASENAME +:+ "_" +:+ v) with ((METADATA_BASENAME +:+ "_") +:+ v).
  by rewrite startswith_append.
Qed.

Lemma discover_latest_version_Ok meta_dir w :
  metadata_names meta_dir w ≠ [] →
  ∃ v, (_discover_latest_version meta_dir w).1 = Ok v ∧
       metadata_name v ∈ metadata_names meta_dir w ∧
       ∀ n, n ∈ metadata_names meta_dir w → (n ≤ metadata_name v)%string.
Proof.
  intros Hne. rewrite discover_latest_version_run. cbn [fst].
  destruct (last _) as [latest|] eqn:Hlast.
  - apply sorted_last_max in Hlast as [Hin Hmax].
    apply list_elem_of_fmap in Hin as (n & -> & Hn).
    pose proof Hn as [[v ->]%fnmatch_metadata _]%list_elem_of_filter.
    exists v. rewrite stem_metadata.
    change (METADATA_BASENAME +:+ "_" +:+ v)
      with ((METADATA_BASENAME +:+ "_") +:+ v).
    rewrite slice_from_append. split_and!; [done..|].
    intros n Hin. specialize (Hmax (meta_dir / n)%path).
    unfold Path_le in Hmax. simpl in Hmax. rewrite decide_True in Hmax by done.
    apply Hmax. by apply list_elem_of_fmap_2.
  - apply sorted_nil in Hlast. by apply fmap_nil_inv in Hlast.
Qed.

Lemma metadata_name_inj v v' : metadata_name v = metadata_name v' → v = v'.
Proof.
  intros H.
  assert (∀ u, slice_from (String.length (METADATA_BASENAME +:+ "_"))
                 (stem ("" / metadata_name u)%path) = u) as Hu.
  { intros u. rewrite stem_metadata.
    change (METADATA_BASENAME +:+ "_" +:+ u)
      with ((METADATA_BASENAME +:+ "_") +:+ u).
    apply slice_from_append. }
  by rewrite <- (Hu v), <- (Hu v'), H.
Qed.

(** C3.  Version discovery on the entries of a directory: it raises the
    no-files-found error exactly when no entry name matches
    [cyber_ids_metadata_*.json]; otherwise it returns the version [v] whose
    file name [cyber_ids_metadata_<v>.json] is the greatest matching name in
    lexicographic order.  Among the versions 20240101-0000, 20240601-1200 and
    20230101-0000 it returns 20240601-1200. *)
Theorem discover_latest_version_spec meta_dir w :
  (metadata_names meta_dir w = [] ↔
   ∃ msg, (_discover_latest_version meta_dir w).1 = Raise (FileNotFoundError msg)) ∧
  (metadata_names meta_dir w ≠ [] →
   ∃ v, (_discover_latest_version meta_dir w).1 = Ok v ∧
        metadata_name v ∈ metadata_names meta_dir w ∧
        ∀ n, n ∈ metadata_names meta_dir w → (n ≤ metadata_name v)%string) ∧
  (metadata_names meta_dir w ≡ₚ
     metadata_name <$> ["20240101-0000"; "20240601-1200"; "20230101-0000"] →
   (_discover_latest_version meta_dir w).1 = Ok "20240601-1200").
Proof.
  split_and!.
  - split.
    + intros Hnil. rewrite discover_latest_version_run, Hnil. simpl. eauto.
    + intros [msg Hmsg]. destruct (metadata_names meta_dir w) eqn:Hn; [done|].
      destruct (discover_latest_version_Ok meta_dir w) as (v & Hv & _);
        congruence.
  - apply discover_latest_version_Ok.
  - intros Hperm.
    destruct (discover_latest_version_Ok meta_dir w) as (v & -> & Hin & Hmax).
    { intros Hnil. rewrite Hnil in Hperm. by apply Permutation_nil_l in Hperm. }
    f_equal. rewrite Hperm in Hin.
    assert (metadata_name "20240601-1200" ∈ metadata_names meta_dir w) as Hbig.
    { rewrite Hperm. apply list_elem_of_fmap_2.
      apply list_elem_of_further, list_elem_of_here. }
    apply Hmax in Hbig.
    apply list_elem_of_fmap in Hin as (v' & ->%metadata_name_inj & Hv').
    repeat (apply elem_of_cons in Hv' as [->|Hv']); [by vm_compute in Hbig|done
      |by vm_compute in Hbig|by apply elem_of_nil in Hv'].
Qed.

(** C10.  Every name the discovery pattern matches has a stem that starts
    with [cyber_ids_metadata_]; so the discovery never raises the
    malformed-name error: when it fails, it fails with the no-files-found
    error. *)
Theorem discover_latest_version_never_malformed meta_dir w :
  (∀ n, fnmatch (METADATA_BASENAME +:+ "_*" +:+ META_SUFFIX) n = true →
        startswith (stem (meta_dir / n)%path) (METADATA_BASENAME +:+ "_") = true) ∧
  (∀ msg, (_discover_latest_version meta_dir w).1 ≠ Raise (ValueError msg)) ∧
  (∀ e, (_discover_latest_version meta_dir w).1 = Raise e →
        ∃ msg, e = FileNotFoundError msg).
Proof.
  split_and!.
  - intros n [v ->]%fnmatch_metadata. rewrite stem_metadata.
    change (METADATA_BASENAME +:+ "_" +:+ v)
      with ((METADATA_BASENAME +:+ "_") +:+ v).
    apply startswith_append.
  - intros msg. rewrite discover_latest_version_run. cbn [fst].
    by destruct (last _).
  - intros e. rewrite discover_latest_version_run. cbn [fst].
    destruct (last _); [done|]. intros [= <-]. eauto.
Qed.

(** ** Loading and the cache *)

Section loading.
Context (APP_DIR : string).

Lemma disk_log_only_refl w : disk_log_only w w.
Proof. by repeat split. Qed.

Lemma disk_log_only_trans w1 w2 w3 :
  disk_log_only w1 w2 → disk_log_only w2 w3 → disk_log_only w1 w3.
Proof.
  unfold disk_log_only. intros (?&?&?&?) (?&?&?&?). repeat split; congruence.
Qed.

Lemma disk_log_only_log_io ev w : disk_log_only w (log_io ev w).
Proof. by repeat split. Qed.

Lemma disk_log_only_same_cache w w' : disk_log_only w w' → same_cache w w'.
Proof. by intros (?&?&_). Qed.

Lemma same_cache_trans w1 w2 w3 :
  same_cache w1 w2 → same_cache w2 w3 → same_cache w1 w3.
Proof. unfold same_cache. intros [??] [??]. split; congruence. Qed.

Lemma discover_frame meta_dir w r w' :
  _discover_latest_version meta_dir w = (r, w') → disk_log_only w w'.
Proof.
  rewrite discover_latest_version_run. intros [= _ <-].
  apply disk_log_only_log_io.
Qed.

Lemma resolve_version_frame version w r w' :
  resolve_version APP_DIR version w = (r, w') → disk_log_only w w'.
Proof.
  destruct version as [v|]; simpl.
  - intros [= _ <-]. apply disk_log_only_refl.
  - apply discover_frame.
Qed.

(** The loop over the paths stops at the first missing one and names it. *)
Lemma check_exist_run ps w :
  ∃ w', disk_log_only w w' ∧
    check_exist ps w =
    (match list_find (λ p, fs w !! str p = None) ps with
     | Some (_, p) =>
         Raise (FileNotFoundError ("Expected artifact not found: " +:+ str p))
     | None => Ok ()
     end, w').
Proof.
  revert w. induction ps as [|p ps IH]; intros w.
  - exists w. split; [apply disk_log_only_refl|done].
  - cbn [check_exist list_find]. unfold mbind, M_bind, exists_.
    destruct (fs w !! str p) as [x|] eqn:Hp.
    + rewrite bool_decide_eq_true_2 by eauto. cbn [negb].
      destruct (IH (log_io (IOExists (str p)) w)) as (w' & Hw' & ->).
      exists w'. split.
      * eapply disk_log_only_trans; [apply disk_log_only_log_io|done].
      * rewrite decide_False by done. cbn [fs log_io].
        by destruct (list_find _ ps) as [[k q]|].
    + rewrite bool_decide_eq_false_2 by (by intros [? ?]). cbn [negb].
      eexists. split; [apply disk_log_only_log_io|].
      by rewrite decide_True.
Qed.

Lemma joblib_load_model_frame p w r w' :
  joblib_load_model p w = (r, w') → disk_log_only w w'.
Proof. intros [= _ <-]. apply disk_log_only_log_io. Qed.

Lemma joblib_load_sanitizer_frame p w r w' :
  joblib_load_sanitizer p w = (r, w') → disk_log_only w w'.
Proof. intros [= _ <-]. apply disk_log_only_log_io. Qed.

Lemma json_load_frame p w r w' :
  json_load p w = (r, w') → disk_log_only w w'.
Proof. intros [= _ <-]. apply disk_log_only_log_io. Qed.

Lemma check_exist_frame ps w r w' :
  check_exist ps w = (r, w') → disk_log_only w w'.
Proof.
  destruct (check_exist_run ps w) as (w'' & Hw & ->). by intros [= _ <-].
Qed.

Lemma lift_frame {A} (x : result A) w r w' : lift x w = (r, w') → w' = w.
Proof. by intros [= _ <-]. Qed.

(** One step of a monadic run: name the outcome of the first action. *)
Ltac mstep :=
  unfold mbind at 1, M_bind at 1;
  match goal with
  | |- context [let (_, _) := ?c in _] =>
      let H := fresh "Hstep" in
      destruct c as [[?|?] ?] eqn:H
  end.

(** With the existence check passed or not, [load_from_disk] leaves the
    files alone; it writes the cache exactly when it returns and
    [use_cache] is set. *)
Lemma load_from_disk_cache version use_cache w r w' :
  load_from_disk APP_DIR version use_cache w = (r, w') →
  fs w' = fs w ∧
  match r with
  | Ok b =>
      if use_cache then _ARTIFACT_CACHE w' = Some b
      else _ARTIFACT_CACHE w' = _ARTIFACT_CACHE w
  | Raise _ => _ARTIFACT_CACHE w' = _ARTIFACT_CACHE w
  end.
Proof.
  unfold load_from_disk.
  change (match version with
          | Some v => mret v
          | None => _discover_latest_version (META_DIR APP_DIR)
          end) with (resolve_version APP_DIR version).
  mstep; [|intros [= <- <-]; by apply resolve_version_frame in Hstep as (?&?&_)].
  apply resolve_version_frame, disk_log_only_same_cache in Hstep.
  cbv zeta.
  mstep; apply check_exist_frame, disk_log_only_same_cache in Hstep0;
    pose proof (same_cache_trans _ _ _ Hstep Hstep0) as H1;
    [|by intros [= <- <-]].
  mstep; apply joblib_load_model_frame, disk_log_only_same_cache in Hstep1;
    pose proof (same_cache_trans _ _ _ H1 Hstep1) as H2;
    [|by intros [= <- <-]].
  mstep; apply json_load_frame, disk_log_only_same_cache in Hstep2;
    pose proof (same_cache_trans _ _ _ H2 Hstep2) as H3;
    [|by intros [= <- <-]].
  mstep; apply lift_frame in Hstep3; subst; [|by intros [= <- <-]].
  mstep; apply json_load_frame, disk_log_only_same_cache in Hstep3;
    pose proof (same_cache_trans _ _ _ H3 Hstep3) as H4;
    [|by intros [= <- <-]].
  mstep; apply joblib_load_sanitizer_frame, disk_log_only_same_cache in Hstep4;
    pose proof (same_cache_trans _ _ _ H4 Hstep4) as H5;
    [|by intros [= <- <-]].
  unfold mbind, M_bind, new, write_cache, mret, M_ret. destruct H5 as [Hfs Hc].
  destruct use_cache; simpl; by intros [= <- <-].
Qed.

Lemma load_artifacts_run version use_cache w :
  load_artifacts APP_DIR version use_cache w =
  match _ARTIFACT_CACHE w with
  | Some bundle =>
      if use_cache && is_None version then (Ok bundle, w)
      else load_from_disk APP_DIR version use_cache w
  | None => load_from_disk APP_DIR version use_cache w
  end.
Proof.
  unfold load_artifacts, mbind, M_bind, read_cache.
  destruct (_ARTIFACT_CACHE w); [|done].
  by destruct (use_cache && is_None version).
Qed.

Lemma load_artifacts_not_served version use_cache w :
  served_from_cache version use_cache w = false →
  load_artifacts APP_DIR version use_cache w
    = load_from_disk APP_DIR version use_cache w.
Proof.
  unfold served_from_cache. rewrite load_artifacts_run.
  destruct (_ARTIFACT_CACHE w) as [b|]; [|done].
  rewrite bool_decide_eq_true_2 by eauto. rewrite andb_true_r.
  by intros ->.
Qed.

(** C4.  A call that is not served from the cache and resolves version [v]:
    when one of the four artifact files of [v] does not exist, the call
    raises the missing-artifact error whose message names a missing one of
    the four paths (the first in the order model, feature list, metadata,
    sanitizer); no bundle is returned, and the cache and the files are as
    before the call. *)
Theorem load_artifacts_missing version use_cache w v w1 :
  served_from_cache version use_cache w = false →
  resolve_version APP_DIR version w = (Ok v, w1) →
  Exists (λ p, fs w !! str p = None) (artifact_paths APP_DIR v) →
  ∃ k p w',
    list_find (λ p, fs w !! str p = None) (artifact_paths APP_DIR v) = Some (k, p) ∧
    load_artifacts APP_DIR version use_cache w =
      (Raise (FileNotFoundError ("Expected artifact not found: " +:+ str p)), w') ∧
    _ARTIFACT_CACHE w' = _ARTIFACT_CACHE w ∧
    fs w' = fs w.
Proof.
  intros Hserved Hres Hmissing.
  rewrite load_artifacts_not_served by done.
  apply Exists_exists in Hmissing as (q & Hq & Hqmiss).
  destruct (list_find_elem_of (λ p, fs w !! str p = None)
              (artifact_paths APP_DIR v) q Hq Hqmiss) as [[k p] Hfind].
  pose proof (resolve_version_frame _ _ _ _ Hres) as Hw1.
  destruct (check_exist_run (artifact_paths APP_DIR v) w1) as (w' & Hw' & Hrun).
  assert (fs w1 = fs w) as Hfs by apply Hw1.
  rewrite Hfs, Hfind in Hrun.
  exists k, p, w'. split; [done|]. split.
  - unfold load_from_disk.
    change (match version with
            | Some v => mret v
            | None => _discover_latest_version (META_DIR APP_DIR)
            end) with (resolve_version APP_DIR version).
    unfold mbind at 1, M_bind at 1. rewrite Hres. cbv zeta.
    unfold mbind at 1, M_bind at 1.
    change (check_exist _ w1) with (check_exist (artifact_paths APP_DIR v) w1).
    by rewrite Hrun.
  - destruct (disk_log_only_trans _ _ _ Hw1 Hw') as (?&?&_). done.
Qed.

(** C5.  With the cache populated, a call with [use_cache] set and no
    version returns the cached object itself and leaves the world as it is:
    nothing is added to the trace of disk accesses.  In particular, after a
    returning [load_artifacts()], a second call returns the same object and
    reads nothing. *)
Theorem load_artifacts_cached w b :
  (_ARTIFACT_CACHE w = Some b →
   load_artifacts APP_DIR None true w = (Ok b, w)) ∧
  (∀ w1, load_artifacts APP_DIR None true w = (Ok b, w1) →
         load_artifacts APP_DIR None true w1 = (Ok b, w1) ∧
         disk_log (load_artifacts APP_DIR None true w1).2 = disk_log w1).
Proof.
  assert (∀ w, _ARTIFACT_CACHE w = Some b →
               load_artifacts APP_DIR None true w = (Ok b, w)) as Hfast.
  { intros w0 Hc. by rewrite load_artifacts_run, Hc. }
  split; [apply Hfast|].
  intros w1 Hrun.
  assert (_ARTIFACT_CACHE w1 = Some b) as Hc.
  { rewrite load_artifacts_run in Hrun.
    destruct (_ARTIFACT_CACHE w) as [b'|] eqn:Hcw; simpl in Hrun.
    - by injection Hrun as -> <-.
    - by apply load_from_disk_cache in Hrun as [_ Hrun]. }
  by rewrite (Hfast w1 Hc).
Qed.

(** C6, as the code has it.  The cache slot is written by every call of
    [load_artifacts] that returns with [use_cache] set, whether or not a
    version was given: after it the slot holds the returned bundle.  A call
    that raises and a call with [use_cache] unset leave the slot as it
    was. *)
Theorem load_artifacts_cache_write version use_cache w r w' :
  load_artifacts APP_DIR version use_cache w = (r, w') →
  match r with
  | Ok b =>
      if use_cache then _ARTIFACT_CACHE w' = Some b
      else _ARTIFACT_CACHE w' = _ARTIFACT_CACHE w
  | Raise _ => _ARTIFACT_CACHE w' = _ARTIFACT_CACHE w
  end.
Proof.
  rewrite load_artifacts_run.
  destruct (_ARTIFACT_CACHE w) as [b'|] eqn:Hc.
  - destruct (use_cache && is_None version) eqn:Hfast.
    + intros [= <- <-]. apply andb_prop in Hfast as [-> _]. done.
    + intros [_ H]%load_from_disk_cache. by rewrite Hc in H.
  - intros [_ H]%load_from_disk_cache. by rewrite Hc in H.
Qed.

End loading.

(** ** The sanitizer on clean frames *)

Lemma cell_Forall {A} (P : A → Prop) (a : list (list A)) i j x :
  Forall (Forall P) a → cell a i j = Some x → P x.
Proof.
  intros Ha Hx. unfold cell in Hx.
  destruct (a !! i) as [row|] eqn:Hrow; simplify_eq/=.
  rewrite Forall_forall in Ha.
  pose proof (Ha row (list_elem_of_lookup_2 _ _ _ Hrow)) as Hr.
  rewrite Forall_forall in Hr. eauto using list_elem_of_lookup_2.
Qed.

(** On a clean frame nothing is repaired and nothing is printed. *)
Lemma apply_sanitizer_clean_run X s nm w :
  clean s X →
  apply_sanitizer X s nm w =
  (Ok {| df_index := df_index X; df_columns := columns s;
         df_values := np.map2d (λ x, np.astype_float32 (np.astype_float64 x))
                               (df_values X) |}, w).
Proof.
  intros [Hcols Hfin]. rewrite apply_sanitizer_unfold.
  unfold reindex. rewrite decide_True by done. cbv zeta.
  assert (np.any (np.map2d (λ x, negb (np.isfinite x))
                    (np.map2d np.astype_float64 (df_values X))) = false) as ->.
  { apply any_false. intros i j y. rewrite cell_map2d.
    destruct (cell (df_values X) i j) as [x|] eqn:Hx; [|done].
    intros [= <-]. by rewrite (Hfin i j x Hx). }
  assert (np.map2d to_nan (np.map2d np.astype_float64 (df_values X))
          = np.map2d np.astype_float64 (df_values X)) as ->.
  { apply map2d_id_in. intros i j y. rewrite cell_map2d.
    destruct (cell (df_values X) i j) as [x|] eqn:Hx; [|done].
    intros [= <-]. unfold to_nan. by rewrite (Hfin i j x Hx). }
  assert (np.any (np.map2d np.isnan
                    (np.map2d np.astype_float64 (df_values X))) = false) as ->.
  { apply any_false. intros i j y. rewrite cell_map2d.
    destruct (cell (df_values X) i j) as [x|] eqn:Hx; [|done].
    intros [= <-]. specialize (Hfin i j x Hx).
    by destruct (np.astype_float64 x). }
  by rewrite map2d_map2d.
Qed.

(** C7, as the code has it.  On a clean frame [apply_sanitizer] returns the
    float32 of every datum, under the same index and columns, and prints
    nothing: no repair is reported.  When no datum leaves the range of
    float32, applying the sanitizer to its own output gives that output
    again. *)
Theorem apply_sanitizer_clean X s nm w :
  clean s X →
  apply_sanitizer X s nm w =
    (Ok {| df_index := df_index X; df_columns := columns s;
           df_values := np.map2d (λ x, np.astype_float32 (np.astype_float64 x))
                                 (df_values X) |}, w) ∧
  (within_float32 X →
   sanitize_twice X s nm w = apply_sanitizer X s nm w).
Proof.
  intros Hclean. split; [by apply apply_sanitizer_clean_run|].
  intros Hrange. unfold sanitize_twice, mbind, M_bind.
  rewrite (apply_sanitizer_clean_run X s nm w Hclean).
  rewrite apply_sanitizer_clean_run.
  - simpl. do 3 f_equal. rewrite map2d_map2d. apply map2d_ext_in.
    intros i j x _. apply f32_f64_f32.
  - split; [done|]. simpl. intros i j y. rewrite cell_map2d.
    destruct (cell (df_values X) i j) as [x|] eqn:Hx; [|done].
    intros [= <-]. apply isfinite_f64_f32. by apply (Hrange i j x).
Qed.

(** * The properties at concrete data *)

Lemma wf_ab_frame : wf_frame example.ab_frame.
Proof.
  split; [|reflexivity|by repeat constructor].
  apply (bool_decide_unpack _). by vm_compute.
Defined.

Lemma wf_request : wf_frame example.request.
Proof.
  split; [|reflexivity|by repeat constructor].
  apply (bool_decide_unpack _). by vm_compute.
Defined.

(** The row of the specification: [a = NaN, b = 5.0] with medians 1.0 and
    2.0 becomes [a = 1.0, b = 5.0]. *)
Lemma apply_sanitizer_spec_witness :
  wf_frame example.ab_frame ∧
  length (medians example.ab_spec) = length (columns example.ab_spec) ∧
  ∃ T w',
    apply_sanitizer example.ab_frame example.ab_spec "X_request" example.idle
      = (Ok T, w') ∧
    df_columns T = ["a"; "b"] ∧
    cell (df_values T) 0 0 = Some (np.astype_float32 (example.int 1)) ∧
    cell (df_values T) 0 1 = Some (np.astype_float32 (example.int 5)).
Proof.
  split; [exact wf_ab_frame|]. split; [reflexivity|].
  destruct (apply_sanitizer_spec example.ab_frame example.ab_spec "X_request"
              example.idle wf_ab_frame eq_refl)
    as (T & w' & Hrun & Hcols & _ & _ & Hcell).
  exists T, w'. split; [exact Hrun|]. split; [exact Hcols|]. split.
  - exact (Hcell 0%nat 0%nat "a" (example.int 1) (le_n 1) eq_refl eq_refl).
  - exact (Hcell 0%nat 1%nat "b" (example.int 2) (le_n 1) eq_refl eq_refl).
Defined.

Lemma apply_sanitizer_no_nan_witness :
  Forall (λ m, np.isfinite m = true) (medians example.ports_spec) ∧
  (length (columns example.ports_spec) ≤ length (medians example.ports_spec))%nat ∧
  (∃ T w', apply_sanitizer example.request example.ports_spec "X_request"
             example.idle = (Ok T, w')) ∧
  (∀ T w' i j y,
     apply_sanitizer example.request example.ports_spec "X_request"
       example.idle = (Ok T, w') →
     cell (df_values T) i j = Some y → np.isnan y = false).
Proof.
  assert (Forall (λ m, np.isfinite m = true) (medians example.ports_spec)) as Hfin
    by (by repeat constructor).
  assert (length (columns example.ports_spec)
            ≤ length (medians example.ports_spec))%nat as Hlen
    by (vm_compute; lia).
  split; [exact Hfin|]. split; [exact Hlen|].
  destruct (apply_sanitizer_no_nan example.request example.ports_spec
              "X_request" example.idle Hfin Hlen) as [Hret Hnan].
  split; [exact (Hret wf_request)|exact Hnan].
Defined.


(** The comparison across formats and ways of writing a number: 0.25 as a
    float32 datum is below 0.5, and so is [1 * 2^-2]; 0.5 is at least
    [1 * 2^-1]; 0.75 as a float32 datum is below 1. *)
Example ge_across_formats :
  np.ge (S754_finite false 8388608 (-25)) DEFAULT_DECISION_THRESHOLD = false ∧
  np.ge (S754_finite false 1 (-2)) DEFAULT_DECISION_THRESHOLD = false ∧
  np.ge DEFAULT_DECISION_THRESHOLD (S754_finite false 1 (-1)) = true ∧
  np.ge (S754_finite false 12582912 (-24)) (example.int 1) = false.
Proof. by vm_compute. Qed.

(** Scoring with a bundle whose feature list lacks [dst_port]: the input's
    destination ports are replaced by the median 0.5. *)
Lemma predict_from_dataframe_scores_witness :
  predict_from_dataframe example.APP_DIR example.request None
    (Some example.narrow_bundle) None example.idle
  = (Ok ([DEFAULT_DECISION_THRESHOLD; DEFAULT_DECISION_THRESHOLD;
          DEFAULT_DECISION_THRESHOLD],
         [1; 1; 1], example.narrow_bundle),
     {| fs := ∅; _ARTIFACT_CACHE := None; next_id := 0; disk_log := [];
        stdout :=
          ["[WARN] X_request: found 3 non-finite values; converting to NaN.";
           "[INFO] X_request: imputing 3 NaNs with training medians."] |}) ∧
  ∃ X_clean,
    column_1 (predict_proba example.scorer X_clean)
      = Ok [DEFAULT_DECISION_THRESHOLD; DEFAULT_DECISION_THRESHOLD;
            DEFAULT_DECISION_THRESHOLD] ∧
    df_columns X_clean = ["src_port"; "dst_port"] ∧
    ∀ i, (i < 3)%nat →
      cell (df_values X_clean) i 1
        = Some (np.astype_float32 DEFAULT_DECISION_THRESHOLD).
Proof.
  match goal with |- ?H ∧ _ => assert H as Hrun by (vm_compute; reflexivity) end.
  split; [exact Hrun|].
  destruct (predict_from_dataframe_scores _ _ _ _ _ _ _ _ _ _ Hrun)
    as (df' & X_clean & w0 & _ & _ & Hcol & Hcols & _ & Hcell).
  exists X_clean. split; [exact Hcol|]. split; [exact Hcols|].
  intros i Hi.
  destruct (Hcell i 1%nat "dst_port" Hi eq_refl) as (m & Hm & ->).
  - apply (bool_decide_unpack _). by vm_compute.
  - by injection Hm as <-.
Defined.

(** Version 20240101-0000 without its sanitizer file: the call names that
    file and the cache still holds the latest bundle. *)
Lemma load_artifacts_missing_witness :
  served_from_cache (Some "20240101-0000") true example.world_incomplete = false ∧
  resolve_version example.APP_DIR (Some "20240101-0000") example.world_incomplete
    = (Ok "20240101-0000", example.world_incomplete) ∧
  Exists (λ p, fs example.world_incomplete !! str p = None)
         (artifact_paths example.APP_DIR "20240101-0000") ∧
  ∃ k p w',
    list_find (λ p, fs example.world_incomplete !! str p = None)
              (artifact_paths example.APP_DIR "20240101-0000") = Some (k, p) ∧
    load_artifacts example.APP_DIR (Some "20240101-0000") true
      example.world_incomplete
    = (Raise (FileNotFoundError ("Expected artifact not found: " +:+ str p)), w') ∧
    _ARTIFACT_CACHE w' = Some example.latest ∧
    fs w' = fs example.world_incomplete.
Proof.
  assert (Exists (λ p, fs example.world_incomplete !! str p = None)
            (artifact_paths example.APP_DIR "20240101-0000")) as Hmiss.
  { do 3 apply Exists_cons_tl. apply Exists_cons_hd. by vm_compute. }
  split; [reflexivity|]. split; [reflexivity|]. split; [exact Hmiss|].
  exact (load_artifacts_missing example.APP_DIR (Some "20240101-0000") true
           example.world_incomplete "20240101-0000" example.world_incomplete
           eq_refl eq_refl Hmiss).
Defined.

Example load_artifacts_missing_message :
  (load_artifacts example.APP_DIR (Some "20240101-0000") true
     example.world_incomplete).1
  = Raise (FileNotFoundError
      "Expected artifact not found: /srv/app/cyber_ids/artifacts/meta/cyber_ids_sanitizer_20240101-0000.joblib").
Proof. by vm_compute. Qed.

(** The first [load_artifacts()] of a process reads the latest version from
    disk and caches it; the second returns the same object and reads
    nothing. *)
Example load_artifacts_twice :
  (load_artifacts example.APP_DIR None true example.world0).1
    = Ok example.latest ∧
  _ARTIFACT_CACHE (load_artifacts example.APP_DIR None true example.world0).2
    = _ARTIFACT_CACHE example.world1 ∧
  disk_log (load_artifacts example.APP_DIR None true example.world0).2
    = disk_log example.world1 ∧
  (load_artifacts example.APP_DIR None true example.world1).1
    = Ok example.latest ∧
  disk_log (load_artifacts example.APP_DIR None true example.world1).2
    = disk_log example.world1.
Proof. split_and!; by vm_compute. Qed.

(** The process after [load_artifacts(version="20240101-0000")]: the cache
    holds the bundle of that version. *)
Lemma load_artifacts_cache_write_witness :
  load_artifacts example.APP_DIR (Some "20240101-0000") true example.world1
  = (Ok {| obj_id := 1; obj_val := example.bundle "20240101-0000" |},
     (load_artifacts example.APP_DIR (Some "20240101-0000") true
        example.world1).2) ∧
  _ARTIFACT_CACHE
    (load_artifacts example.APP_DIR (Some "20240101-0000") true example.world1).2
  = Some {| obj_id := 1; obj_val := example.bundle "20240101-0000" |}.
Proof.
  assert ((load_artifacts example.APP_DIR (Some "20240101-0000") true
             example.world1).1
          = Ok {| obj_id := 1; obj_val := example.bundle "20240101-0000" |})
    as Hret by (vm_compute; reflexivity).
  assert (load_artifacts example.APP_DIR (Some "20240101-0000") true
            example.world1
          = (Ok {| obj_id := 1; obj_val := example.bundle "20240101-0000" |},
             (load_artifacts example.APP_DIR (Some "20240101-0000") true
                example.world1).2)) as Hrun
    by (rewrite <- Hret; apply surjective_pairing).
  split; [exact Hrun|].
  exact (load_artifacts_cache_write _ _ _ _ _ _ Hrun).
Defined.

(** C6, the claim refuted: with the latest bundle in the cache, a call with
    an explicit older version replaces it, and the next [load_artifacts()]
    is served the older bundle. *)
Lemma load_artifacts_explicit_version_overwrites :
  _ARTIFACT_CACHE example.world1 = Some example.latest ∧
  _ARTIFACT_CACHE
    (load_artifacts example.APP_DIR (Some "20240101-0000") true example.world1).2
  = Some {| obj_id := 1; obj_val := example.bundle "20240101-0000" |} ∧
  (load_artifacts example.APP_DIR None true
     (load_artifacts example.APP_DIR (Some "20240101-0000") true example.world1).2).1
  = Ok {| obj_id := 1; obj_val := example.bundle "20240101-0000" |}.
Proof. split_and!; by vm_compute. Qed.

(** The three versions of the specification. *)
Example discover_latest_version_example :
  (_discover_latest_version "/meta"
     {| fs := list_to_map
                ((λ v, ("/meta/" +:+ metadata_name v, Unreadable))
                   <$> ["20240101-0000"; "20240601-1200"; "20230101-0000"]);
        _ARTIFACT_CACHE := None; next_id := 0; disk_log := [];
        stdout := [] |}).1
  = Ok "20240601-1200".
Proof. by vm_compute. Qed.

Lemma clean_clean_frame : clean example.ports_spec example.clean_frame.
Proof.
  split; [reflexivity|]. intros i j x.
  apply (cell_Forall (λ x, np.isfinite (np.astype_float64 x) = true)).
  by repeat constructor.
Defined.

(** A clean frame of ports: sanitizing it once or twice gives the ports as
    float32. *)
Lemma apply_sanitizer_clean_witness :
  clean example.ports_spec example.clean_frame ∧
  apply_sanitizer example.clean_frame example.ports_spec "X_request" example.idle
  = (Ok {| df_index := [0]; df_columns := ["src_port"; "dst_port"];
           df_values := [[np.astype_float32 (example.int 80);
                          np.astype_float32 (example.int 443)]] |},
     example.idle) ∧
  sanitize_twice example.clean_frame example.ports_spec "X_request" example.idle
  = apply_sanitizer example.clean_frame example.ports_spec "X_request"
      example.idle.
Proof.
  destruct (apply_sanitizer_clean example.clean_frame example.ports_spec
              "X_request" example.idle clean_clean_frame) as [Hrun Htwice].
  split; [exact clean_clean_frame|]. split; [exact Hrun|].
  apply Htwice. intros i j x.
  apply (cell_Forall
           (λ x, np.isfinite (np.astype_float32 (np.astype_float64 x)) = true)).
  by repeat constructor.
Defined.

(** C7, the claim refuted: the clean frame holding 2^128 is sanitized to
    +infinity (the float32 cast overflows, and the value is not numerically
    the input's); sanitizing that output replaces the infinity by the
    median 0 and reports repairs.  Twice is not once. *)
Lemma sanitize_twice_overflow :
  clean example.a_spec example.huge_frame ∧
  apply_sanitizer example.huge_frame example.a_spec "X_request" example.idle
  = (Ok {| df_index := [0]; df_columns := ["a"];
           df_values := [[S754_infinity false]] |}, example.idle) ∧
  sanitize_twice example.huge_frame example.a_spec "X_request" example.idle
  = (Ok {| df_index := [0]; df_columns := ["a"];
           df_values := [[S754_zero false]] |},
     {| fs := ∅; _ARTIFACT_CACHE := None; next_id := 0; disk_log := [];
        stdout :=
          ["[WARN] X_request: found 1 non-finite values; converting to NaN.";
           "[INFO] X_request: imputing 1 NaNs with training medians."] |}) ∧
  sanitize_twice example.huge_frame example.a_spec "X_request" example.idle
  ≠ apply_sanitizer example.huge_frame example.a_spec "X_request" example.idle.
Proof.
  split_and!.
  - split; [reflexivity|]. intros i j x.
    apply (cell_Forall (λ x, np.isfinite (np.astype_float64 x) = true)).
    by repeat constructor.
  - by vm_compute.
  - by vm_compute.
  - intros H. by vm_compute in H.
Qed.

(** * Further properties of the service *)

(** ** The sanitizer: outcome, diagnostics, shape *)

Lemma any_sum (m : np.mask) : np.any m = false ↔ np.sum m = 0%nat.
Proof.
  unfold np.any, np.sum. induction m as [|row m IH]; simpl; [done|].
  rewrite orb_false_iff, IH.
  assert (existsb id row = false ↔ length (filter (λ b, b = true) row) = 0%nat)
    as ->.
  { clear. induction row as [|[] row IH]; [done| |].
    - rewrite filter_cons_True by done. simpl. split; [done|lia].
    - rewrite filter_cons_False by done. exact IH. }
  lia.
Qed.

Lemma non_finite_mask_eq (a : np.ndarray) :
  np.map2d (λ x, negb (np.isfinite x)) (np.map2d np.astype_float64 a)
  = np.map2d (λ x, negb (np.isfinite (np.astype_float64 x))) a.
Proof.
  exact (map2d_map2d np.astype_float64 (λ x, negb (np.isfinite x)) a).
Qed.

Lemma nan_mask_eq (a : np.ndarray) :
  np.map2d np.isnan (np.map2d to_nan (np.map2d np.astype_float64 a))
  = np.map2d (λ x, negb (np.isfinite (np.astype_float64 x))) a.
Proof.
  rewrite !map2d_map2d. apply map2d_ext_in. intros i j x _.
  exact (isnan_to_nan (np.astype_float64 x)).
Qed.

(** Whatever its outcome, the sanitizer changes the printed lines only. *)
Lemma apply_sanitizer_frame X s nm w r w' :
  apply_sanitizer X s nm w = (r, w') → printed_only w w'.
Proof.
  rewrite apply_sanitizer_unfold.
  destruct (reindex X (columns s)) as [X_num|e];
    [|intros [= _ <-]; apply printed_only_refl].
  cbv zeta.
  destruct (np.any (np.map2d (λ x, negb (np.isfinite x)) _));
    (destruct (np.any (np.map2d np.isnan _));
     [destruct (fancy_index _ _)|]); by intros [= _ <-].
Qed.

(** X1.  Whatever the outcome, [apply_sanitizer] prints nothing when every
    cell of the reindexed frame is finite, and otherwise the warning and
    the information line, both with the number of cells that are not
    finite (NaN cells and the cells of absent columns counted); it touches
    nothing else of the process. *)
Theorem apply_sanitizer_prints X s nm w X_num r w' :
  reindex X (columns s) = Ok X_num →
  apply_sanitizer X s nm w = (r, w') →
  stdout w' = stdout w ++ diagnostics nm (count_non_finite (df_values X_num)) ∧
  printed_only w w'.
Proof.
  intros HX. rewrite apply_sanitizer_unfold, HX. cbv zeta.
  rewrite nan_mask_eq, non_finite_mask_eq.
  unfold diagnostics, count_non_finite.
  set (M := np.map2d (λ x, negb (np.isfinite (np.astype_float64 x)))
              (df_values X_num)).
  destruct (np.any M) eqn:Hany.
  - assert (np.sum M ≠ 0%nat) as Hsum.
    { intros H%any_sum. congruence. }
    rewrite decide_False by done.
    destruct (fancy_index _ _); intros [= <- <-]; simpl;
      by rewrite <- app_assoc.
  - apply any_sum in Hany as ->. rewrite decide_True by done.
    intros [= <- <-]. by rewrite app_nil_r.
Qed.

Lemma fancy_index_raises (a : list spec_float) js e :
  fancy_index a js = Raise e → e = IndexError "index is out of bounds for axis 0".
Proof. unfold fancy_index. destruct (mapM _ _); by intros [= <-]. Qed.

(** X2.  Once the reindexing has succeeded, [apply_sanitizer] returns
    exactly when every cell that is not finite sits at a column position
    below the number of medians; otherwise it raises the index error of
    [medians[inds[1]]]. *)
Theorem apply_sanitizer_returns_iff X s nm w X_num :
  reindex X (columns s) = Ok X_num →
  ((∃ T w', apply_sanitizer X s nm w = (Ok T, w'))
   ↔ repairs_in_range s (df_values X_num)) ∧
  (¬ repairs_in_range s (df_values X_num) →
   ∃ w', apply_sanitizer X s nm w
         = (Raise (IndexError "index is out of bounds for axis 0"), w')).
Proof.
  intros HX.
  assert (repairs_in_range s (df_values X_num) →
          ∃ T w', apply_sanitizer X s nm w = (Ok T, w')) as Hret.
  { intros Hrange. rewrite apply_sanitizer_unfold, HX. cbv zeta.
    destruct (np.any (np.map2d np.isnan _)); [|eauto].
    destruct (fancy_index_total (np.astype_float64 <$> medians s)
      ((np.where_ (np.map2d np.isnan (np.map2d to_nan
         (np.map2d np.astype_float64 (df_values X_num))))).*2)) as [vals ->];
      [|eauto].
    apply Forall_forall. intros j Hj.
    apply list_elem_of_fmap in Hj as ([i j'] & -> & Hij). simpl.
    apply elem_of_where in Hij. rewrite !cell_map2d in Hij.
    destruct (cell (df_values X_num) i j') as [x|] eqn:Hx; [|done].
    simpl in Hij. injection Hij as Hij. rewrite isnan_to_nan in Hij.
    rewrite length_fmap. apply (Hrange i j' x Hx).
    by apply negb_true_iff. }
  assert ((∃ T w', apply_sanitizer X s nm w = (Ok T, w')) →
          repairs_in_range s (df_values X_num)) as Hinv.
  { intros (T & w' & Hrun) i j x Hx Hfin.
    apply apply_sanitizer_cells in Hrun as (X_num' & HX' & _ & _ & _ & _ & Hmed & _).
    assert (X_num' = X_num) as -> by congruence.
    by apply lookup_lt_is_Some_1, (Hmed i j x). }
  split; [by split|].
  intros Hnot.
  destruct (apply_sanitizer X s nm w) as [[T|e] w'] eqn:Hrun.
  - destruct Hnot. apply Hinv. eauto.
  - exists w'. do 2 f_equal.
    rewrite apply_sanitizer_unfold, HX in Hrun. cbv zeta in Hrun.
    destruct (np.any (np.map2d np.isnan _)); [|done].
    destruct (fancy_index _ _) as [vals|e'] eqn:He; [done|].
    injection Hrun as <- _. by apply fancy_index_raises in He.
Qed.

Lemma widths_of_cells {A} (a : list (list A)) m :
  (∀ i j, (i < length a)%nat → is_Some (cell a i j) ↔ (j < m)%nat) →
  Forall (λ row, length row = m) a.
Proof.
  intros H. apply Forall_lookup. intros i row Hrow.
  assert (i < length a)%nat as Hi by by eapply lookup_lt_Some.
  assert (∀ j, (j < length row)%nat ↔ (j < m)%nat) as Hj.
  { intros j. rewrite <- (H i j Hi). unfold cell. rewrite Hrow. simpl.
    symmetry. apply lookup_lt_is_Some. }
  destruct (decide (length row < m)%nat) as [Hlt|Hge].
  - apply Hj in Hlt. lia.
  - destruct (decide (m < length row)%nat) as [Hlt|]; [|lia].
    apply Hj in Hlt. lia.
Qed.

(** X3.  On a well-formed frame a returning [apply_sanitizer] gives a frame
    with the index of the input, the columns of the sanitizer, one row per
    index entry and one cell per sanitizer column in every row, whatever
    columns the input had. *)
Theorem apply_sanitizer_shape X s nm w T w' :
  wf_frame X →
  apply_sanitizer X s nm w = (Ok T, w') →
  df_index T = df_index X ∧ df_columns T = columns s ∧
  length (df_values T) = length (df_index X) ∧
  Forall (λ row, length row = length (columns s)) (df_values T).
Proof.
  intros Hwf Hrun.
  apply apply_sanitizer_cells in Hrun
    as (X_num & HX & Hidx & Hcols & Hlen & Hcell & _).
  destruct (reindex_wf X (columns s) Hwf)
    as (X_num' & HX' & _ & _ & Hrows & Hsome & Hbound).
  assert (X_num' = X_num) as -> by congruence.
  split_and!; [done|done|by rewrite Hlen, Hrows, (wf_rows X Hwf)|].
  apply widths_of_cells. intros i j Hi. rewrite Hcell, fmap_is_Some. split.
  - intros [x Hx]. by apply (Hbound i j x).
  - intros Hj. apply lookup_lt_is_Some_2 in Hj as [c Hc].
    rewrite (Hsome i j c); [eauto|lia|done].
Qed.

(** X4.  An output of the sanitizer in which every cell is finite is a
    fixed point: sanitizing it again, under any name and in any state of
    the process, returns the same frame and prints nothing. *)
Theorem apply_sanitizer_fixpoint X s nm w T w' nm' w'' :
  apply_sanitizer X s nm w = (Ok T, w') →
  (∀ i j y, cell (df_values T) i j = Some y → np.isfinite y = true) →
  apply_sanitizer T s nm' w'' = (Ok T, w'').
Proof.
  intros Hrun Hfin.
  apply apply_sanitizer_cells in Hrun as (X_num & _ & _ & Hcols & _ & Hcell & _).
  assert (∀ i j y, cell (df_values T) i j = Some y →
            np.astype_float32 (np.astype_float64 y) = y ∧
            np.isfinite (np.astype_float64 y) = true) as Hvalid.
  { intros i j y Hy. pose proof (Hfin i j y Hy) as Hy'.
    rewrite Hcell in Hy.
    destruct (cell (df_values X_num) i j) as [x|]; [|done].
    injection Hy as <-. unfold sanitized_cell in *.
    destruct (f32_f64_valid _ (valid_f32
      (if np.isfinite (np.astype_float64 x) then np.astype_float64 x
       else default np.nan (np.astype_float64 <$> medians s !! j))))
      as [Heq Hf].
    by split; [|apply Hf]. }
  rewrite apply_sanitizer_clean_run.
  - destruct T as [idx cols vals]. simpl in *. subst cols. do 3 f_equal.
    apply map2d_id_in. intros i j y Hy. by apply (Hvalid i j y).
  - split; [done|]. intros i j y Hy. by apply (Hvalid i j y).
Qed.

(** ** Loading: the files read and the bundle built *)

Section loading_trace.
Context (APP_DIR : string).

Lemma log_all_cons ev evs w : log_all (ev :: evs) w = log_all evs (log_io ev w).
Proof. reflexivity. Qed.

Lemma log_all_frame evs w :
  fs (log_all evs w) = fs w ∧
  _ARTIFACT_CACHE (log_all evs w) = _ARTIFACT_CACHE w ∧
  next_id (log_all evs w) = next_id w ∧
  stdout (log_all evs w) = stdout w ∧
  disk_log (log_all evs w) = disk_log w ++ evs.
Proof.
  revert w. induction evs as [|ev evs IH]; intros w.
  - by rewrite app_nil_r.
  - rewrite log_all_cons. destruct (IH (log_io ev w)) as (-> & -> & -> & -> & ->).
    simpl. by rewrite <- app_assoc.
Qed.

(** The existence loop asks for the paths in order, up to and including
    the first missing one. *)
Lemma check_exist_trace ps w :
  check_exist ps w =
  match list_find (λ p, fs w !! str p = None) ps with
  | Some (k, p) =>
      (Raise (FileNotFoundError ("Expected artifact not found: " +:+ str p)),
       log_all (IOExists ∘ str <$> take (S k) ps) w)
  | None => (Ok (), log_all (IOExists ∘ str <$> ps) w)
  end.
Proof.
  revert w. induction ps as [|p ps IH]; intros w; [done|].
  cbn [check_exist list_find]. unfold mbind, M_bind, exists_.
  destruct (fs w !! str p) as [x|] eqn:Hp.
  - rewrite bool_decide_eq_true_2 by eauto. cbn [negb].
    rewrite IH, decide_False by done. cbn [fs log_io].
    by destruct (list_find _ ps) as [[k q]|].
  - rewrite bool_decide_eq_false_2 by (by intros [? ?]). cbn [negb].
    by rewrite decide_True.
Qed.

Lemma load_from_disk_resolve version use_cache w :
  load_from_disk APP_DIR version use_cache w =
  match resolve_version APP_DIR version w with
  | (Ok v, w1) => load_from_disk APP_DIR (Some v) use_cache w1
  | (Raise e, w1) => (Raise e, w1)
  end.
Proof.
  unfold load_from_disk.
  change (match version with
          | Some v => mret v
          | None => _discover_latest_version (META_DIR APP_DIR)
          end) with (resolve_version APP_DIR version).
  unfold mbind at 1, M_bind at 1.
  by destruct (resolve_version APP_DIR version w) as [[v|e] w1].
Qed.

End loading_trace.

Section loading_bundle.
Context (APP_DIR : string).

Lemma artifact_paths_eq v :
  artifact_paths APP_DIR v =
  [model_path APP_DIR v; feature_list_path APP_DIR v;
   metadata_path APP_DIR v; sanitizer_path APP_DIR v].
Proof. reflexivity. Qed.

(** A load of version [v] from disk that finds the four files. *)
Lemma load_from_disk_present v use_cache w m fp names md s :
  fs w !! str (model_path APP_DIR v) = Some (ModelBlob m) →
  fs w !! str (feature_list_path APP_DIR v) = Some (JsonFile fp) →
  features_of fp = Ok names →
  fs w !! str (metadata_path APP_DIR v) = Some (JsonFile md) →
  fs w !! str (sanitizer_path APP_DIR v) = Some (SanitizerBlob s) →
  let b := {| obj_id := next_id w;
              obj_val := {| version := v; model := m; feature_names := names;
                            metadata := md; sanitizer := s |} |} in
  load_from_disk APP_DIR (Some v) use_cache w
    = (Ok b, after_load APP_DIR v use_cache b w).
Proof.
  intros Hm Hf Hn Hmd Hs b. unfold load_from_disk.
  unfold mbind at 1, M_bind at 1, mret at 1, M_ret at 1. cbv zeta.
  fold (model_path APP_DIR v) (feature_list_path APP_DIR v)
       (metadata_path APP_DIR v) (sanitizer_path APP_DIR v).
  unfold mbind at 1, M_bind at 1. rewrite check_exist_trace.
  rewrite (proj2 (list_find_None _ _)).
  2:{ repeat apply Forall_cons_2; [..|apply Forall_nil_2]; congruence. }
  unfold mbind, M_bind, joblib_load_model, json_load, joblib_load_sanitizer,
    lift, new, write_cache, mret, M_ret.
  cbn [fs log_io].
  destruct (log_all_frame (IOExists ∘ str <$>
    [model_path APP_DIR v; feature_list_path APP_DIR v;
     metadata_path APP_DIR v; sanitizer_path APP_DIR v]) w)
    as (Hfs & Hc & Hid & Hout & Hlog).
  rewrite Hfs, Hm, Hf.
  change (result_bind _ _ as_str_list (json_get fp "features" (JArray [])))
    with (features_of fp).
  rewrite Hn, Hmd, Hs.
  cbn [next_id log_io]. rewrite Hid.
  unfold after_load. rewrite artifact_paths_eq.
  destruct use_cache; cbn; rewrite ?Hfs, ?Hc, ?Hout, ?Hlog, <- ?app_assoc; done.
Qed.

(** A load from disk that has gone wrong at one of the reads. *)
Ltac load_stuck v w :=
  exfalso;
  match goal with H : load_from_disk _ _ _ _ = _ |- _ => revert H end;
  unfold load_from_disk;
  unfold mbind at 1, M_bind at 1, mret at 1, M_ret at 1; cbv zeta;
  fold (model_path APP_DIR v) (feature_list_path APP_DIR v)
       (metadata_path APP_DIR v) (sanitizer_path APP_DIR v);
  unfold mbind at 1, M_bind at 1; rewrite check_exist_trace;
  (destruct (list_find _ _) as [[? ?]|]; [done|]);
  unfold mbind, M_bind, joblib_load_model, json_load, joblib_load_sanitizer,
    lift, new, write_cache, mret, M_ret;
  cbn [fs log_io];
  rewrite (proj1 (log_all_frame _ w));
  repeat match goal with
         | H : fs w !! _ = _ |- _ => rewrite H; clear H
         | H : features_of _ = _ |- _ => unfold features_of, mbind in H; rewrite H; clear H
         end;
  done.

(** A load of version [v] from disk that returns: what the files held. *)
Lemma load_from_disk_inv v use_cache w b w' :
  load_from_disk APP_DIR (Some v) use_cache w = (Ok b, w') →
  ∃ fp,
    fs w !! str (model_path APP_DIR v) = Some (ModelBlob (model (obj_val b))) ∧
    fs w !! str (feature_list_path APP_DIR v) = Some (JsonFile fp) ∧
    features_of fp = Ok (feature_names (obj_val b)) ∧
    fs w !! str (metadata_path APP_DIR v)
      = Some (JsonFile (metadata (obj_val b))) ∧
    fs w !! str (sanitizer_path APP_DIR v)
      = Some (SanitizerBlob (sanitizer (obj_val b))) ∧
    version (obj_val b) = v ∧ obj_id b = next_id w ∧
    w' = after_load APP_DIR v use_cache b w.
Proof.
  intros Hrun.
  destruct (fs w !! str (model_path APP_DIR v)) as [[m|s1|j1|]|] eqn:Hm;
    [|load_stuck v w..].
  destruct (fs w !! str (feature_list_path APP_DIR v)) as [[m2|s2|fp|]|] eqn:Hf;
    [load_stuck v w..| |load_stuck v w|load_stuck v w].
  destruct (features_of fp) as [names|e] eqn:Hn; [|load_stuck v w].
  destruct (fs w !! str (metadata_path APP_DIR v)) as [[m3|s3|md|]|] eqn:Hmd;
    [load_stuck v w..| |load_stuck v w|load_stuck v w].
  destruct (fs w !! str (sanitizer_path APP_DIR v)) as [[m4|s|j4|]|] eqn:Hs;
    [load_stuck v w| |load_stuck v w..].
  rewrite (load_from_disk_present v use_cache w m fp names md s) in Hrun by done.
  injection Hrun as <- <-. exists fp. by split_and!.
Qed.

Lemma load_artifacts_resolved version use_cache w v w1 :
  served_from_cache version use_cache w = false →
  resolve_version APP_DIR version w = (Ok v, w1) →
  load_artifacts APP_DIR version use_cache w
    = load_from_disk APP_DIR (Some v) use_cache w1 ∧
  fs w1 = fs w ∧ next_id w1 = next_id w ∧
  _ARTIFACT_CACHE w1 = _ARTIFACT_CACHE w.
Proof.
  intros Hserved Hres.
  rewrite load_artifacts_not_served, load_from_disk_resolve, Hres by done.
  apply resolve_version_frame in Hres as (? & ? & ? & _). done.
Qed.

(** X5.  A call that is not served from the cache and finds the four files
    of the resolved version [v] returns a new object whose fields are the
    model, the names under [features], the metadata and the sanitizer taken
    from those files; it asks for the four paths and only then reads them,
    in the order model, feature list, metadata, sanitizer, and stores the
    object in the cache when [use_cache] is set. *)
Theorem load_artifacts_loads version use_cache w v w1 m fp names md s :
  served_from_cache version use_cache w = false →
  resolve_version APP_DIR version w = (Ok v, w1) →
  fs w !! str (model_path APP_DIR v) = Some (ModelBlob m) →
  fs w !! str (feature_list_path APP_DIR v) = Some (JsonFile fp) →
  features_of fp = Ok names →
  fs w !! str (metadata_path APP_DIR v) = Some (JsonFile md) →
  fs w !! str (sanitizer_path APP_DIR v) = Some (SanitizerBlob s) →
  let b := {| obj_id := next_id w;
              obj_val := {| version := v; model := m; feature_names := names;
                            metadata := md; sanitizer := s |} |} in
  load_artifacts APP_DIR version use_cache w
    = (Ok b, after_load APP_DIR v use_cache b w1).
Proof.
  intros Hserved Hres Hm Hf Hn Hmd Hs b.
  destruct (load_artifacts_resolved _ _ _ _ _ Hserved Hres)
    as (-> & Hfs & Hid & _).
  rewrite <- Hfs in Hm, Hf, Hmd, Hs. subst b. rewrite <- Hid.
  by apply (load_from_disk_present v use_cache w1 m fp names md s).
Qed.

(** X6.  Whatever a call that is not served from the cache returns was on
    disk: the returned object is new, its version is the resolved one, and
    its model, feature names, metadata and sanitizer are what the four
    files of that version hold. *)
Theorem load_artifacts_inv ver use_cache w b w' :
  served_from_cache ver use_cache w = false →
  load_artifacts APP_DIR ver use_cache w = (Ok b, w') →
  ∃ w1 fp,
    let v := version (obj_val b) in
    resolve_version APP_DIR ver w = (Ok v, w1) ∧
    fs w !! str (model_path APP_DIR v) = Some (ModelBlob (model (obj_val b))) ∧
    fs w !! str (feature_list_path APP_DIR v) = Some (JsonFile fp) ∧
    features_of fp = Ok (feature_names (obj_val b)) ∧
    fs w !! str (metadata_path APP_DIR v)
      = Some (JsonFile (metadata (obj_val b))) ∧
    fs w !! str (sanitizer_path APP_DIR v)
      = Some (SanitizerBlob (sanitizer (obj_val b))) ∧
    obj_id b = next_id w ∧
    w' = after_load APP_DIR v use_cache b w1.
Proof.
  intros Hserved Hrun.
  destruct (resolve_version APP_DIR ver w) as [[v|e] w1] eqn:Hres.
  - destruct (load_artifacts_resolved _ _ _ _ _ Hserved Hres)
      as (Heq & Hfs & Hid & _).
    rewrite Heq in Hrun.
    apply load_from_disk_inv in Hrun
      as (fp & Hm & Hf & Hn & Hmd & Hs & Hv & Hb & ->).
    exists w1, fp. cbv zeta. rewrite Hv, <- Hfs, <- Hid. by split_and!.
  - rewrite load_artifacts_not_served, load_from_disk_resolve, Hres in Hrun
      by done.
    done.
Qed.

(** X7.  Nothing is read before the four files are known to exist: when
    [p] is the first missing path, at position [k], the call raises after
    asking for the paths up to [p] and for nothing else; no file has been
    opened, no identity used, the cache is as before. *)
Theorem load_artifacts_checks_first version use_cache w v w1 k p :
  served_from_cache version use_cache w = false →
  resolve_version APP_DIR version w = (Ok v, w1) →
  list_find (λ p, fs w !! str p = None) (artifact_paths APP_DIR v)
    = Some (k, p) →
  load_artifacts APP_DIR version use_cache w =
    (Raise (FileNotFoundError ("Expected artifact not found: " +:+ str p)),
     log_all (IOExists ∘ str <$> take (S k) (artifact_paths APP_DIR v)) w1).
Proof.
  intros Hserved Hres Hfind.
  destruct (load_artifacts_resolved _ _ _ _ _ Hserved Hres)
    as (-> & Hfs & _).
  unfold load_from_disk.
  unfold mbind at 1, M_bind at 1, mret at 1, M_ret at 1. cbv zeta.
  unfold mbind at 1, M_bind at 1.
  change (check_exist _ w1) with (check_exist (artifact_paths APP_DIR v) w1).
  by rewrite check_exist_trace, Hfs, Hfind.
Qed.


Lemma features_of_absent items :
  "features" ∉ items.*1 → features_of (JObject items) = Ok [].
Proof.
  intros Hnot. unfold features_of, json_get.
  destruct (list_find (λ kv : string * json, kv.1 = "features") items)
    as [[k kv]|] eqn:Hfind; [|done].
  apply list_find_Some in Hfind as (Hk & Hkv & _).
  destruct Hnot. rewrite <- Hkv. apply list_elem_of_fmap_2.
  by eapply list_elem_of_lookup_2.
Qed.

(** X9.  A feature file that holds an object without the key [features]
    loads with the empty list of feature names. *)
Theorem load_artifacts_no_features ver use_cache w v w1 m items md s :
  served_from_cache ver use_cache w = false →
  resolve_version APP_DIR ver w = (Ok v, w1) →
  fs w !! str (model_path APP_DIR v) = Some (ModelBlob m) →
  fs w !! str (feature_list_path APP_DIR v) = Some (JsonFile (JObject items)) →
  "features" ∉ items.*1 →
  fs w !! str (metadata_path APP_DIR v) = Some (JsonFile md) →
  fs w !! str (sanitizer_path APP_DIR v) = Some (SanitizerBlob s) →
  ∃ b w', load_artifacts APP_DIR ver use_cache w = (Ok b, w') ∧
          feature_names (obj_val b) = [] ∧ version (obj_val b) = v.
Proof.
  intros Hserved Hres Hm Hf Hnot Hmd Hs.
  destruct (load_artifacts_resolved _ _ _ _ _ Hserved Hres)
    as (-> & Hfs & _).
  rewrite <- Hfs in Hm, Hf, Hmd, Hs.
  rewrite (load_from_disk_present v use_cache w1 m (JObject items) [] md s)
    by (done || by apply features_of_absent).
  by eexists _, _.
Qed.

(** X10.  A feature file whose content is not an object stops the load
    with an attribute error at [feature_payload.get]: the model and the
    feature file have been read, the metadata and the sanitizer have not,
    and the cache is as before. *)
Theorem load_artifacts_bad_payload version use_cache w v w1 m fp :
  served_from_cache version use_cache w = false →
  resolve_version APP_DIR version w = (Ok v, w1) →
  Forall (λ p, is_Some (fs w !! str p)) (artifact_paths APP_DIR v) →
  fs w !! str (model_path APP_DIR v) = Some (ModelBlob m) →
  fs w !! str (feature_list_path APP_DIR v) = Some (JsonFile fp) →
  (∀ items, fp ≠ JObject items) →
  ∃ msg w',
    load_artifacts APP_DIR version use_cache w = (Raise (AttributeError msg), w') ∧
    disk_log w' = disk_log w1 ++
                  (IOExists ∘ str <$> artifact_paths APP_DIR v) ++
                  [IORead (str (model_path APP_DIR v));
                   IORead (str (feature_list_path APP_DIR v))] ∧
    _ARTIFACT_CACHE w' = _ARTIFACT_CACHE w.
Proof.
  intros Hserved Hres Hall Hm Hf Hfp.
  destruct (load_artifacts_resolved _ _ _ _ _ Hserved Hres)
    as (-> & Hfs & _ & Hc).
  rewrite <- Hfs in Hm, Hf, Hall. rewrite <- Hc. clear Hfs Hc Hres Hserved.
  unfold load_from_disk.
  unfold mbind at 1, M_bind at 1, mret at 1, M_ret at 1. cbv zeta.
  fold (model_path APP_DIR v) (feature_list_path APP_DIR v)
       (metadata_path APP_DIR v) (sanitizer_path APP_DIR v).
  unfold mbind at 1, M_bind at 1.
  change (check_exist _ w1) with (check_exist (artifact_paths APP_DIR v) w1).
  rewrite check_exist_trace.
  rewrite (proj2 (list_find_None _ _)).
  2:{ eapply Forall_impl; [exact Hall|]. intros p [x ->]. done. }
  rewrite artifact_paths_eq.
  unfold mbind, M_bind, joblib_load_model, json_load, lift.
  cbn [fs log_io].
  destruct (log_all_frame (IOExists ∘ str <$>
    [model_path APP_DIR v; feature_list_path APP_DIR v;
     metadata_path APP_DIR v; sanitizer_path APP_DIR v]) w1)
    as (Hfs & Hc & _ & _ & Hlog).
  rewrite Hfs, Hm, Hf.
  destruct fp as [|b|z|str0|l|items]; try (by destruct (Hfp items));
    (eexists _, _; split; [reflexivity|];
     cbn [disk_log _ARTIFACT_CACHE log_io]; rewrite Hlog, Hc;
     by rewrite <- !app_assoc).
Qed.

End loading_bundle.

(** ** Scoring: what the model is given, what is touched *)

Lemma reindex_wf_frame X cols X' :
  wf_frame X → reindex X cols = Ok X' → NoDup (df_columns X') → wf_frame X'.
Proof.
  intros Hwf HX Hnd.
  destruct (reindex_wf X cols Hwf)
    as (X'' & HX'' & Hidx & Hcols & Hrows & Hsome & Hbound).
  assert (X'' = X') as -> by congruence.
  split; [done|by rewrite Hrows, Hidx, (wf_rows X Hwf)|].
  rewrite Hcols. apply widths_of_cells. intros i j Hi. split.
  - intros [x Hx]. by apply (Hbound i j x).
  - intros Hj. apply lookup_lt_is_Some_2 in Hj as [c Hc].
    rewrite (Hsome i j c); [eauto|lia|done].
Qed.

Lemma at_cell X i c k :
  get_loc (df_columns X) c = Some k → at_ X i c = cell (df_values X) i k.
Proof.
  intros Hk. unfold at_, cell. destruct (df_values X !! i) as [row|]; [|done].
  simpl. by rewrite Hk.
Qed.

(** The service reindexes twice, to the feature names and then to the
    columns of the sanitizer: a label among the feature names brings the
    value of the input, any other label the missing-value marker. *)
Lemma reindex_twice_cells df fn cols df' X_num i j c :
  wf_frame df →
  reindex df fn = Ok df' →
  reindex df' cols = Ok X_num →
  (i < length (df_values df))%nat →
  cols !! j = Some c →
  cell (df_values X_num) i j
    = Some (if decide (c ∈ fn) then default np.nan (at_ df i c) else np.nan).
Proof.
  intros Hwf Hdf' HX Hi Hj.
  destruct (reindex_wf df fn Hwf)
    as (df'' & Hdf'' & Hidx & Hcols & Hrows & Hsome & Hbound).
  assert (df'' = df') as -> by congruence.
  destruct (decide (c ∈ fn)) as [Hin|Hnot].
  - pose proof HX as HX'. unfold reindex in HX'.
    destruct (decide (df_columns df' = cols)) as [Heq|Hne].
    + injection HX' as <-. apply (Hsome i j c Hi). congruence.
    + destruct (decide (NoDup (df_columns df'))) as [Hnd|]; [|done]. clear HX'.
      pose proof (reindex_wf_frame _ _ _ Hwf Hdf' Hnd) as Hwf'.
      destruct (reindex_wf df' cols Hwf')
        as (X'' & HX'' & _ & _ & _ & Hsome' & _).
      assert (X'' = X_num) as -> by congruence.
      rewrite (Hsome' i j c) by (done || lia). f_equal.
      destruct (get_loc (df_columns df') c) as [k|] eqn:Hk.
      * rewrite (at_cell _ _ _ _ Hk). apply get_loc_Some in Hk.
        rewrite Hcols in Hk. by rewrite (Hsome i k c Hi Hk).
      * apply get_loc_None in Hk. by rewrite Hcols in Hk.
  - eapply reindex_absent; [exact HX|exact Hj| |]; [by rewrite Hcols|lia].
Qed.

Section scoring_cells.
Context (APP_DIR : string).

(** The frame the sanitizer returns for an input reindexed to the feature
    names, cell by cell. *)
Lemma scored_cells df fn s nm w0 df' X_clean w' :
  wf_frame df →
  reindex df fn = Ok df' →
  apply_sanitizer df' s nm w0 = (Ok X_clean, w') →
  df_index X_clean = df_index df ∧
  df_columns X_clean = columns s ∧
  ∀ i j c,
    (i < length (df_values df))%nat →
    columns s !! j = Some c →
    cell (df_values X_clean) i j
      = Some (sanitized_cell s j
                (if decide (c ∈ fn) then default np.nan (at_ df i c)
                 else np.nan)).
Proof.
  intros Hwf Hdf' Hsan.
  apply apply_sanitizer_cells in Hsan
    as (X_num & HX & Hidx & Hcols & _ & Hcell & _).
  pose proof (reindex_shape _ _ _ Hdf') as (_ & Hidx' & _).
  split_and!; [congruence|done|].
  intros i j c Hi Hj.
  by rewrite Hcell, (reindex_twice_cells _ _ _ _ _ _ _ _ Hwf Hdf' HX Hi Hj).
Qed.

(** X11.  What the model is given, cell by cell, for a well-formed input:
    the frame has the index of the input and the columns of the sanitizer;
    under a label that is among the feature names the cell is the sanitized
    value of the input under that label (the median where the input has no
    such column or no finite value there); under any other label it is the
    median. *)
Theorem predict_from_dataframe_cells df threshold artifacts nm w
    proba labels b w' :
  wf_frame df →
  predict_from_dataframe APP_DIR df threshold artifacts nm w
    = (Ok (proba, labels, b), w') →
  ∃ X_clean,
    column_1 (predict_proba (model (obj_val b)) X_clean) = Ok proba ∧
    df_index X_clean = df_index df ∧
    df_columns X_clean = columns (sanitizer (obj_val b)) ∧
    ∀ i j c,
      (i < length (df_values df))%nat →
      columns (sanitizer (obj_val b)) !! j = Some c →
      cell (df_values X_clean) i j
        = Some (sanitized_cell (sanitizer (obj_val b)) j
                  (if decide (c ∈ feature_names (obj_val b))
                   then default np.nan (at_ df i c) else np.nan)).
Proof.
  intros Hwf (w0 & df' & X_clean & _ & Hdf' & Hsan & Hcol & _)%predict_from_dataframe_inv.
  exists X_clean.
  destruct (scored_cells _ _ _ _ _ _ _ _ Hwf Hdf' Hsan) as (Hidx & Hcols & Hcell).
  by split_and!.
Qed.

(** What the sanitizer prints, whatever its outcome. *)
Lemma apply_sanitizer_stdout X s nm w r w' :
  apply_sanitizer X s nm w = (r, w') →
  stdout w' = stdout w ++
    match reindex X (columns s) with
    | Ok X_num => diagnostics nm (count_non_finite (df_values X_num))
    | Raise _ => []
    end.
Proof.
  rewrite apply_sanitizer_unfold.
  destruct (reindex X (columns s)) as [X_num|e];
    [|intros [= _ <-]; by rewrite app_nil_r].
  cbv zeta. rewrite nan_mask_eq, non_finite_mask_eq.
  unfold diagnostics, count_non_finite.
  set (M := np.map2d (λ x, negb (np.isfinite (np.astype_float64 x)))
              (df_values X_num)).
  destruct (np.any M) eqn:Hany.
  - assert (np.sum M ≠ 0%nat) as Hsum.
    { intros H%any_sum. congruence. }
    rewrite decide_False by done.
    destruct (fancy_index _ _); intros [= _ <-]; simpl;
      by rewrite <- app_assoc.
  - apply any_sum in Hany as ->. rewrite decide_True by done.
    intros [= _ <-]. by rewrite app_nil_r.
Qed.

Lemma predict_from_dataframe_supplied_frame df threshold a nm w r w' :
  predict_from_dataframe APP_DIR df threshold (Some a) nm w = (r, w') →
  printed_only w w'.
Proof.
  unfold predict_from_dataframe, mbind, M_bind, lift, mret, M_ret.
  destruct (reindex df (feature_names (obj_val a))) as [df'|e];
    [|intros [= _ <-]; apply printed_only_refl].
  destruct (apply_sanitizer df' _ _ _) as [[X_clean|e] w1] eqn:Hsan;
    apply apply_sanitizer_frame in Hsan; [|by intros [= _ <-]].
  by destruct (column_1 _); intros [= _ <-].
Qed.

Lemma predict_from_dataframe_supplied_bundle df threshold a nm w
    proba labels b w' :
  predict_from_dataframe APP_DIR df threshold (Some a) nm w
    = (Ok (proba, labels, b), w') →
  b = a.
Proof.
  intros (w0 & df' & X_clean & Hload & _)%predict_from_dataframe_inv.
  by injection Hload as <- _.
Qed.

(** X12.  With the artifacts supplied, scoring leaves the disk and the
    cache alone whatever the outcome: no file is asked for or read, no
    object is created, the cache slot is not written.  What it prints is
    what the sanitizer prints: nothing when a reindexing fails or every
    cell of the reindexed frame is finite, and otherwise the warning and
    the information line with the number of cells that are not finite.
    The bundle returned is the object that was supplied. *)
Theorem predict_from_dataframe_supplied df threshold a nm w r w' :
  predict_from_dataframe APP_DIR df threshold (Some a) nm w = (r, w') →
  printed_only w w' ∧
  stdout w' = stdout w ++
    match reindex df (feature_names (obj_val a)) ≫= λ df',
          reindex df' (columns (sanitizer (obj_val a))) with
    | Ok X_num =>
        diagnostics (default "X_request" nm)
          (count_non_finite (df_values X_num))
    | Raise _ => []
    end ∧
  ∀ proba labels b, r = Ok (proba, labels, b) → b = a.
Proof.
  unfold predict_from_dataframe, mbind, M_bind, lift, mret, M_ret.
  destruct (reindex df (feature_names (obj_val a))) as [df'|e];
    [|intros [= <- <-]; split_and!;
      [apply printed_only_refl|by rewrite app_nil_r|done]].
  cbn [result_bind].
  destruct (apply_sanitizer df' _ _ _) as [[X_clean|e] w1] eqn:Hsan;
    pose proof (apply_sanitizer_frame _ _ _ _ _ _ Hsan) as Hframe;
    apply apply_sanitizer_stdout in Hsan;
    [|by intros [= <- <-]].
  destruct (column_1 _) as [proba'|e]; intros [= <- <-]; split_and!;
    try done.
  by intros ? ? ? [= _ _ <-].
Qed.

Lemma predict_from_dataframe_cached_run df threshold nm w b :
  _ARTIFACT_CACHE w = Some b →
  predict_from_dataframe APP_DIR df threshold None nm w
    = predict_from_dataframe APP_DIR df threshold (Some b) nm w.
Proof.
  intros Hc. unfold predict_from_dataframe.
  unfold mbind at 1, M_bind at 1. symmetry. unfold mbind at 1, M_bind at 1.
  by rewrite load_artifacts_run, Hc.
Qed.

(** X13.  Once the cache holds a bundle, scoring without artifacts is
    scoring with that bundle: the same outcome and the same printed lines,
    and nothing is asked of the disk. *)
Theorem predict_from_dataframe_cached df threshold nm w b :
  _ARTIFACT_CACHE w = Some b →
  predict_from_dataframe APP_DIR df threshold None nm w
    = predict_from_dataframe APP_DIR df threshold (Some b) nm w ∧
  printed_only w (predict_from_dataframe APP_DIR df threshold None nm w).2.
Proof.
  intros Hc. rewrite (predict_from_dataframe_cached_run _ _ _ _ _ Hc).
  split; [done|].
  destruct (predict_from_dataframe APP_DIR df threshold (Some b) nm w)
    as [r w'] eqn:Hrun.
  by apply predict_from_dataframe_supplied_frame in Hrun.
Qed.

(** X14.  Labels are 0 or 1, and a comparison with NaN is false: a
    probability that is NaN is labelled 0 at every threshold, and with a
    NaN threshold every label is 0. *)
Theorem predict_from_dataframe_nan df threshold artifacts nm w
    proba labels b w' :
  predict_from_dataframe APP_DIR df threshold artifacts nm w
    = (Ok (proba, labels, b), w') →
  (∀ i l, labels !! i = Some l → l = 0 ∨ l = 1) ∧
  (∀ i p, proba !! i = Some p → np.isnan p = true → labels !! i = Some 0) ∧
  (∀ t, threshold = Some t → np.isnan t = true →
        labels = (λ _, 0) <$> proba).
Proof.
  intros (w0 & df' & X_clean & _ & _ & _ & _ & ->)%predict_from_dataframe_inv.
  split_and!.
  - intros i l. rewrite list_lookup_fmap.
    destruct (proba !! i) as [p|]; [|done]. simpl. intros [= <-].
    destruct (np.ge _ _); auto.
  - intros i p Hp Hnan. rewrite list_lookup_fmap, Hp. simpl.
    by rewrite ge_nan_l.
  - intros t -> Hnan. apply list_fmap_ext. intros i p _.
    simpl. by rewrite ge_nan_r.
Qed.

End scoring_cells.

(** ** The endpoints *)

Lemma dict_get_None (d : list (string * spec_float)) c :
  dict_get d c = None ↔ c ∉ d.*1.
Proof.
  unfold dict_get.
  destruct (list_find (λ kv : string * spec_float, kv.1 = c) d)
    as [[k kv]|] eqn:Hfind; simpl.
  - split; [done|]. intros Hnot.
    apply list_find_Some in Hfind as (Hk & Hkv & _). destruct Hnot.
    rewrite <- Hkv. apply list_elem_of_fmap_2. by eapply list_elem_of_lookup_2.
  - split; [|done]. intros _.
    intros ([c' x] & -> & Hin)%list_elem_of_fmap.
    apply list_find_None in Hfind. rewrite Forall_forall in Hfind.
    by apply (Hfind _ Hin).
Qed.

Lemma filter_notin_nil (l : list string) : filter (λ k, k ∉ []) l = l.
Proof.
  induction l as [|k l IH]; [done|].
  rewrite filter_cons_True by apply not_elem_of_nil. by rewrite IH.
Qed.

Lemma filter_notin_incl (l cols : list string) :
  l ⊆ cols → filter (λ k, k ∉ cols) l = [].
Proof.
  induction l as [|k l IH]; intros Hincl; [done|].
  rewrite filter_cons_False.
  - apply IH. intros x Hx. apply Hincl. by apply list_elem_of_further.
  - intros Hk. apply Hk, Hincl, list_elem_of_here.
Qed.

Lemma dict_keys r : (schemas.dict r).*1 = FlowRecord_fields.
Proof. reflexivity. Qed.

Lemma keys_union_dict rs :
  keys_union (schemas.dict <$> rs)
  = if decide (rs = []) then [] else FlowRecord_fields.
Proof.
  unfold keys_union. destruct rs as [|r rs]; [done|].
  rewrite decide_False by done. rewrite fmap_cons. cbn [foldl].
  rewrite dict_keys, filter_notin_nil, app_nil_l.
  induction rs as [|r' rs IH]; [done|].
  rewrite fmap_cons. cbn [foldl].
  by rewrite dict_keys, filter_notin_incl, app_nil_r.
Qed.

Lemma NoDup_FlowRecord_fields : NoDup FlowRecord_fields.
Proof. apply (bool_decide_unpack _). by vm_compute. Qed.

Lemma dict_get_field r c :
  c ∈ FlowRecord_fields → is_Some (dict_get (schemas.dict r) c).
Proof.
  intros Hc. destruct (dict_get (schemas.dict r) c) eqn:Hget; [eauto|].
  apply dict_get_None in Hget. by rewrite dict_keys in Hget.
Qed.

Lemma from_records_wf (rs : list schemas.FlowRecord) :
  wf_frame (DataFrame_from_records (schemas.dict <$> rs)).
Proof.
  unfold DataFrame_from_records. rewrite keys_union_dict.
  split; cbn [df_index df_columns df_values].
  - destruct (decide (rs = [])); [apply NoDup_nil_2|].
    apply NoDup_FlowRecord_fields.
  - by rewrite !length_fmap, length_seq.
  - apply Forall_fmap, Forall_fmap, Forall_forall. intros r _. simpl.
    by rewrite length_fmap.
Qed.

Lemma from_records_at (rs : list schemas.FlowRecord) i r c :
  rs !! i = Some r →
  at_ (DataFrame_from_records (schemas.dict <$> rs)) i c
  = dict_get (schemas.dict r) c.
Proof.
  intros Hr. unfold DataFrame_from_records, at_. rewrite keys_union_dict.
  cbn [df_index df_columns df_values].
  rewrite !list_lookup_fmap, Hr.
  cbn [fmap option_fmap option_map mbind option_bind].
  rewrite decide_False by (by intros ->).
  destruct (get_loc FlowRecord_fields c) as [k|] eqn:Hk.
  - cbn [mbind option_bind]. apply get_loc_Some in Hk.
    rewrite list_lookup_fmap, Hk. simpl.
    destruct (dict_get_field r c) as [x ->]; [|done].
    by eapply list_elem_of_lookup_2.
  - cbn [mbind option_bind]. apply get_loc_None in Hk. symmetry.
    apply dict_get_None. by rewrite dict_keys.
Qed.

(** X15.  The frame built from the flow records of a request: one row per
    record under the range index, the nine fields as columns in the order
    of their declaration (no column at all for an empty request), and
    under every label the value the record holds for it. *)
Theorem from_records_frame (rs : list schemas.FlowRecord) :
  let df := DataFrame_from_records (schemas.dict <$> rs) in
  wf_frame df ∧
  df_index df = Z.of_nat <$> seq 0 (length rs) ∧
  length (df_values df) = length rs ∧
  df_columns df = (if decide (rs = []) then [] else FlowRecord_fields) ∧
  ∀ i r c, rs !! i = Some r → at_ df i c = dict_get (schemas.dict r) c.
Proof.
  cbv zeta. split_and!.
  - apply from_records_wf.
  - unfold DataFrame_from_records. cbn [df_index]. by rewrite length_fmap.
  - unfold DataFrame_from_records. cbn [df_values]. by rewrite !length_fmap.
  - unfold DataFrame_from_records. cbn [df_columns]. apply keys_union_dict.
  - intros i r c. apply from_records_at.
Qed.

Section api_properties.
Context (APP_DIR : string).

Lemma load_artifacts_cache_holds w b w0 :
  load_artifacts APP_DIR None true w = (Ok b, w0) →
  _ARTIFACT_CACHE w0 = Some b ∧ stdout w0 = stdout w.
Proof.
  destruct (served_from_cache None true w) eqn:Hserved.
  - unfold served_from_cache in Hserved. cbn in Hserved.
    rewrite andb_true_r in Hserved.
    apply bool_decide_eq_true in Hserved as [b' Hb'].
    rewrite load_artifacts_run, Hb'. by intros [= <- <-].
  - intros Hrun.
    destruct (resolve_version APP_DIR None w) as [[v|e] w1] eqn:Hres.
    + destruct (load_artifacts_resolved _ _ _ _ _ _ Hserved Hres)
        as (Heq & _).
      rewrite Heq in Hrun.
      apply load_from_disk_inv in Hrun as (fp & _ & _ & _ & _ & _ & _ & _ & ->).
      split; [done|]. by apply resolve_version_frame in Hres as (_ & _ & _ & ?).
    + rewrite load_artifacts_not_served, load_from_disk_resolve, Hres in Hrun
        by done.
      done.
Qed.

Lemma predict_inv payload w resp w' :
  predict APP_DIR payload w = (Ok resp, w') →
  ∃ b,
    predict_from_dataframe APP_DIR
      (DataFrame_from_records (schemas.dict <$> schemas.records payload))
      None None (Some "X_api_request") w
    = (Ok (schemas.probabilities resp, schemas.labels resp, b), w') ∧
    schemas.model_version resp = version (obj_val b).
Proof.
  unfold predict. cbv zeta. unfold mbind at 1, M_bind at 1.
  destruct (predict_from_dataframe _ _ _ _ _ _) as [[[[proba labels] b]|e] w1];
    [|done].
  intros [= <- <-]. by exists b.
Qed.

(** X16.  A returning [predict]: the response carries the version of the
    bundle that scored the request, which is the bundle the cache holds
    afterwards; the label [i] is 1 exactly when probability [i] is a number
    that is at least 1/2 (or [+inf]), and 0 otherwise;
    and the model was given, for record [i] and sanitizer column [j] with
    label [c], the sanitized value of the field [c] of the record when [c]
    is a feature name and a field of the record, and the median of the
    column otherwise. *)
Theorem predict_response payload w resp w' :
  predict APP_DIR payload w = (Ok resp, w') →
  ∃ b X_clean,
    let s := sanitizer (obj_val b) in
    _ARTIFACT_CACHE w' = Some b ∧
    schemas.model_version resp = version (obj_val b) ∧
    column_1 (predict_proba (model (obj_val b)) X_clean)
      = Ok (schemas.probabilities resp) ∧
    schemas.labels resp
      = (λ p, if np.ge p (DEFAULT_DECISION_THRESHOLD) then 1 else 0)
          <$> schemas.probabilities resp ∧
    (∀ i p, schemas.probabilities resp !! i = Some p →
       ∃ l, schemas.labels resp !! i = Some l ∧
            (l = 1 ↔ at_least (1 # 2) p) ∧
            (l = 0 ↔ ¬ at_least (1 # 2) p)) ∧
    df_columns X_clean = columns s ∧
    ∀ i r j c,
      schemas.records payload !! i = Some r →
      columns s !! j = Some c →
      cell (df_values X_clean) i j
        = Some (sanitized_cell s j
                  (if decide (c ∈ feature_names (obj_val b))
                   then default np.nan (dict_get (schemas.dict r) c)
                   else np.nan)).
Proof.
  intros (b & Hrun & Hv)%predict_inv.
  pose proof (from_records_wf (schemas.records payload)) as Hwf.
  assert (length (df_values (DataFrame_from_records
            (schemas.dict <$> schemas.records payload)))
          = length (schemas.records payload)) as Hlen.
  { unfold DataFrame_from_records. cbn [df_values]. by rewrite !length_fmap. }
  apply predict_from_dataframe_inv in Hrun
    as (w0 & df' & X_clean & Hload & Hdf' & Hsan & Hcol & Hlabels).
  destruct (scored_cells _ _ _ _ _ _ _ _ Hwf Hdf' Hsan) as (_ & Hcols & Hcell).
  apply load_artifacts_cache_holds in Hload as [Hcache _].
  apply apply_sanitizer_frame in Hsan as (_ & Hc & _).
  exists b, X_clean. cbv zeta. split_and!; [congruence|done|done|done| |done|].
  { intros i p Hp. rewrite Hlabels, list_lookup_fmap, Hp. simpl.
    eexists. split; [done|].
    destruct DEFAULT_DECISION_THRESHOLD_value as (q & Hq & Hhalf).
    rewrite <- (num_ge_at_least p _ q (1 # 2) Hq Hhalf), <- ge_num_ge.
    destruct (np.ge p _); (split; split); done. }
  intros i r j c Hr Hj.
  rewrite (Hcell i j c), (from_records_at _ i r c Hr); [done| |done].
  rewrite Hlen. by eapply lookup_lt_Some.
Qed.

Lemma model_info_inv w info w' :
  model_info APP_DIR w = (Ok info, w') →
  ∃ b items,
    load_artifacts APP_DIR None true w = (Ok b, w') ∧
    metadata (obj_val b) = JObject items ∧
    json_get (JObject items) "target_column" (JString "Label")
      = Ok (schemas.target_column info) ∧
    json_get (JObject items) "benign_labels" (JArray [JString "Benign"])
      = Ok (schemas.benign_labels info) ∧
    json_get (JObject items) "train_days" (JArray [])
      = Ok (schemas.train_days info) ∧
    json_get (JObject items) "test_days" (JArray [])
      = Ok (schemas.test_days info) ∧
    schemas.version info = version (obj_val b) ∧
    schemas.feature_count info = length (feature_names (obj_val b)).
Proof.
  unfold model_info. unfold mbind at 1, M_bind at 1.
  destruct (load_artifacts APP_DIR None true w) as [[b|e] w0]; [|done].
  cbv zeta. destruct (metadata (obj_val b)) as [| | | | |items] eqn:Hmeta;
    try done.
  unfold mbind, M_bind, lift, mret, M_ret. cbn [json_get].
  intros [= <- <-]. by exists b, items.
Qed.

Lemma json_get_absent items key d :
  key ∉ items.*1 → json_get (JObject items) key d = Ok d.
Proof.
  intros Hnot. unfold json_get.
  destruct (list_find (λ kv : string * json, kv.1 = key) items)
    as [[k kv]|] eqn:Hfind; [|done].
  apply list_find_Some in Hfind as (Hk & Hkv & _).
  destruct Hnot. rewrite <- Hkv. apply list_elem_of_fmap_2.
  by eapply list_elem_of_lookup_2.
Qed.

Lemma json_get_present items key v d :
  NoDup items.*1 → (key, v) ∈ items → json_get (JObject items) key d = Ok v.
Proof.
  intros Hnd Hin. unfold json_get.
  destruct (list_find (λ kv : string * json, kv.1 = key) items)
    as [[k [key' v']]|] eqn:Hfind.
  - apply list_find_Some in Hfind as (Hk & Hkey & _). simpl in Hkey.
    subst key'. simpl. f_equal.
    apply list_elem_of_lookup_1 in Hin as [k' Hk'].
    assert (k = k') as ->; [|congruence].
    apply (NoDup_lookup _ _ _ key Hnd); by rewrite list_lookup_fmap, ?Hk, ?Hk'.
  - apply list_find_None in Hfind. rewrite Forall_forall in Hfind.
    by destruct (Hfind _ Hin).
Qed.

(** X17.  A returning [model_info]: the metadata of the bundle is an
    object; the version and the number of feature names are those of the
    bundle the cache holds afterwards; a key the metadata lacks gives its
    default ([Label], the one-element list [Benign], the empty list), a key
    it has with a value of the declared type (a string, a list of strings)
    gives that value. *)
Theorem model_info_response w info w' :
  model_info APP_DIR w = (Ok info, w') →
  ∃ b items,
    load_artifacts APP_DIR None true w = (Ok b, w') ∧
    _ARTIFACT_CACHE w' = Some b ∧
    metadata (obj_val b) = JObject items ∧
    schemas.version info = version (obj_val b) ∧
    schemas.feature_count info = length (feature_names (obj_val b)) ∧
    ("target_column" ∉ items.*1 →
     schemas.target_column info = JString "Label") ∧
    ("benign_labels" ∉ items.*1 →
     schemas.benign_labels info = JArray [JString "Benign"]) ∧
    ("train_days" ∉ items.*1 → schemas.train_days info = JArray []) ∧
    ("test_days" ∉ items.*1 → schemas.test_days info = JArray []) ∧
    (NoDup items.*1 →
     (∀ s, ("target_column", JString s) ∈ items →
           schemas.target_column info = JString s) ∧
     (∀ l, ("benign_labels", JArray (JString <$> l)) ∈ items →
           schemas.benign_labels info = JArray (JString <$> l)) ∧
     (∀ l, ("train_days", JArray (JString <$> l)) ∈ items →
           schemas.train_days info = JArray (JString <$> l)) ∧
     (∀ l, ("test_days", JArray (JString <$> l)) ∈ items →
           schemas.test_days info = JArray (JString <$> l))).
Proof.
  intros (b & items & Hload & Hmeta & Ht & Hb & Htr & Hte & Hv & Hn)%model_info_inv.
  exists b, items.
  pose proof (load_artifacts_cache_holds _ _ _ Hload) as [Hc _].
  split_and!; try done.
  - intros H. rewrite json_get_absent in Ht by done. congruence.
  - intros H. rewrite json_get_absent in Hb by done. congruence.
  - intros H. rewrite json_get_absent in Htr by done. congruence.
  - intros H. rewrite json_get_absent in Hte by done. congruence.
  - intros Hnd. split_and!; intros x Hin;
      [rewrite (json_get_present _ _ _ _ Hnd Hin) in Ht
      |rewrite (json_get_present _ _ _ _ Hnd Hin) in Hb
      |rewrite (json_get_present _ _ _ _ Hnd Hin) in Htr
      |rewrite (json_get_present _ _ _ _ Hnd Hin) in Hte]; congruence.
Qed.

(** X18.  When the bundle loads but its metadata is not an object,
    [model_info] raises an attribute error at [meta.get]; the load has
    happened all the same, and the cache holds the bundle. *)
Theorem model_info_bad_metadata w b w1 :
  load_artifacts APP_DIR None true w = (Ok b, w1) →
  (∀ items, metadata (obj_val b) ≠ JObject items) →
  ∃ msg, model_info APP_DIR w = (Raise (AttributeError msg), w1) ∧
         _ARTIFACT_CACHE w1 = Some b.
Proof.
  intros Hload Hmeta.
  pose proof (load_artifacts_cache_holds _ _ _ Hload) as [Hc _].
  unfold model_info. unfold mbind at 1, M_bind at 1. rewrite Hload. cbv zeta.
  destruct (metadata (obj_val b)) as [| | | | |items] eqn:Hm;
    try (by destruct (Hmeta items)); by eexists.
Qed.

(** X19.  After a returning [model_info], a [predict] is served by the
    same bundle: it asks nothing of the disk, leaves the cache as it is,
    and the version in its response is the version [model_info]
    reported. *)
Theorem model_info_then_predict w info w1 payload r w2 :
  model_info APP_DIR w = (Ok info, w1) →
  predict APP_DIR payload w1 = (r, w2) →
  printed_only w1 w2 ∧
  ∀ resp, r = Ok resp → schemas.model_version resp = schemas.version info.
Proof.
  intros (b & items & Hload & _ & _ & _ & _ & _ & Hv & _)%model_info_inv.
  apply load_artifacts_cache_holds in Hload as [Hc _].
  unfold predict. cbv zeta. unfold mbind at 1, M_bind at 1.
  rewrite (predict_from_dataframe_cached_run _ _ _ _ _ _ Hc).
  destruct (predict_from_dataframe _ _ _ _ _ _)
    as [[[[proba labels] b']|e] w'] eqn:Hrun;
    pose proof (predict_from_dataframe_supplied_frame _ _ _ _ _ _ _ _ Hrun)
      as Hframe;
    intros [= <- <-]; (split; [done|]); [|done].
  intros resp [= <-]. simpl. rewrite Hv. f_equal. f_equal.
  by eapply predict_from_dataframe_supplied_bundle.
Qed.

End api_properties.

(** ** The empty request *)

Lemma reindex_no_rows X cols :
  df_values X = [] → NoDup (df_columns X) →
  ∃ X', reindex X cols = Ok X' ∧ df_values X' = [] ∧
        df_index X' = df_index X ∧ df_columns X' = cols.
Proof.
  intros Hrows Hnd. unfold reindex.
  destruct (decide (df_columns X = cols)); [by exists X|].
  rewrite decide_True by done. eexists. split; [done|].
  cbn [df_values df_index df_columns]. by rewrite Hrows.
Qed.

Section empty_request.
Context (APP_DIR : string).

(** X20.  A frame without rows goes through the sanitizer untouched by
    any repair: nothing is printed, nothing raises before the model, and
    the model is given the frame without rows under the columns of the
    sanitizer; the outcome is the model's. *)
Theorem predict_from_dataframe_empty df threshold a nm w :
  wf_frame df → df_values df = [] →
  NoDup (feature_names (obj_val a)) →
  predict_from_dataframe APP_DIR df threshold (Some a) nm w =
  (match column_1 (predict_proba (model (obj_val a))
                     {| df_index := [];
                        df_columns := columns (sanitizer (obj_val a));
                        df_values := [] |}) with
   | Ok proba =>
       Ok (proba,
           (λ p, if np.ge p (default DEFAULT_DECISION_THRESHOLD threshold)
                 then 1 else 0) <$> proba,
           a)
   | Raise e => Raise e
   end, w).
Proof.
  intros Hwf Hrows Hnd.
  assert (df_index df = []) as Hidx.
  { apply length_zero_iff_nil. by rewrite <- (wf_rows df Hwf), Hrows. }
  destruct (reindex_no_rows df (feature_names (obj_val a)) Hrows
              (wf_labels df Hwf)) as (df' & Hdf' & Hrows' & Hidx' & Hcols').
  destruct (reindex_no_rows df' (columns (sanitizer (obj_val a))) Hrows')
    as (X_num & HX & HrowsX & _ & _); [by rewrite Hcols'|].
  unfold predict_from_dataframe, mbind, M_bind, lift, mret, M_ret.
  rewrite Hdf', apply_sanitizer_unfold, HX. cbv zeta. rewrite HrowsX.
  cbn [np.map2d fmap list_fmap np.any existsb]. rewrite Hidx', Hidx.
  by destruct (column_1 _).
Qed.

End empty_request.

(** * The further properties at concrete data *)

Lemma apply_sanitizer_prints_witness :
  reindex example.request (columns example.ports_spec) = Ok example.request ∧
  stdout (apply_sanitizer example.request example.ports_spec "X_request"
            example.idle).2
  = stdout example.idle ++
    diagnostics "X_request" (count_non_finite (df_values example.request)) ∧
  printed_only example.idle
    (apply_sanitizer example.request example.ports_spec "X_request"
       example.idle).2.
Proof.
  split; [reflexivity|].
  exact (apply_sanitizer_prints example.request example.ports_spec "X_request"
           example.idle example.request _ _ eq_refl (surjective_pairing _)).
Defined.

Lemma apply_sanitizer_returns_iff_witness :
  reindex example.ab_frame (columns example.short_spec) = Ok example.ab_frame ∧
  ((∃ T w', apply_sanitizer example.ab_frame example.short_spec "X"
              example.idle = (Ok T, w'))
   ↔ repairs_in_range example.short_spec (df_values example.ab_frame)) ∧
  (¬ repairs_in_range example.short_spec (df_values example.ab_frame) →
   ∃ w', apply_sanitizer example.ab_frame example.short_spec "X" example.idle
         = (Raise (IndexError "index is out of bounds for axis 0"), w')).
Proof.
  split; [reflexivity|].
  exact (apply_sanitizer_returns_iff example.ab_frame example.short_spec "X"
           example.idle example.ab_frame eq_refl).
Defined.

Lemma apply_sanitizer_shape_witness :
  wf_frame example.request ∧
  apply_sanitizer example.request example.ports_spec "X_request" example.idle
  = (Ok {| df_index := [0; 1; 2];
           df_columns := ["src_port"; "dst_port"];
           df_values :=
             [[S754_finite false 10485760 (-17);
               S754_finite false 8388608 (-24)];
              [S754_finite false 14516224 (-15);
               S754_finite false 8388608 (-23)];
              [S754_finite false 11534336 (-19); S754_zero false]] |},
     example.printed example.idle) ∧
  Forall (λ row : list spec_float, length row = 2%nat)
    [[S754_finite false 10485760 (-17); S754_finite false 8388608 (-24)];
     [S754_finite false 14516224 (-15); S754_finite false 8388608 (-23)];
     [S754_finite false 11534336 (-19); S754_zero false]].
Proof.
  split; [exact wf_request|].
  match goal with |- ?H ∧ _ => assert H as Hrun by (vm_compute; reflexivity) end.
  split; [exact Hrun|].
  exact (proj2 (proj2 (proj2
    (apply_sanitizer_shape _ _ _ _ _ _ wf_request Hrun)))).
Defined.

Lemma apply_sanitizer_fixpoint_witness :
  apply_sanitizer example.clean_frame example.ports_spec "X_request"
    example.idle
  = (Ok {| df_index := [0]; df_columns := ["src_port"; "dst_port"];
           df_values := [[S754_finite false 10485760 (-17);
                          S754_finite false 14516224 (-15)]] |},
     example.idle) ∧
  apply_sanitizer
    {| df_index := [0]; df_columns := ["src_port"; "dst_port"];
       df_values := [[S754_finite false 10485760 (-17);
                      S754_finite false 14516224 (-15)]] |}
    example.ports_spec "X_again" example.warm
  = (Ok {| df_index := [0]; df_columns := ["src_port"; "dst_port"];
           df_values := [[S754_finite false 10485760 (-17);
                          S754_finite false 14516224 (-15)]] |},
     example.warm).
Proof.
  match goal with |- ?H ∧ _ => assert H as Hrun by (vm_compute; reflexivity) end.
  split; [exact Hrun|].
  apply (apply_sanitizer_fixpoint _ _ _ _ _ _ "X_again" example.warm Hrun).
  intros i j y Hy.
  apply (cell_Forall (λ y, np.isfinite y = true)
           [[S754_finite false 10485760 (-17);
             S754_finite false 14516224 (-15)]] i j y); [|exact Hy].
  repeat constructor.
Defined.

Lemma load_artifacts_loads_witness :
  served_from_cache (Some "20240601-1200") true example.world1 = false ∧
  load_artifacts example.APP_DIR (Some "20240601-1200") true example.world1
  = (Ok {| obj_id := 1; obj_val := example.bundle "20240601-1200" |},
     after_load example.APP_DIR "20240601-1200" true
       {| obj_id := 1; obj_val := example.bundle "20240601-1200" |}
       example.world1).
Proof.
  split; [reflexivity|].
  refine (load_artifacts_loads example.APP_DIR (Some "20240601-1200") true
            example.world1 "20240601-1200" example.world1 example.scorer
            (JObject [("features",
                       JArray [JString "src_port"; JString "dst_port"])])
            ["src_port"; "dst_port"]
            (JObject [("target_column", JString "Label")])
            example.ports_spec eq_refl eq_refl _ _ eq_refl _ _);
    vm_compute; reflexivity.
Defined.

Lemma load_artifacts_inv_witness :
  served_from_cache (Some "20240601-1200") false example.world1 = false ∧
  ∃ w1 fp,
    resolve_version example.APP_DIR (Some "20240601-1200") example.world1
      = (Ok "20240601-1200", w1) ∧
    fs example.world1 !! str (model_path example.APP_DIR "20240601-1200")
      = Some (ModelBlob example.scorer) ∧
    fs example.world1 !! str (feature_list_path example.APP_DIR "20240601-1200")
      = Some (JsonFile fp) ∧
    features_of fp = Ok ["src_port"; "dst_port"] ∧
    fs example.world1 !! str (metadata_path example.APP_DIR "20240601-1200")
      = Some (JsonFile (JObject [("target_column", JString "Label")])) ∧
    fs example.world1 !! str (sanitizer_path example.APP_DIR "20240601-1200")
      = Some (SanitizerBlob example.ports_spec) ∧
    1%nat = next_id example.world1 ∧
    (load_artifacts example.APP_DIR (Some "20240601-1200") false
       example.world1).2
    = after_load example.APP_DIR "20240601-1200" false
        {| obj_id := 1; obj_val := example.bundle "20240601-1200" |} w1.
Proof.
  split; [reflexivity|].
  assert ((load_artifacts example.APP_DIR (Some "20240601-1200") false
             example.world1).1
          = Ok {| obj_id := 1; obj_val := example.bundle "20240601-1200" |})
    as Hret by (vm_compute; reflexivity).
  assert (load_artifacts example.APP_DIR (Some "20240601-1200") false
            example.world1
          = (Ok {| obj_id := 1; obj_val := example.bundle "20240601-1200" |},
             (load_artifacts example.APP_DIR (Some "20240601-1200") false
                example.world1).2)) as Hrun
    by (rewrite <- Hret; apply surjective_pairing).
  exact (load_artifacts_inv example.APP_DIR (Some "20240601-1200") false
           example.world1 _ _ eq_refl Hrun).
Defined.

Lemma load_artifacts_checks_first_witness :
  served_from_cache (Some "20240101-0000") true example.world_incomplete
    = false ∧
  load_artifacts example.APP_DIR (Some "20240101-0000") true
    example.world_incomplete
  = (Raise (FileNotFoundError
              ("Expected artifact not found: " +:+
               str (sanitizer_path example.APP_DIR "20240101-0000"))),
     log_all (IOExists ∘ str <$>
                take 4 (artifact_paths example.APP_DIR "20240101-0000"))
       example.world_incomplete).
Proof.
  split; [reflexivity|].
  refine (load_artifacts_checks_first example.APP_DIR (Some "20240101-0000")
            true example.world_incomplete "20240101-0000"
            example.world_incomplete 3
            (sanitizer_path example.APP_DIR "20240101-0000") eq_refl eq_refl _).
  vm_compute. reflexivity.
Defined.


Lemma load_artifacts_no_features_witness :
  ("features" ∉ [("n_features", JNumber 2)].*1) ∧
  ∃ b w',
    load_artifacts example.APP_DIR (Some "20240601-1200") true
      example.world_no_key = (Ok b, w') ∧
    feature_names (obj_val b) = [] ∧
    version (obj_val b) = "20240601-1200".
Proof.
  assert ("features" ∉ ([("n_features", JNumber 2)].*1)) as Hnot.
  { apply (bool_decide_unpack _). by vm_compute. }
  split; [exact Hnot|].
  refine (load_artifacts_no_features example.APP_DIR (Some "20240601-1200")
            true example.world_no_key "20240601-1200" example.world_no_key
            example.scorer [("n_features", JNumber 2)]
            (JObject [("target_column", JString "Label")])
            example.ports_spec eq_refl eq_refl _ _ Hnot _ _);
    vm_compute; reflexivity.
Defined.

Lemma load_artifacts_bad_payload_witness :
  ∃ msg w',
    load_artifacts example.APP_DIR (Some "20240601-1200") true
      example.world_list_payload = (Raise (AttributeError msg), w') ∧
    disk_log w' =
      disk_log example.world_list_payload ++
      (IOExists ∘ str <$> artifact_paths example.APP_DIR "20240601-1200") ++
      [IORead (str (model_path example.APP_DIR "20240601-1200"));
       IORead (str (feature_list_path example.APP_DIR "20240601-1200"))] ∧
    _ARTIFACT_CACHE w' = _ARTIFACT_CACHE example.world_list_payload.
Proof.
  refine (load_artifacts_bad_payload example.APP_DIR (Some "20240601-1200")
            true example.world_list_payload "20240601-1200"
            example.world_list_payload example.scorer
            (JArray [JString "src_port"; JString "dst_port"])
            eq_refl eq_refl _ _ _ _).
  - apply (bool_decide_unpack _). by vm_compute.
  - vm_compute. reflexivity.
  - vm_compute. reflexivity.
  - intros items H. discriminate H.
Defined.

Lemma predict_from_dataframe_cells_witness :
  wf_frame example.request ∧
  predict_from_dataframe example.APP_DIR example.request None
    (Some example.narrow_bundle) None example.idle
  = (Ok ([DEFAULT_DECISION_THRESHOLD; DEFAULT_DECISION_THRESHOLD;
          DEFAULT_DECISION_THRESHOLD],
         [1; 1; 1], example.narrow_bundle),
     {| fs := ∅; _ARTIFACT_CACHE := None; next_id := 0; disk_log := [];
        stdout :=
          ["[WARN] X_request: found 3 non-finite values; converting to NaN.";
           "[INFO] X_request: imputing 3 NaNs with training medians."] |}) ∧
  ∃ X_clean,
    df_index X_clean = [0; 1; 2] ∧
    cell (df_values X_clean) 1 0
      = Some (sanitized_cell example.ports_spec 0 (example.int 443)) ∧
    cell (df_values X_clean) 1 1
      = Some (sanitized_cell example.ports_spec 1 np.nan).
Proof.
  split; [exact wf_request|].
  match goal with |- ?H ∧ _ => assert H as Hrun by (vm_compute; reflexivity) end.
  split; [exact Hrun|].
  destruct (predict_from_dataframe_cells _ _ _ _ _ _ _ _ _ _ wf_request Hrun)
    as (X_clean & _ & Hidx & _ & Hcell).
  exists X_clean. split; [exact Hidx|]. split.
  - apply (Hcell 1%nat 0%nat "src_port"); [vm_compute; lia|reflexivity].
  - apply (Hcell 1%nat 1%nat "dst_port"); [vm_compute; lia|reflexivity].
Defined.

Lemma predict_from_dataframe_supplied_witness :
  printed_only example.idle
    (predict_from_dataframe example.APP_DIR example.request None
       (Some example.narrow_bundle) None example.idle).2 ∧
  stdout (predict_from_dataframe example.APP_DIR example.request None
            (Some example.narrow_bundle) None example.idle).2
  = ["[WARN] X_request: found 3 non-finite values; converting to NaN.";
     "[INFO] X_request: imputing 3 NaNs with training medians."] ∧
  ∀ proba labels b,
    (predict_from_dataframe example.APP_DIR example.request None
       (Some example.narrow_bundle) None example.idle).1
      = Ok (proba, labels, b) →
    b = example.narrow_bundle.
Proof.
  destruct (predict_from_dataframe_supplied example.APP_DIR example.request
              None example.narrow_bundle None example.idle _ _
              (surjective_pairing _)) as (Hframe & Hout & Hb).
  split; [exact Hframe|]. split; [|exact Hb].
  rewrite Hout. vm_compute. reflexivity.
Defined.

Lemma predict_from_dataframe_cached_witness :
  _ARTIFACT_CACHE example.warm = Some example.latest ∧
  predict_from_dataframe example.APP_DIR example.request None None None
    example.warm
  = predict_from_dataframe example.APP_DIR example.request None
      (Some example.latest) None example.warm ∧
  printed_only example.warm
    (predict_from_dataframe example.APP_DIR example.request None None None
       example.warm).2.
Proof.
  split; [reflexivity|].
  exact (predict_from_dataframe_cached example.APP_DIR example.request None
           None example.warm example.latest eq_refl).
Defined.

Lemma predict_from_dataframe_nan_witness :
  predict_from_dataframe example.APP_DIR example.request (Some np.nan)
    (Some example.narrow_bundle) None example.idle
  = (Ok ([DEFAULT_DECISION_THRESHOLD; DEFAULT_DECISION_THRESHOLD;
          DEFAULT_DECISION_THRESHOLD],
         [0; 0; 0], example.narrow_bundle),
     {| fs := ∅; _ARTIFACT_CACHE := None; next_id := 0; disk_log := [];
        stdout :=
          ["[WARN] X_request: found 3 non-finite values; converting to NaN.";
           "[INFO] X_request: imputing 3 NaNs with training medians."] |}) ∧
  (∀ i l, [0; 0; 0] !! i = Some l → l = 0 ∨ l = 1) ∧
  [0; 0; 0]
  = (λ _, 0) <$> [DEFAULT_DECISION_THRESHOLD; DEFAULT_DECISION_THRESHOLD;
                  DEFAULT_DECISION_THRESHOLD].
Proof.
  match goal with |- ?H ∧ _ => assert H as Hrun by (vm_compute; reflexivity) end.
  split; [exact Hrun|].
  destruct (predict_from_dataframe_nan _ _ _ _ _ _ _ _ _ _ Hrun)
    as (H01 & _ & Hnan).
  split; [exact H01|]. exact (Hnan np.nan eq_refl eq_refl).
Defined.

Lemma predict_response_witness :
  predict example.APP_DIR example.api_request example.warm
  = (Ok {| schemas.probabilities := [S754_finite false 4503599627370496 (-52)];
           schemas.labels := [1];
           schemas.model_version := "20240601-1200" |},
     example.warm) ∧
  ∃ b X_clean,
    _ARTIFACT_CACHE example.warm = Some b ∧
    "20240601-1200" = version (obj_val b) ∧
    df_columns X_clean = columns (sanitizer (obj_val b)) ∧
    ∀ j c,
      columns (sanitizer (obj_val b)) !! j = Some c →
      cell (df_values X_clean) 0 j
        = Some (sanitized_cell (sanitizer (obj_val b)) j
                  (if decide (c ∈ feature_names (obj_val b))
                   then default np.nan
                          (dict_get (schemas.dict example.flow) c)
                   else np.nan)).
Proof.
  match goal with |- ?H ∧ _ => assert H as Hrun by (vm_compute; reflexivity) end.
  split; [exact Hrun|].
  destruct (predict_response _ _ _ _ _ Hrun)
    as (b & X_clean & Hc & Hv & _ & _ & _ & Hcols & Hcell).
  exists b, X_clean. split; [exact Hc|]. split; [exact Hv|].
  split; [exact Hcols|].
  intros j c. apply (Hcell 0%nat example.flow j c). reflexivity.
Defined.

Lemma model_info_response_witness :
  model_info example.APP_DIR example.warm
  = (Ok {| schemas.version := "20240601-1200";
           schemas.target_column := JString "Label";
           schemas.benign_labels := JArray [JString "Benign"];
           schemas.feature_count := 2;
           schemas.train_days := JArray [];
           schemas.test_days := JArray [] |},
     example.warm) ∧
  ∃ b items,
    _ARTIFACT_CACHE example.warm = Some b ∧
    metadata (obj_val b) = JObject items ∧
    "20240601-1200" = version (obj_val b) ∧
    2%nat = length (feature_names (obj_val b)).
Proof.
  match goal with |- ?H ∧ _ => assert H as Hrun by (vm_compute; reflexivity) end.
  split; [exact Hrun|].
  destruct (model_info_response _ _ _ _ Hrun)
    as (b & items & _ & Hc & Hm & Hv & Hn & _).
  exists b, items. split; [exact Hc|]. split; [exact Hm|].
  split; [exact Hv|exact Hn].
Defined.

Lemma model_info_bad_metadata_witness :
  load_artifacts example.APP_DIR None true example.warm_narrow
    = (Ok example.narrow_bundle, example.warm_narrow) ∧
  ∃ msg,
    model_info example.APP_DIR example.warm_narrow
      = (Raise (AttributeError msg), example.warm_narrow) ∧
    _ARTIFACT_CACHE example.warm_narrow = Some example.narrow_bundle.
Proof.
  split; [reflexivity|].
  refine (model_info_bad_metadata example.APP_DIR example.warm_narrow
            example.narrow_bundle example.warm_narrow eq_refl _).
  intros items H. discriminate H.
Defined.

Lemma model_info_then_predict_witness :
  printed_only example.warm
    (predict example.APP_DIR example.api_request example.warm).2 ∧
  ∀ resp,
    (predict example.APP_DIR example.api_request example.warm).1 = Ok resp →
    schemas.model_version resp = "20240601-1200".
Proof.
  assert (model_info example.APP_DIR example.warm
          = (Ok {| schemas.version := "20240601-1200";
                   schemas.target_column := JString "Label";
                   schemas.benign_labels := JArray [JString "Benign"];
                   schemas.feature_count := 2;
                   schemas.train_days := JArray [];
                   schemas.test_days := JArray [] |},
             example.warm)) as Hinfo by (vm_compute; reflexivity).
  exact (model_info_then_predict example.APP_DIR example.warm _ example.warm
           example.api_request _ _ Hinfo (surjective_pairing _)).
Defined.

Lemma predict_from_dataframe_empty_witness :
  wf_frame example.no_rows ∧
  NoDup (feature_names (obj_val example.latest)) ∧
  predict_from_dataframe example.APP_DIR example.no_rows None
    (Some example.latest) None example.idle
  = (Ok ([], [], example.latest), example.idle).
Proof.
  assert (wf_frame example.no_rows) as Hwf.
  { split; [apply NoDup_nil_2|reflexivity|apply Forall_nil_2]. }
  assert (NoDup (feature_names (obj_val example.latest))) as Hnd.
  { apply (bool_decide_unpack _). by vm_compute. }
  split; [exact Hwf|]. split; [exact Hnd|].
  exact (predict_from_dataframe_empty example.APP_DIR example.no_rows None
           example.latest None example.idle Hwf eq_refl Hnd).
Defined.
